(** * MCTeams_and_Whisper.py: a shallow embedding and its properties

    The script downloads a Teams/Stream recording with ffmpeg and, unless the
    user asks for the download only, transcribes it with the whisper command.
    It is modelled function by function: the string builtins it calls
    ([PyStr]), urllib.parse's urlsplit and urlunsplit ([Urllib]), the
    environment it talks to ([World], with an error-and-state monad [M]), and
    then the functions of the script itself under their own names. *)

From Stdlib Require Import String Ascii List NArith ZArith Lia Bool.
From Stdlib Require DecimalString.
Import ListNotations.

(* ================================================================= *)
(** ** Python strings *)

(** A [str] is a sequence of Unicode code points. *)
Definition char := N.
Definition str := list char.

Definition lit (s : string) : str := map N_of_ascii (list_ascii_of_string s).
Arguments lit s%_string.

Module PyStr.

Local Open Scope Z_scope.

Fixpoint eqb (a b : str) : bool :=
  match a, b with
  | [], [] => true
  | x :: a', y :: b' => N.eqb x y && eqb a' b'
  | _, _ => false
  end.

Definition len (s : str) : Z := Z.of_nat (length s).

(** [bool(s)]: a string is true when it is not empty. *)
Definition truthy (s : str) : bool :=
  match s with [] => false | _ :: _ => true end.

(** [a or b] on strings. *)
Definition or_else (a b : str) : str := if truthy a then a else b.

(** How a slice bound is read: negative bounds count from the end, and the
    result is kept within [0 .. len]. *)
Definition clamp (n i : Z) : Z :=
  if i <? 0 then Z.max 0 (i + n) else Z.min i n.

(** [s[a:b]], [s[:b]] and [s[a:]]. *)
Definition slice (s : str) (a b : Z) : str :=
  let a' := clamp (len s) a in
  let b' := clamp (len s) b in
  firstn (Z.to_nat (b' - a')) (skipn (Z.to_nat a') s).

Definition slice_to (s : str) (b : Z) : str :=
  firstn (Z.to_nat (clamp (len s) b)) s.

Definition slice_from (s : str) (a : Z) : str :=
  skipn (Z.to_nat (clamp (len s) a)) s.

Fixpoint startswith (p s : str) : bool :=
  match p, s with
  | [], _ => true
  | x :: p', y :: s' => N.eqb x y && startswith p' s'
  | _ :: _, [] => false
  end.

Definition endswith (p s : str) : bool := startswith (rev p) (rev s).

(** Leftmost occurrence of [sub] in [s], counted from [i]; -1 when there is
    none. *)
Fixpoint find_from (sub s : str) (i : Z) : Z :=
  if startswith sub s then i
  else match s with
       | [] => -1
       | _ :: t => find_from sub t (i + 1)
       end.

(** [s.find(sub)] and [s.find(sub, start)]. *)
Definition find (sub s : str) : Z := find_from sub s 0.

Definition find_at (sub s : str) (start : Z) : Z :=
  let a := clamp (len s) start in
  if len s <? start then -1 else find_from sub (skipn (Z.to_nat a) s) a.

(** Rightmost occurrence: [last] is the best position seen so far. *)
Fixpoint rfind_from (sub s : str) (i last : Z) : Z :=
  let last' := if startswith sub s then i else last in
  match s with
  | [] => last'
  | _ :: t => rfind_from sub t (i + 1) last'
  end.

(** [s.rfind(sub, start, end)]: the highest index where [sub] lies within
    [s[start:end]]. *)
Definition rfind (sub s : str) (start end_ : Z) : Z :=
  let a := clamp (len s) start in
  let b := clamp (len s) end_ in
  if (b <? a) || (len s <? start) then -1
  else rfind_from sub (slice s a b) a (-1).

(** [c in s] for a one-character [c]. *)
Definition mem (c : char) (s : str) : bool := existsb (N.eqb c) s.

Fixpoint lstrip_by (p : char -> bool) (s : str) : str :=
  match s with
  | [] => []
  | c :: t => if p c then lstrip_by p t else s
  end.

Definition rstrip_by (p : char -> bool) (s : str) : str :=
  rev (lstrip_by p (rev s)).

(** [s.lstrip(chars)], [s.rstrip(chars)]. *)
Definition lstrip_chars (chars s : str) : str := lstrip_by (fun c => mem c chars) s.
Definition rstrip_chars (chars s : str) : str := rstrip_by (fun c => mem c chars) s.

(** The code points [str.strip()] removes (Py_UNICODE_ISSPACE). *)
Definition isspace (c : char) : bool :=
  (((9 <=? c) && (c <=? 13)) || ((28 <=? c) && (c <=? 32))
   || (c =? 133) || (c =? 160) || (c =? 5760)
   || ((8192 <=? c) && (c <=? 8202))
   || (c =? 8232) || (c =? 8233) || (c =? 8239) || (c =? 8287)
   || (c =? 12288))%N.

Definition strip (s : str) : str := rstrip_by isspace (lstrip_by isspace s).

(** [str.lower()].  Basic Latin capitals move by 32 and the other code points
    are looked up in [lower_table].  U+0130 (capital I with dot above) is the
    one code point whose lowercase form is two code points long ("i" and
    U+0307).  A capital sigma (U+03A3) becomes the final form U+03C2 when a
    cased letter comes before it and none comes after it, code points that
    are Case_Ignorable being skipped on both sides, and U+03C3 otherwise. *)

(** The lowercase mapping beyond Basic Latin (Unicode 14.0): the code points
    [lo], [lo + step], ... up to [hi] become [to], [to + step], ... *)
Definition lower_table : list (N * N * N * N) :=
  [(192, 214, 1, 224); (216, 222, 1, 248); (256, 302, 2, 257);
   (306, 310, 2, 307); (313, 327, 2, 314); (330, 374, 2, 331);
   (376, 376, 1, 255); (377, 381, 2, 378); (385, 385, 1, 595);
   (386, 388, 2, 387); (390, 390, 1, 596); (391, 391, 1, 392);
   (393, 394, 1, 598); (395, 395, 1, 396); (398, 398, 1, 477);
   (399, 399, 1, 601); (400, 400, 1, 603); (401, 401, 1, 402);
   (403, 403, 1, 608); (404, 404, 1, 611); (406, 406, 1, 617);
   (407, 407, 1, 616); (408, 408, 1, 409); (412, 412, 1, 623);
   (413, 413, 1, 626); (415, 415, 1, 629); (416, 420, 2, 417);
   (422, 422, 1, 640); (423, 423, 1, 424); (425, 425, 1, 643);
   (428, 428, 1, 429); (430, 430, 1, 648); (431, 431, 1, 432);
   (433, 434, 1, 650); (435, 437, 2, 436); (439, 439, 1, 658);
   (440, 440, 1, 441); (444, 444, 1, 445); (452, 452, 1, 454);
   (453, 453, 1, 454); (455, 455, 1, 457); (456, 456, 1, 457);
   (458, 458, 1, 460); (459, 475, 2, 460); (478, 494, 2, 479);
   (497, 497, 1, 499); (498, 500, 2, 499); (502, 502, 1, 405);
   (503, 503, 1, 447); (504, 542, 2, 505); (544, 544, 1, 414);
   (546, 562, 2, 547); (570, 570, 1, 11365); (571, 571, 1, 572);
   (573, 573, 1, 410); (574, 574, 1, 11366); (577, 577, 1, 578);
   (579, 579, 1, 384); (580, 580, 1, 649); (581, 581, 1, 652);
   (582, 590, 2, 583); (880, 882, 2, 881); (886, 886, 1, 887);
   (895, 895, 1, 1011); (902, 902, 1, 940); (904, 906, 1, 941);
   (908, 908, 1, 972); (910, 911, 1, 973); (913, 929, 1, 945);
   (931, 939, 1, 963); (975, 975, 1, 983); (984, 1006, 2, 985);
   (1012, 1012, 1, 952); (1015, 1015, 1, 1016); (1017, 1017, 1, 1010);
   (1018, 1018, 1, 1019); (1021, 1023, 1, 891); (1024, 1039, 1, 1104);
   (1040, 1071, 1, 1072); (1120, 1152, 2, 1121); (1162, 1214, 2, 1163);
   (1216, 1216, 1, 1231); (1217, 1229, 2, 1218); (1232, 1326, 2, 1233);
   (1329, 1366, 1, 1377); (4256, 4293, 1, 11520); (4295, 4295, 1, 11559);
   (4301, 4301, 1, 11565); (5024, 5103, 1, 43888); (5104, 5109, 1, 5112);
   (7312, 7354, 1, 4304); (7357, 7359, 1, 4349); (7680, 7828, 2, 7681);
   (7838, 7838, 1, 223); (7840, 7934, 2, 7841); (7944, 7951, 1, 7936);
   (7960, 7965, 1, 7952); (7976, 7983, 1, 7968); (7992, 7999, 1, 7984);
   (8008, 8013, 1, 8000); (8025, 8031, 2, 8017); (8040, 8047, 1, 8032);
   (8072, 8079, 1, 8064); (8088, 8095, 1, 8080); (8104, 8111, 1, 8096);
   (8120, 8121, 1, 8112); (8122, 8123, 1, 8048); (8124, 8124, 1, 8115);
   (8136, 8139, 1, 8050); (8140, 8140, 1, 8131); (8152, 8153, 1, 8144);
   (8154, 8155, 1, 8054); (8168, 8169, 1, 8160); (8170, 8171, 1, 8058);
   (8172, 8172, 1, 8165); (8184, 8185, 1, 8056); (8186, 8187, 1, 8060);
   (8188, 8188, 1, 8179); (8486, 8486, 1, 969); (8490, 8490, 1, 107);
   (8491, 8491, 1, 229); (8498, 8498, 1, 8526); (8544, 8559, 1, 8560);
   (8579, 8579, 1, 8580); (9398, 9423, 1, 9424); (11264, 11311, 1, 11312);
   (11360, 11360, 1, 11361); (11362, 11362, 1, 619);
   (11363, 11363, 1, 7549); (11364, 11364, 1, 637);
   (11367, 11371, 2, 11368); (11373, 11373, 1, 593); (11374, 11374, 1, 625);
   (11375, 11375, 1, 592); (11376, 11376, 1, 594); (11378, 11378, 1, 11379);
   (11381, 11381, 1, 11382); (11390, 11391, 1, 575);
   (11392, 11490, 2, 11393); (11499, 11501, 2, 11500);
   (11506, 11506, 1, 11507); (42560, 42604, 2, 42561);
   (42624, 42650, 2, 42625); (42786, 42798, 2, 42787);
   (42802, 42862, 2, 42803); (42873, 42875, 2, 42874);
   (42877, 42877, 1, 7545); (42878, 42886, 2, 42879);
   (42891, 42891, 1, 42892); (42893, 42893, 1, 613);
   (42896, 42898, 2, 42897); (42902, 42920, 2, 42903);
   (42922, 42922, 1, 614); (42923, 42923, 1, 604); (42924, 42924, 1, 609);
   (42925, 42925, 1, 620); (42926, 42926, 1, 618); (42928, 42928, 1, 670);
   (42929, 42929, 1, 647); (42930, 42930, 1, 669); (42931, 42931, 1, 43859);
   (42932, 42946, 2, 42933); (42948, 42948, 1, 42900);
   (42949, 42949, 1, 642); (42950, 42950, 1, 7566);
   (42951, 42953, 2, 42952); (42960, 42960, 1, 42961);
   (42966, 42968, 2, 42967); (42997, 42997, 1, 42998);
   (65313, 65338, 1, 65345); (66560, 66599, 1, 66600);
   (66736, 66771, 1, 66776); (66928, 66938, 1, 66967);
   (66940, 66954, 1, 66979); (66956, 66962, 1, 66995);
   (66964, 66965, 1, 67003); (68736, 68786, 1, 68800);
   (71840, 71871, 1, 71872); (93760, 93791, 1, 93792);
   (125184, 125217, 1, 125218)]%N.

(** The code points with the property Cased, as ranges. *)
Definition cased_table : list (N * N) :=
  [(65, 90); (97, 122); (170, 170); (181, 181); (186, 186); (192, 214);
   (216, 246); (248, 442); (444, 447); (452, 659); (661, 696); (704, 705);
   (736, 740); (837, 837); (880, 883); (886, 887); (890, 893); (895, 895);
   (902, 902); (904, 906); (908, 908); (910, 929); (931, 1013);
   (1015, 1153); (1162, 1327); (1329, 1366); (1376, 1416); (4256, 4293);
   (4295, 4295); (4301, 4301); (4304, 4346); (4349, 4351); (5024, 5109);
   (5112, 5117); (7296, 7304); (7312, 7354); (7357, 7359); (7424, 7615);
   (7680, 7957); (7960, 7965); (7968, 8005); (8008, 8013); (8016, 8023);
   (8025, 8025); (8027, 8027); (8029, 8029); (8031, 8061); (8064, 8116);
   (8118, 8124); (8126, 8126); (8130, 8132); (8134, 8140); (8144, 8147);
   (8150, 8155); (8160, 8172); (8178, 8180); (8182, 8188); (8305, 8305);
   (8319, 8319); (8336, 8348); (8450, 8450); (8455, 8455); (8458, 8467);
   (8469, 8469); (8473, 8477); (8484, 8484); (8486, 8486); (8488, 8488);
   (8490, 8493); (8495, 8500); (8505, 8505); (8508, 8511); (8517, 8521);
   (8526, 8526); (8544, 8575); (8579, 8580); (9398, 9449); (11264, 11492);
   (11499, 11502); (11506, 11507); (11520, 11557); (11559, 11559);
   (11565, 11565); (42560, 42605); (42624, 42653); (42786, 42887);
   (42891, 42894); (42896, 42954); (42960, 42961); (42963, 42963);
   (42965, 42969); (42997, 42998); (43000, 43002); (43824, 43866);
   (43868, 43880); (43888, 43967); (64256, 64262); (64275, 64279);
   (65313, 65338); (65345, 65370); (66560, 66639); (66736, 66771);
   (66776, 66811); (66928, 66938); (66940, 66954); (66956, 66962);
   (66964, 66965); (66967, 66977); (66979, 66993); (66995, 67001);
   (67003, 67004); (67456, 67456); (67459, 67461); (67463, 67504);
   (67506, 67514); (68736, 68786); (68800, 68850); (71840, 71903);
   (93760, 93823); (119808, 119892); (119894, 119964); (119966, 119967);
   (119970, 119970); (119973, 119974); (119977, 119980); (119982, 119993);
   (119995, 119995); (119997, 120003); (120005, 120069); (120071, 120074);
   (120077, 120084); (120086, 120092); (120094, 120121); (120123, 120126);
   (120128, 120132); (120134, 120134); (120138, 120144); (120146, 120485);
   (120488, 120512); (120514, 120538); (120540, 120570); (120572, 120596);
   (120598, 120628); (120630, 120654); (120656, 120686); (120688, 120712);
   (120714, 120744); (120746, 120770); (120772, 120779); (122624, 122633);
   (122635, 122654); (125184, 125251); (127280, 127305); (127312, 127337);
   (127344, 127369)]%N.

(** The code points with the property Case_Ignorable, as ranges. *)
Definition case_ignorable_table : list (N * N) :=
  [(39, 39); (46, 46); (58, 58); (94, 94); (96, 96); (168, 168); (173, 173);
   (175, 175); (180, 180); (183, 184); (688, 879); (884, 885); (890, 890);
   (900, 901); (903, 903); (1155, 1161); (1369, 1369); (1375, 1375);
   (1425, 1469); (1471, 1471); (1473, 1474); (1476, 1477); (1479, 1479);
   (1524, 1524); (1536, 1541); (1552, 1562); (1564, 1564); (1600, 1600);
   (1611, 1631); (1648, 1648); (1750, 1757); (1759, 1768); (1770, 1773);
   (1807, 1807); (1809, 1809); (1840, 1866); (1958, 1968); (2027, 2037);
   (2042, 2042); (2045, 2045); (2070, 2093); (2137, 2139); (2184, 2184);
   (2192, 2193); (2200, 2207); (2249, 2306); (2362, 2362); (2364, 2364);
   (2369, 2376); (2381, 2381); (2385, 2391); (2402, 2403); (2417, 2417);
   (2433, 2433); (2492, 2492); (2497, 2500); (2509, 2509); (2530, 2531);
   (2558, 2558); (2561, 2562); (2620, 2620); (2625, 2626); (2631, 2632);
   (2635, 2637); (2641, 2641); (2672, 2673); (2677, 2677); (2689, 2690);
   (2748, 2748); (2753, 2757); (2759, 2760); (2765, 2765); (2786, 2787);
   (2810, 2815); (2817, 2817); (2876, 2876); (2879, 2879); (2881, 2884);
   (2893, 2893); (2901, 2902); (2914, 2915); (2946, 2946); (3008, 3008);
   (3021, 3021); (3072, 3072); (3076, 3076); (3132, 3132); (3134, 3136);
   (3142, 3144); (3146, 3149); (3157, 3158); (3170, 3171); (3201, 3201);
   (3260, 3260); (3263, 3263); (3270, 3270); (3276, 3277); (3298, 3299);
   (3328, 3329); (3387, 3388); (3393, 3396); (3405, 3405); (3426, 3427);
   (3457, 3457); (3530, 3530); (3538, 3540); (3542, 3542); (3633, 3633);
   (3636, 3642); (3654, 3662); (3761, 3761); (3764, 3772); (3782, 3782);
   (3784, 3789); (3864, 3865); (3893, 3893); (3895, 3895); (3897, 3897);
   (3953, 3966); (3968, 3972); (3974, 3975); (3981, 3991); (3993, 4028);
   (4038, 4038); (4141, 4144); (4146, 4151); (4153, 4154); (4157, 4158);
   (4184, 4185); (4190, 4192); (4209, 4212); (4226, 4226); (4229, 4230);
   (4237, 4237); (4253, 4253); (4348, 4348); (4957, 4959); (5906, 5908);
   (5938, 5939); (5970, 5971); (6002, 6003); (6068, 6069); (6071, 6077);
   (6086, 6086); (6089, 6099); (6103, 6103); (6109, 6109); (6155, 6159);
   (6211, 6211); (6277, 6278); (6313, 6313); (6432, 6434); (6439, 6440);
   (6450, 6450); (6457, 6459); (6679, 6680); (6683, 6683); (6742, 6742);
   (6744, 6750); (6752, 6752); (6754, 6754); (6757, 6764); (6771, 6780);
   (6783, 6783); (6823, 6823); (6832, 6862); (6912, 6915); (6964, 6964);
   (6966, 6970); (6972, 6972); (6978, 6978); (7019, 7027); (7040, 7041);
   (7074, 7077); (7080, 7081); (7083, 7085); (7142, 7142); (7144, 7145);
   (7149, 7149); (7151, 7153); (7212, 7219); (7222, 7223); (7288, 7293);
   (7376, 7378); (7380, 7392); (7394, 7400); (7405, 7405); (7412, 7412);
   (7416, 7417); (7468, 7530); (7544, 7544); (7579, 7679); (8125, 8125);
   (8127, 8129); (8141, 8143); (8157, 8159); (8173, 8175); (8189, 8190);
   (8203, 8207); (8216, 8217); (8228, 8228); (8231, 8231); (8234, 8238);
   (8288, 8292); (8294, 8303); (8305, 8305); (8319, 8319); (8336, 8348);
   (8400, 8432); (11388, 11389); (11503, 11505); (11631, 11631);
   (11647, 11647); (11744, 11775); (11823, 11823); (12293, 12293);
   (12330, 12333); (12337, 12341); (12347, 12347); (12441, 12446);
   (12540, 12542); (40981, 40981); (42232, 42237); (42508, 42508);
   (42607, 42610); (42612, 42621); (42623, 42623); (42652, 42655);
   (42736, 42737); (42752, 42785); (42864, 42864); (42888, 42890);
   (42994, 42996); (43000, 43001); (43010, 43010); (43014, 43014);
   (43019, 43019); (43045, 43046); (43052, 43052); (43204, 43205);
   (43232, 43249); (43263, 43263); (43302, 43309); (43335, 43345);
   (43392, 43394); (43443, 43443); (43446, 43449); (43452, 43453);
   (43471, 43471); (43493, 43494); (43561, 43566); (43569, 43570);
   (43573, 43574); (43587, 43587); (43596, 43596); (43632, 43632);
   (43644, 43644); (43696, 43696); (43698, 43700); (43703, 43704);
   (43710, 43711); (43713, 43713); (43741, 43741); (43756, 43757);
   (43763, 43764); (43766, 43766); (43867, 43871); (43881, 43883);
   (44005, 44005); (44008, 44008); (44013, 44013); (64286, 64286);
   (64434, 64450); (65024, 65039); (65043, 65043); (65056, 65071);
   (65106, 65106); (65109, 65109); (65279, 65279); (65287, 65287);
   (65294, 65294); (65306, 65306); (65342, 65342); (65344, 65344);
   (65392, 65392); (65438, 65439); (65507, 65507); (65529, 65531);
   (66045, 66045); (66272, 66272); (66422, 66426); (67456, 67461);
   (67463, 67504); (67506, 67514); (68097, 68099); (68101, 68102);
   (68108, 68111); (68152, 68154); (68159, 68159); (68325, 68326);
   (68900, 68903); (69291, 69292); (69446, 69456); (69506, 69509);
   (69633, 69633); (69688, 69702); (69744, 69744); (69747, 69748);
   (69759, 69761); (69811, 69814); (69817, 69818); (69821, 69821);
   (69826, 69826); (69837, 69837); (69888, 69890); (69927, 69931);
   (69933, 69940); (70003, 70003); (70016, 70017); (70070, 70078);
   (70089, 70092); (70095, 70095); (70191, 70193); (70196, 70196);
   (70198, 70199); (70206, 70206); (70367, 70367); (70371, 70378);
   (70400, 70401); (70459, 70460); (70464, 70464); (70502, 70508);
   (70512, 70516); (70712, 70719); (70722, 70724); (70726, 70726);
   (70750, 70750); (70835, 70840); (70842, 70842); (70847, 70848);
   (70850, 70851); (71090, 71093); (71100, 71101); (71103, 71104);
   (71132, 71133); (71219, 71226); (71229, 71229); (71231, 71232);
   (71339, 71339); (71341, 71341); (71344, 71349); (71351, 71351);
   (71453, 71455); (71458, 71461); (71463, 71467); (71727, 71735);
   (71737, 71738); (71995, 71996); (71998, 71998); (72003, 72003);
   (72148, 72151); (72154, 72155); (72160, 72160); (72193, 72202);
   (72243, 72248); (72251, 72254); (72263, 72263); (72273, 72278);
   (72281, 72283); (72330, 72342); (72344, 72345); (72752, 72758);
   (72760, 72765); (72767, 72767); (72850, 72871); (72874, 72880);
   (72882, 72883); (72885, 72886); (73009, 73014); (73018, 73018);
   (73020, 73021); (73023, 73029); (73031, 73031); (73104, 73105);
   (73109, 73109); (73111, 73111); (73459, 73460); (78896, 78904);
   (92912, 92916); (92976, 92982); (92992, 92995); (94031, 94031);
   (94095, 94111); (94176, 94177); (94179, 94180); (110576, 110579);
   (110581, 110587); (110589, 110590); (113821, 113822); (113824, 113827);
   (118528, 118573); (118576, 118598); (119143, 119145); (119155, 119170);
   (119173, 119179); (119210, 119213); (119362, 119364); (121344, 121398);
   (121403, 121452); (121461, 121461); (121476, 121476); (121499, 121503);
   (121505, 121519); (122880, 122886); (122888, 122904); (122907, 122913);
   (122915, 122916); (122918, 122922); (123184, 123197); (123566, 123566);
   (123628, 123631); (125136, 125142); (125252, 125259); (127995, 127999);
   (917505, 917505); (917536, 917631); (917760, 917999)]%N.

Definition in_ranges (t : list (N * N)) (c : char) : bool :=
  existsb (fun r => (fst r <=? c) && (c <=? snd r))%N t.

Fixpoint lower_lookup (t : list (N * N * N * N)) (c : char) : char :=
  match t with
  | [] => c
  | (lo, hi, step, to) :: t' =>
      (if (lo <=? c) && (c <=? hi) && ((c - lo) mod step =? 0)
       then to + (c - lo)
       else lower_lookup t' c)%N
  end.

Definition lower_code (c : char) : char :=
  (if c <? 128 then (if (65 <=? c) && (c <=? 90) then c + 32 else c)
   else lower_lookup lower_table c)%N.

Definition lower_char (c : char) : str :=
  (if c =? 304 then [105; 775] else [lower_code c])%N.

Definition cased (c : char) : bool := in_ranges cased_table c.
Definition case_ignorable (c : char) : bool := in_ranges case_ignorable_table c.

(** Whether a capital sigma stands at the end of a word; [before] holds the
    code points before it, the nearest one first. *)
Definition final_sigma (before after : str) : bool :=
  match lstrip_by case_ignorable before with
  | [] => false
  | c :: _ => cased c
  end
  && match lstrip_by case_ignorable after with
     | [] => true
     | c :: _ => negb (cased c)
     end.

Fixpoint lower_from (before s : str) : str :=
  match s with
  | [] => []
  | c :: t =>
      (if (c =? 931)%N
       then [if final_sigma before t then 962%N else 963%N]
       else lower_char c)
      ++ lower_from (c :: before) t
  end.

Definition lower (s : str) : str := lower_from [] s.

Definition isascii_char (c : char) : bool := (c <? 128)%N.
Definition isascii (s : str) : bool := forallb isascii_char s.

(** [c.isascii() and c.isalpha()]. *)
Definition isascii_alpha (c : char) : bool :=
  (((65 <=? c) && (c <=? 90)) || ((97 <=? c) && (c <=? 122)))%N.

(** [s.replace(old, new)]: every occurrence, left to right, not overlapping.
    [skip] counts the code points of an occurrence still to be dropped. *)
Fixpoint replace_from (old new s : str) (skip : nat) : str :=
  match s with
  | [] => []
  | c :: t =>
      match skip with
      | S k => replace_from old new t k
      | O => if startswith old s
             then new ++ replace_from old new t (length old - 1)
             else c :: replace_from old new t 0
      end
  end.

Definition replace (old new s : str) : str :=
  match old with
  | [] => new ++ flat_map (fun c => c :: new) s
  | _ :: _ => replace_from old new s 0
  end.

(** [s.partition(c)] for a one-character separator: the text before the
    first [c], whether [c] was found, and the text after it. *)
Fixpoint partition (c : char) (s : str) : str * bool * str :=
  match s with
  | [] => ([], false, [])
  | x :: t =>
      if N.eqb x c then ([], true, t)
      else let '(a, f, b) := partition c t in (x :: a, f, b)
  end.

(** [s.rpartition(c)]: split at the last [c]; without one, all of [s] is the
    third part. *)
Definition rpartition (c : char) (s : str) : str * bool * str :=
  let '(a, f, b) := partition c (rev s) in
  if f then (rev b, true, rev a) else ([], false, s).

(** [str(n)] for an integer. *)
Definition of_Z (n : Z) : str :=
  lit (DecimalString.NilZero.string_of_int (Z.to_int n)).

End PyStr.

(* ================================================================= *)
(** ** urllib.parse *)

Record SplitResult := mkSplit {
  scheme : str;
  netloc : str;
  path : str;
  query : str;
  fragment : str
}.

(** What urlsplit asks of the modules it imports on the rarely taken paths
    of its host checks. *)
Class Library := {
  (** [unicodedata.normalize('NFKC', s)] *)
  nfkc : str -> str;
  (** [_check_bracketed_host(hostname)] returns without raising: the text
      between the brackets is an IPv6 or an IPvFuture address. *)
  bracketed_host_ok : str -> bool
}.

Module Urllib.
Import PyStr.
Local Open Scope Z_scope.

Definition uses_netloc : list str :=
  [lit ""; lit "ftp"; lit "http"; lit "gopher"; lit "nntp"; lit "telnet";
   lit "imap"; lit "wais"; lit "file"; lit "mms"; lit "https"; lit "shttp";
   lit "snews"; lit "prospero"; lit "rtsp"; lit "rtspu"; lit "rsync";
   lit "svn"; lit "svn+ssh"; lit "sftp"; lit "nfs"; lit "git"; lit "git+ssh";
   lit "ws"; lit "wss"].

(** Letters, digits and "+-.". *)
Definition scheme_char (c : char) : bool :=
  (((97 <=? c) && (c <=? 122)) || ((65 <=? c) && (c <=? 90))
   || ((48 <=? c) && (c <=? 57))
   || (c =? 43) || (c =? 45) || (c =? 46))%N.

(** _WHATWG_C0_CONTROL_OR_SPACE: U+0000 to U+0020. *)
Definition c0_control_or_space (c : char) : bool := (c <=? 32)%N.

(** _UNSAFE_URL_BYTES_TO_REMOVE: tab, carriage return and line feed, each
    replaced by the empty string. *)
Definition remove_unsafe (url : str) : str :=
  replace [10%N] [] (replace [13%N] [] (replace [9%N] [] url)).

Definition _splitnetloc (url : str) (start : Z) : str * str :=
  let step (delim : Z) (c : char) :=
    let wdelim := find_at [c] url start in
    if 0 <=? wdelim then Z.min delim wdelim else delim in
  let delim := fold_left step (lit "/?#") (len url) in
  (slice url start delim, slice_from url delim).

(** The scheme step of urlsplit: the text before the first ":" is the
    scheme when it starts with an ASCII letter and is made of scheme
    characters; the scheme, lowercased, and what follows the ":". *)
Definition split_scheme (url : str) : str * str :=
  let i := find (lit ":") url in
  if (0 <? i) && isascii_alpha (hd 0%N url)
     && forallb scheme_char (slice_to url i)
  then (lower (slice_to url i), slice_from url (i + 1))
  else ([], url).

(** [if c in url: url, x = url.split(c, 1)], with [x] empty otherwise. *)
Definition split_mark (c : char) (url : str) : str * str :=
  if mem c url
  then let '(a, _, b) := partition c url in (a, b)
  else (url, []).

Section WithLibrary.
Context {lib : Library}.

(** [true] when the function returns, [false] when it raises ValueError. *)
Definition _check_bracketed_netloc (netloc : str) : bool :=
  let hostname_and_port := snd (rpartition 64%N netloc) in
  let '(before_bracket, have_open_br, bracketed) :=
    partition 91%N hostname_and_port in
  if have_open_br then
    if truthy before_bracket then false
    else
      let '(hostname, _, port) := partition 93%N bracketed in
      if truthy port && negb (startswith (lit ":") port) then false
      else bracketed_host_ok hostname
  else
    let '(hostname, _, _) := partition 58%N hostname_and_port in
    bracketed_host_ok hostname.

Definition _checknetloc (netloc : str) : bool :=
  if negb (truthy netloc) || isascii netloc then true
  else
    let n := replace (lit "?") [] (replace (lit "#") []
               (replace (lit ":") [] (replace (lit "@") [] netloc))) in
    let netloc2 := nfkc n in
    if eqb n netloc2 then true
    else negb (existsb (fun c => mem c netloc2) (lit "/?#@:")).

(** The host step of urlsplit, taken when the text starts with "//": the
    host part and what follows it; [None] stands for ValueError. *)
Definition split_host (url : str) : option (str * str) :=
  if eqb (slice_to url 2) (lit "//") then
    let '(netloc, rest) := _splitnetloc url 2 in
    let open := mem 91%N netloc in
    let close := mem 93%N netloc in
    if (open && negb close) || (close && negb open) then None
    else if open && close && negb (_check_bracketed_netloc netloc) then None
    else Some (netloc, rest)
  else Some ([], url).

(** [urlsplit(url)]; [None] stands for ValueError. *)
Definition urlsplit (url : str) : option SplitResult :=
  let url := lstrip_by c0_control_or_space url in
  let url := remove_unsafe url in
  let '(scheme, url) := split_scheme url in
  match split_host url with
  | None => None
  | Some (netloc, url) =>
      let '(url, fragment) := split_mark 35%N url in
      let '(url, query) := split_mark 63%N url in
      if _checknetloc netloc
      then Some (mkSplit scheme netloc url query fragment)
      else None
  end.

End WithLibrary.

(** [urlunsplit((scheme, netloc, url, query, fragment))]. *)
Definition urlunsplit (p : SplitResult) : str :=
  let url := path p in
  let url :=
    if truthy (netloc p)
       || (truthy (scheme p) && existsb (eqb (scheme p)) uses_netloc
           && negb (eqb (slice_to url 2) (lit "//")))
    then
      let url := if truthy url && negb (eqb (slice_to url 1) (lit "/"))
                 then lit "/" ++ url else url in
      lit "//" ++ netloc p ++ url
    else url in
  let url := if truthy (scheme p) then scheme p ++ lit ":" ++ url else url in
  let url := if truthy (query p) then url ++ lit "?" ++ query p else url in
  let url := if truthy (fragment p) then url ++ lit "#" ++ fragment p else url in
  url.

End Urllib.

(** An instance for running examples: normalisation changes nothing and no
    bracketed host is accepted. *)
Definition plain_library : Library :=
  {| nfkc := fun s => s; bracketed_host_ok := fun _ => false |}.

(* ================================================================= *)
(** ** The environment *)

(** The exceptions that occur. *)
Inductive exn :=
| SystemExit (code : Z)
| CalledProcessError (returncode : Z)
| EOFError
| ValueError
| OSError
| ImportError.

(** [isinstance(e, Exception)]: SystemExit is the one that is not. *)
Definition is_Exception (e : exn) : bool :=
  match e with SystemExit _ => false | _ => true end.

Inductive result (A : Type) :=
| Ok (a : A)
| Raise (e : exn).
Arguments Ok {A} a.
Arguments Raise {A} e.

(** What the script can see of the file system. *)
Record FS := mkFS {
  (** [os.path.exists] *)
  exists_ : str -> bool;
  (** [os.listdir]; [None] when it raises OSError *)
  listdir : str -> option (list str);
  (** [os.path.getmtime], on some fixed time scale; [None] when it raises *)
  getmtime : str -> option Z
}.

(** What a failing file operation raises: OSError, or ValueError for a path
    that cannot be handed to the system (a NUL in it). *)
Inductive path_error := os_error | value_error.

Definition raised (e : path_error) : exn :=
  match e with os_error => OSError | value_error => ValueError end.

(** The return codes subprocess reports on a POSIX system: the exit status
    of the child, 0 to 255, or the negated number of the signal that ended
    it. *)
Definition is_returncode (rc : Z) : bool := ((-128 <? rc) && (rc <? 256))%Z.

(** What the script does that can be observed from outside, in order; a
    child process is recorded with the return code it ended with. *)
Inductive event :=
| Printed (line : str)
| Prompted (prompt : str)
| Spawned (argv : list str) (returncode : Z).

Record World := mkWorld {
  (** lines still to be read from standard input; none left is end of file *)
  stdin : list str;
  (** what happened so far, oldest first *)
  trace : list event;
  (** [shutil.which(cmd) is not None] *)
  which : str -> bool;
  (** [torch.cuda.is_available()], [None] when importing torch or the call
      raises *)
  torch_cuda : option bool;
  expanduser : str -> str;
  abspath : str -> str;
  fs : FS;
  (** [os.makedirs(path, exist_ok=True)]; [None] when it raises *)
  makedirs : str -> FS -> option FS;
  (** when it raises: the exception, and the files as the call leaves them
      (it makes the directories it can before it fails) *)
  makedirs_failure : str -> FS -> path_error * FS;
  (** a child process, given its argument list: its return code and the
      files it leaves.  The commands are looked up before anything is
      started (ensure_cmd_on_path), so starting one is taken to succeed. *)
  child : list str -> FS -> Z * FS;
  child_returncode : forall argv f, is_returncode (fst (child argv f)) = true
}.

Definition emit (e : event) (w : World) : World :=
  mkWorld (stdin w) (trace w ++ [e]) (which w) (torch_cuda w)
          (expanduser w) (abspath w) (fs w) (makedirs w) (makedirs_failure w)
          (child w) (child_returncode w).

Definition set_stdin (l : list str) (w : World) : World :=
  mkWorld l (trace w) (which w) (torch_cuda w)
          (expanduser w) (abspath w) (fs w) (makedirs w) (makedirs_failure w)
          (child w) (child_returncode w).

Definition set_fs (f : FS) (w : World) : World :=
  mkWorld (stdin w) (trace w) (which w) (torch_cuda w)
          (expanduser w) (abspath w) f (makedirs w) (makedirs_failure w)
          (child w) (child_returncode w).

(** A computation reads and changes the world and returns or raises. *)
Definition M (A : Type) : Type := World -> result A * World.

Definition ret {A} (a : A) : M A := fun w => (Ok a, w).

Definition bind {A B} (m : M A) (k : A -> M B) : M B :=
  fun w => match m w with
           | (Ok a, w') => k a w'
           | (Raise e, w') => (Raise e, w')
           end.

Definition raise {A} (e : exn) : M A := fun w => (Raise e, w).

(** [try: body / except ...: handler]: [handler e] is [None] for an
    exception the except clause does not name. *)
Definition try_except {A} (body : M A) (handler : exn -> option (M A)) : M A :=
  fun w => match body w with
           | (Ok a, w') => (Ok a, w')
           | (Raise e, w') =>
               match handler e with
               | Some h => h w'
               | None => (Raise e, w')
               end
           end.

Declare Scope py_scope.
Delimit Scope py_scope with py.
Notation "x <- m ;; k" := (bind m (fun x => k))
  (at level 61, m at next level, right associativity) : py_scope.
Notation "m ;; k" := (bind m (fun _ => k))
  (at level 61, right associativity) : py_scope.
Notation "' pat <- m ;; k" := (bind m (fun x => match x with pat => k end))
  (at level 61, pat pattern, m at next level, right associativity) : py_scope.
Local Open Scope py_scope.

Definition print (line : str) : M unit := fun w => (Ok tt, emit (Printed line) w).

(** [input(prompt)]: the prompt is written, then a line is read. *)
Definition input (prompt : str) : M str :=
  fun w =>
    let w := emit (Prompted prompt) w in
    match stdin w with
    | [] => (Raise EOFError, w)
    | l :: rest => (Ok l, set_stdin rest w)
    end.

Definition sys_exit {A} (code : Z) : M A := raise (SystemExit code).

Definition shutil_which (cmd : str) : M bool := fun w => (Ok (which w cmd), w).

(** [import torch] followed by [torch.cuda.is_available()]. *)
Definition torch_cuda_is_available : M bool :=
  fun w => match torch_cuda w with
           | Some b => (Ok b, w)
           | None => (Raise ImportError, w)
           end.

Definition os_makedirs (p : str) : M unit :=
  fun w => match makedirs w p (fs w) with
           | Some f => (Ok tt, set_fs f w)
           | None =>
               let '(e, f) := makedirs_failure w p (fs w) in
               (Raise (raised e), set_fs f w)
           end.

Definition os_path_exists (p : str) : M bool := fun w => (Ok (exists_ (fs w) p), w).

Definition os_listdir (p : str) : M (list str) :=
  fun w => match listdir (fs w) p with
           | Some l => (Ok l, w)
           | None => (Raise OSError, w)
           end.

Definition os_path_getmtime (p : str) : M Z :=
  fun w => match getmtime (fs w) p with
           | Some t => (Ok t, w)
           | None => (Raise OSError, w)
           end.

(** [subprocess.run(argv, check=True)] *)
Definition subprocess_run (argv : list str) : M unit :=
  fun w =>
    let '(rc, f) := child w argv (fs w) in
    let w := set_fs f (emit (Spawned argv rc) w) in
    if (rc =? 0)%Z then (Ok tt, w) else (Raise (CalledProcessError rc), w).

(** posixpath.join and posixpath.dirname *)
Definition os_path_join (a b : str) : str :=
  if PyStr.startswith (lit "/") b then b
  else if negb (PyStr.truthy a) || PyStr.endswith (lit "/") a then a ++ b
  else a ++ lit "/" ++ b.

Definition os_path_dirname (p : str) : str :=
  let i := (PyStr.rfind (lit "/") p 0 (PyStr.len p) + 1)%Z in
  let head := PyStr.slice_to p i in
  if PyStr.truthy head && negb (forallb (N.eqb 47) head)
  then PyStr.rstrip_chars (lit "/") head
  else head.

(** [max(l, key=f)]: the keys are computed in order; the first element with
    the largest key wins. *)
Fixpoint keyed (key : str -> M Z) (l : list str) : M (list (str * Z)) :=
  match l with
  | [] => ret []
  | x :: t => k <- key x ;; r <- keyed key t ;; ret ((x, k) :: r)
  end.

Fixpoint max_from (best : str * Z) (l : list (str * Z)) : str :=
  match l with
  | [] => fst best
  | (x, k) :: t => if (snd best <? k)%Z then max_from (x, k) t else max_from best t
  end.

Definition max_by_key (key : str -> M Z) (l : list str) : M str :=
  r <- keyed key l ;;
  match r with
  | [] => raise ValueError
  | b :: t => ret (max_from b t)
  end.

(** The exit status of the process: 0 when main returns, the low eight bits
    of the code given to sys.exit, and 1 for an exception nobody caught (the
    interpreter prints the traceback and exits with 1). *)
Definition exit_status {A} (r : result A) : Z :=
  match r with
  | Ok _ => 0
  | Raise (SystemExit code) => code mod 256
  | Raise _ => 1
  end.

(* ================================================================= *)
(** ** The script *)

Module Script.
Import PyStr.
Local Open Scope Z_scope.

Definition no_altmanifest_msg : str :=
  lit "[i] No 'altManifest*' parameter found: using URL as is.".

Section WithLibrary.
Context {lib : Library}.

Definition trim_after_altmanifest (url : str) : M str :=
  match Urllib.urlsplit url with
  | None => raise ValueError
  | Some parts =>
      let q := query parts in
      if negb (truthy q) then
        print no_altmanifest_msg ;;
        ret url
      else
        let q_lower := lower q in
        let pos := find (lit "altmanifest") q_lower in
        if pos =? -1 then
          print no_altmanifest_msg ;;
          ret url
        else
          let amp := rfind (lit "&") q 0 pos in
          let '(new_query, kept) :=
            if amp =? -1 then ([], lit "(empty)")
            else
              let new_query := slice_to q amp in
              let new_query := rstrip_chars (lit "&") new_query in
              (new_query, if truthy new_query then new_query else lit "(empty)") in
          print (lit "[i] Truncating URL at 'altManifest*'. Remaining query: " ++ kept) ;;
          ret (Urllib.urlunsplit
                 (mkSplit (scheme parts) (netloc parts) (path parts)
                          new_query (fragment parts)))
  end.

End WithLibrary.

(** [try: x = input(prompt).strip() / except EOFError: x = ""] *)
Definition input_stripped (prompt : str) : M str :=
  try_except (s <- input prompt ;; ret (strip s))
             (fun e => match e with EOFError => Some (ret []) | _ => None end).

Definition mode_prompt : str := lit "Choose 1 or 2 [default: 2]: ".

Definition prompt_mode : M str :=
  print ([10%N] ++ lit "== Action ==") ;;
  print (lit "[1] Download Only (stop after saving the video)") ;;
  print (lit "[2] Download + Transcribe with Whisper (default)") ;;
  choice <- input_stripped mode_prompt ;;
  if eqb choice (lit "1") then
    print (lit "[i] Selected: Download Only.") ;;
    ret (lit "download")
  else
    print (lit "[i] Selected: Download + Transcribe.") ;;
    ret (lit "transcribe").

Definition default_dir : str := lit "transcripts".
Definition default_language : str := lit "en".
Definition default_device : str := lit "cuda".
Definition default_model : str := lit "medium.en".

(** The prompts and messages of prompt_all_inputs. *)
Definition dir_prompt : str :=
  lit "Where do you want to save the files? (Enter = " ++ default_dir ++ lit "): ".
Definition url_prompt : str :=
  lit "Paste the video link (Teams/Stream) and press Enter: ".
Definition language_prompt : str :=
  lit "Transcription language? (Enter = " ++ default_language
    ++ lit "; use 'auto' for automatic detection): ".
Definition device_prompt : str :=
  lit "Device? (Enter = " ++ default_device
    ++ lit "; type 'cpu' if you don't have CUDA): ".
Definition no_url_msg : str := lit "[x] No URL provided. Exiting.".
Definition unrecognized_device_msg (device : str) : str :=
  lit "[!] Unrecognized device: '" ++ device
    ++ lit "'. Using default: " ++ default_device ++ lit ".".
Definition switching_model_msg (language model : str) : str :=
  lit "[i] Requested language = '" ++ language
    ++ lit "'. Switching model from '" ++ default_model
    ++ lit "' " ++ [8594%N] ++ lit " '" ++ model ++ lit "' (multilingual).".

Definition prompt_all_inputs : M (str * str * str * str * str) :=
  outdir_in <- input_stripped dir_prompt ;;
  outdir <- (fun w => (Ok (abspath w (expanduser w (or_else outdir_in default_dir))), w)) ;;
  url <- input_stripped url_prompt ;;
  (if negb (truthy url) then
     print no_url_msg ;;
     sys_exit 1
   else ret tt) ;;
  lang_in <- input_stripped language_prompt ;;
  let language := lower (or_else lang_in default_language) in
  dev_in <- input_stripped device_prompt ;;
  let device := lower (or_else dev_in default_device) in
  device <- (if negb (existsb (eqb device) [lit "cuda"; lit "cpu"]) then
               print (unrecognized_device_msg device) ;;
               ret default_device
             else ret device) ;;
  model <- (if (negb (eqb language (lit "en")) || eqb language (lit "auto"))
               && endswith (lit ".en") default_model
            then
              let model := replace (lit ".en") [] default_model in
              print (switching_model_msg language model) ;;
              ret model
            else ret default_model) ;;
  ret (outdir, url, language, device, model).

Definition command_missing_msg (cmd help_hint : str) : str :=
  lit "[x] Command '" ++ cmd ++ lit "' not found in PATH. " ++ help_hint.

Definition ensure_cmd_on_path (cmd help_hint : str) : M unit :=
  found <- shutil_which cmd ;;
  if negb found then
    print (command_missing_msg cmd help_hint) ;;
    sys_exit 1
  else ret tt.

Definition resolve_device (device : str) : M str :=
  if eqb device (lit "cuda") then
    try_except
      (available <- torch_cuda_is_available ;;
       if negb available then
         print (lit "[!] CUDA not available according to PyTorch. Falling back to 'cpu'.") ;;
         ret (lit "cpu")
       else
         print (lit "[i] CUDA available: using 'cuda'.") ;;
         ret (lit "cuda"))
      (fun e =>
         if is_Exception e then
           Some (found <- shutil_which (lit "nvidia-smi") ;;
                 if negb found then
                   print (lit "[!] Neither PyTorch CUDA nor 'nvidia-smi' detected. Falling back to 'cpu'.") ;;
                   ret (lit "cpu")
                 else
                   print (lit "[i] GPU detected via 'nvidia-smi': using 'cuda'.") ;;
                   ret (lit "cuda"))
         else None)
  else ret (lit "cpu").

Definition make_paths {lib : Library} (outdir url : str) : M (str * str * str) :=
  os_makedirs outdir ;;
  url_trimmed <- trim_after_altmanifest url ;;
  let basename := lit "video" in
  let mp4_path := os_path_join outdir (basename ++ lit ".mp4") in
  ret (url_trimmed, basename, mp4_path).

Definition ffmpeg_argv (url_trimmed mp4_path : str) : list str :=
  [lit "ffmpeg"; lit "-y"; lit "-i"; url_trimmed; lit "-codec"; lit "copy"; mp4_path].

Definition run_ffmpeg (url_trimmed mp4_path : str) : M unit :=
  os_makedirs (os_path_dirname mp4_path) ;;
  print (lit "[i] Downloading video with ffmpeg...") ;;
  subprocess_run (ffmpeg_argv url_trimmed mp4_path) ;;
  print (lit "[" ++ [10003%N] ++ lit "] Video saved: " ++ mp4_path).

Definition verbose_flags : list str := [lit "--verbose"; lit "False"].

(** The list [cmd] of run_whisper, before the verbose flags are added. *)
Definition whisper_cmd (mp4_path outdir model language device : str) : list str :=
  let cmd := [lit "whisper"; mp4_path; lit "--model"; model; lit "--device"; device;
              lit "--output_format"; lit "txt"; lit "--output_dir"; outdir] in
  if negb (eqb language (lit "auto")) then cmd ++ [lit "--language"; language] else cmd.

Definition run_whisper (mp4_path outdir model language device : str) : M unit :=
  print (lit "[i] Starting Whisper transcription " ++ [8594%N] ++ lit " model=" ++ model
           ++ lit ", language=" ++ language ++ lit ", device=" ++ device) ;;
  let cmd := whisper_cmd mp4_path outdir model language device in
  let cmd_verbose := cmd ++ verbose_flags in
  try_except
    (subprocess_run cmd_verbose)
    (fun e => match e with
              | CalledProcessError _ =>
                  Some (print (lit "[!] '--verbose False' not supported? Retrying without '--verbose'.") ;;
                        subprocess_run cmd)
              | _ => None
              end).

(** [bool(l)] for a list. *)
Definition nonempty {A} (l : list A) : bool :=
  match l with [] => false | _ :: _ => true end.

Definition txt_candidates (outdir basename : str) (names : list str) : list str :=
  map (os_path_join outdir)
      (filter (fun f => endswith (lit ".txt") f && startswith basename f) names).

Definition txt_any (outdir : str) (names : list str) : list str :=
  map (os_path_join outdir) (filter (fun f => endswith (lit ".txt") f) names).

Definition transcript_missing_msg : str :=
  lit "[x] Couldn't find the .txt output. Check whisper logs.".

Definition pick_txt_output (outdir basename : str) : M (option str) :=
  let txt_path := os_path_join outdir (basename ++ lit ".txt") in
  found <- os_path_exists txt_path ;;
  if found then
    print (lit "[" ++ [10003%N] ++ lit "] Transcript ready: " ++ txt_path) ;;
    ret (Some txt_path)
  else
    names <- os_listdir outdir ;;
    let candidates := txt_candidates outdir basename names in
    candidates <- (if negb (nonempty candidates)
                   then names <- os_listdir outdir ;; ret (txt_any outdir names)
                   else ret candidates) ;;
    if nonempty candidates then
      latest <- max_by_key os_path_getmtime candidates ;;
      print (lit "[i] Found TXT output (newest): " ++ latest) ;;
      ret (Some latest)
    else
      print transcript_missing_msg ;;
      ret None.

Definition main {lib : Library} : M unit :=
  ensure_cmd_on_path (lit "ffmpeg") (lit "Install ffmpeg and ensure it's in PATH.") ;;
  ensure_cmd_on_path (lit "whisper")
    (lit "Install openai-whisper with: pip install -U openai-whisper") ;;
  mode <- prompt_mode ;;
  '(outdir, url, language, device_req, model) <- prompt_all_inputs ;;
  '(url_trimmed, basename, mp4_path) <- make_paths outdir url ;;
  device <- resolve_device device_req ;;
  (if negb (eqb device device_req) then
     print (lit "[i] Device fallback: requested='" ++ device_req
              ++ lit "', effective='" ++ device ++ lit "'.")
   else ret tt) ;;
  run_ffmpeg url_trimmed mp4_path ;;
  if eqb mode (lit "download") then
    print (lit "[i] Download completed. Exiting as requested (Download Only).") ;;
    sys_exit 0
  else
    try_except
      (run_whisper mp4_path outdir model language device)
      (fun e => match e with
                | CalledProcessError returncode =>
                    Some (print (lit "[x] Error while running whisper: exit code "
                                   ++ of_Z returncode ++ lit ".") ;;
                          sys_exit returncode)
                | _ => None
                end) ;;
    _ <- pick_txt_output outdir basename ;;
    ret tt.

End Script.

(* ================================================================= *)
(** ** Notions the properties are stated with *)

Import PyStr Script.
Local Open Scope Z_scope.

(** What the prompt number [n] of a run (counted from 0) yields: the line
    read, stripped, and the empty string once standard input has ended. *)
Definition answer (n : nat) (w : World) : str :=
  strip (nth n (stdin w) []).

(** The child processes of a trace, in order, each with its return code. *)
Fixpoint spawns (t : list event) : list (list str * Z) :=
  match t with
  | [] => []
  | Spawned argv rc :: t' => (argv, rc) :: spawns t'
  | _ :: t' => spawns t'
  end.

(** [sub] occurs in [s]. *)
Definition occurs (sub s : str) : Prop :=
  exists pre post, s = pre ++ sub ++ post.

(** The query string holds the parameter name, whatever the case of its
    letters. *)
Definition has_altmanifest (q : str) : Prop :=
  occurs (lit "altmanifest") (lower q).

(** Lowercasing code point by code point, a capital sigma always to the
    small one: what str.lower gives but for the final sigmas. *)
Definition lower_plain (s : str) : str := flat_map lower_char s.

(** The small sigma, final or not. *)
Definition small_sigma (c : char) : bool := ((c =? 962) || (c =? 963))%N.

Definition no_small_sigma (s : str) : bool :=
  forallb (fun c => negb (small_sigma c)) s.

(** The same code point, or two small sigmas. *)
Definition same_but_sigma (x y : char) : Prop :=
  x = y \/ (small_sigma x = true /\ small_sigma y = true).

(** [p] is one of [l] and none of [l] was modified later. *)
Definition newest (f : FS) (l : list str) (p : str) : Prop :=
  In p l /\
  exists t, getmtime f p = Some t /\
    forall p' t', In p' l -> getmtime f p' = Some t' -> t' <= t.

(** The path, under [outdir], of an entry of the listing [names] whose name
    ends in ".txt". *)
Definition txt_entry (outdir : str) (names : list str) (p : str) : Prop :=
  exists stem,
    In (stem ++ lit ".txt") names /\ p = os_path_join outdir (stem ++ lit ".txt").

(** The same, for an entry whose name also starts with [basename]. *)
Definition named_txt_entry (outdir basename : str) (names : list str)
    (p : str) : Prop :=
  exists rest stem,
    In (basename ++ rest) names /\ basename ++ rest = stem ++ lit ".txt"
    /\ p = os_path_join outdir (basename ++ rest).

(** [p] is one of the files [P] and none of them was modified later. *)
Definition most_recent (f : FS) (P : str -> Prop) (p : str) : Prop :=
  P p /\
  exists t, getmtime f p = Some t /\
    forall p' t', P p' -> getmtime f p' = Some t' -> t' <= t.

(** A computation that starts no child process, whatever its outcome. *)
Definition quiet {A} (m : M A) : Prop :=
  forall w, spawns (trace (snd (m w))) = spawns (trace w).

(** The shapes a run of main can take, read off the child processes it
    started and how it ended: it stops before the download; the download
    fails; the download is all that was asked for; whisper succeeds at once;
    whisper succeeds at the second attempt; whisper fails twice. *)
Inductive run_shape : result unit -> list (list str * Z) -> Prop :=
| stopped_early r :
    run_shape r []
| download_failed u p rc :
    rc <> 0 ->
    run_shape (Raise (CalledProcessError rc)) [(ffmpeg_argv u p, rc)]
| download_only u p :
    run_shape (Raise (SystemExit 0)) [(ffmpeg_argv u p, 0)]
| transcribed r u p f o m l d :
    run_shape r [(ffmpeg_argv u p, 0);
                 (whisper_cmd f o m l d ++ verbose_flags, 0)]
| transcribed_on_retry r u p f o m l d rc1 :
    rc1 <> 0 ->
    run_shape r [(ffmpeg_argv u p, 0);
                 (whisper_cmd f o m l d ++ verbose_flags, rc1);
                 (whisper_cmd f o m l d, 0)]
| transcription_failed u p f o m l d rc1 rc2 :
    rc1 <> 0 -> rc2 <> 0 -> is_returncode rc2 = true ->
    run_shape (Raise (SystemExit rc2))
              [(ffmpeg_argv u p, 0);
               (whisper_cmd f o m l d ++ verbose_flags, rc1);
               (whisper_cmd f o m l d, rc2)].

(** The shapes of a run in Download Only mode: it stops before the
    download, the download fails, or the download succeeds and the run ends
    with exit status 0. *)
Inductive download_shape : result unit -> list (list str * Z) -> Prop :=
| stopped_before_download r :
    download_shape r []
| only_download_failed u p rc :
    rc <> 0 ->
    download_shape (Raise (CalledProcessError rc)) [(ffmpeg_argv u p, rc)]
| only_download_done u p :
    download_shape (Raise (SystemExit 0)) [(ffmpeg_argv u p, 0)].

(** [m], run after the children [pre], completes one of the shapes of [S]:
    the children it adds and the way it ends are related by [S]. *)
Definition shaped_from (S : result unit -> list (list str * Z) -> Prop)
    (pre : list (list str * Z)) (m : M unit) : Prop :=
  forall w, exists new,
    spawns (trace (snd (m w))) = spawns (trace w) ++ new
    /\ S (fst (m w)) (pre ++ new).

(** [kept] is [q] cut before the parameter that holds "altmanifest": what
    follows [kept] in [q] is a run of "&" (none only when nothing is kept)
    and then a parameter, free of "&" up to the name, that holds the name in
    some case of letters; and [kept] does not end in "&". *)
Definition cut_before_altmanifest (q kept : str) : Prop :=
  exists seps t1 m t2,
    q = kept ++ seps ++ t1 ++ m ++ t2
    /\ Forall (eq 38%N) seps
    /\ (seps = [] -> kept = [])
    /\ (forall u x, kept = u ++ [x] -> x <> 38%N)
    /\ ~ In 38%N t1
    /\ lower m = lit "altmanifest".

(** No tab, line feed or carriage return. *)
Definition clean (s : str) : Prop :=
  Forall (fun x => x <> 9%N /\ x <> 10%N /\ x <> 13%N) s.

(** None of "/", "?" and "#". *)
Definition no_delim (s : str) : Prop :=
  ~ In 47%N s /\ ~ In 63%N s /\ ~ In 35%N s.

(** Empty, or starting with one of "/", "?" and "#". *)
Definition starts_delim (s : str) : Prop :=
  s = [] \/ exists c t, s = c :: t /\ (c = 47 \/ c = 63 \/ c = 35)%N.

(** A scheme as urlsplit returns it: lowercase scheme characters, the first
    one a letter. *)
Definition good_scheme (sch : str) : Prop :=
  sch <> [] /\ isascii_alpha (hd 0%N sch) = true
  /\ forallb Urllib.scheme_char sch = true /\ lower sch = sch.

(** A component with the mark that introduces it, or nothing when the
    component is empty. *)
Definition opt_part (c : char) (x : str) : str :=
  if truthy x then c :: x else [].

(** The text urlunsplit puts together for a URL with a host. *)
Definition assembled (sch nl pth q frag : str) : str :=
  (if truthy sch then sch ++ lit ":" else [])
  ++ lit "//" ++ nl ++ pth ++ opt_part 63%N q ++ opt_part 35%N frag.

(** The host checks of urlsplit let [nl] through. *)
Definition netloc_accepted {lib : Library} (nl : str) : Prop :=
  ((mem 91%N nl && negb (mem 93%N nl)) || (mem 93%N nl && negb (mem 91%N nl)))
  = false
  /\ (mem 91%N nl && mem 93%N nl && negb (Urllib._check_bracketed_netloc nl))
     = false
  /\ Urllib._checknetloc nl = true.

(** Empty, or starting with "/". *)
Definition rooted (pth : str) : Prop :=
  pth = [] \/ exists t, pth = 47%N :: t.

(** The machine of [w'] is that of [w]: the same commands are found, torch
    answers the same, paths expand the same way, and directories and child
    processes behave the same. *)
Definition same_machine (w w' : World) : Prop :=
  which w' = which w /\ torch_cuda w' = torch_cuda w
  /\ expanduser w' = expanduser w /\ abspath w' = abspath w
  /\ makedirs w' = makedirs w /\ child w' = child w.


(** The same machine with the same files. *)
Definition same_files (w w' : World) : Prop :=
  same_machine w w' /\ fs w' = fs w.

(** Whatever its outcome, [m] leaves the world related by [R] to the one it
    started in. *)
Definition preserves {A} (R : World -> World -> Prop) (m : M A) : Prop :=
  forall w, R w (snd (m w)).

(** The trace of [w'] continues that of [w]. *)
Definition grows (w w' : World) : Prop := exists t, trace w' = trace w ++ t.

(** [m] raises no exception outside [P]. *)
Definition raises_only {A} (P : exn -> Prop) (m : M A) : Prop :=
  forall w e, fst (m w) = Raise e -> P e.

(** The exceptions a run of main can end in: SystemExit, OSError, ValueError
    and CalledProcessError with a return code other than 0. *)
Definition main_exception (e : exn) : Prop :=
  match e with
  | SystemExit _ | OSError | ValueError => True
  | CalledProcessError rc => rc <> 0
  | EOFError | ImportError => False
  end.

(** An exception that leaves a non-zero exit status. *)
Definition failure (e : exn) : Prop := exit_status (@Raise unit e) <> 0.

(** [m] does not end with exit status 0 without having started a child
    process. *)
Definition earns_its_zero (m : M unit) : Prop :=
  forall w, exit_status (fst (m w)) = 0 ->
            spawns (trace (snd (m w))) <> spawns (trace w).

(** What a run of main works with, in terms of the answers to its five
    prompts (mode, folder, URL, language, device, numbered from 0): the mode,
    the output folder, the language, the device asked for and the model. *)
Definition chosen_mode (w : World) : str :=
  if eqb (answer 0 w) (lit "1") then lit "download" else lit "transcribe".

Definition chosen_outdir (w : World) : str :=
  abspath w (expanduser w (or_else (answer 1 w) default_dir)).

Definition chosen_language (w : World) : str :=
  lower (or_else (answer 3 w) default_language).

Definition requested_device (w : World) : str :=
  let device := lower (or_else (answer 4 w) default_device) in
  if existsb (eqb device) [lit "cuda"; lit "cpu"] then device else default_device.

Definition chosen_model (w : World) : str :=
  if eqb (chosen_language w) (lit "en") then lit "medium.en" else lit "medium".

(** The path main downloads to. *)
Definition chosen_mp4 (w : World) : str :=
  os_path_join (chosen_outdir w) (lit "video" ++ lit ".mp4").

(** The device the probe of the machine settles on for a requested one. *)
Definition effective_device (w : World) (device : str) : str :=
  if eqb device (lit "cuda") then
    match torch_cuda w with
    | Some true => lit "cuda"
    | Some false => lit "cpu"
    | None => if which w (lit "nvidia-smi") then lit "cuda" else lit "cpu"
    end
  else lit "cpu".

(** What main prints when the probe settles on another device than the one
    asked for. *)
Definition device_fallback_msg (requested effective : str) : str :=
  lit "[i] Device fallback: requested='" ++ requested
    ++ lit "', effective='" ++ effective ++ lit "'.".

(** The statements of main that follow run_ffmpeg, as a computation of
    their own. *)
Definition after_download {lib : Library}
    (mode outdir basename mp4_path model language device : str) : M unit :=
  if eqb mode (lit "download") then
    print (lit "[i] Download completed. Exiting as requested (Download Only).") ;;
    sys_exit 0
  else
    try_except
      (run_whisper mp4_path outdir model language device)
      (fun e => match e with
                | CalledProcessError returncode =>
                    Some (print (lit "[x] Error while running whisper: exit code "
                                   ++ of_Z returncode ++ lit ".") ;;
                          sys_exit returncode)
                | _ => None
                end) ;;
    _ <- pick_txt_output outdir basename ;;
    ret tt.

(* ================================================================= *)
(** ** Example environments *)

(** A directory tree with nothing in it. *)
Definition empty_fs : FS :=
  mkFS (fun _ => false) (fun _ => Some []) (fun _ => None).

(** The return code [rc] when it is one, and 255 otherwise. *)
Definition as_returncode (rc : Z) : Z := if is_returncode rc then rc else 255.

Definition as_returncode_ok (rc : Z) : is_returncode (as_returncode rc) = true :=
  match is_returncode rc as b
        return is_returncode rc = b -> is_returncode (if b then rc else 255) = true
  with
  | true => fun H => H
  | false => fun _ => eq_refl
  end eq_refl.

(** A session with the given input lines, on a machine where every command
    but those of [missing] is found, torch answers [tc], directories can be
    made and child processes end with the code [rc] gives them. *)
Definition session (lines : list str) (missing : list str) (tc : option bool)
    (rc : list str -> Z) : World :=
  mkWorld lines [] (fun c => negb (existsb (eqb c) missing)) tc
          (fun p => p) (fun p => lit "/home/u/" ++ p) empty_fs
          (fun _ f => Some f) (fun _ f => (os_error, f))
          (fun argv f => (as_returncode (rc argv), f))
          (fun argv _ => as_returncode_ok (rc argv)).

Definition all_succeed : list str -> Z := fun _ => 0.

(** A session asking for a transcription in English on the CPU, where every
    child process named [failing] ends with the return code [rc]. *)
Definition failing_session (failing : str) (rc : Z) : World :=
  session [lit "2"; lit ""; lit "https://h/v?a=1"; lit ""; lit "cpu"] [] None
          (fun argv => if eqb (hd [] argv) failing then rc else 0).

(** A machine where torch is installed and reports no CUDA device, while the
    nvidia-smi command is on the path. *)
Definition torch_without_cuda : World :=
  session [] [] (Some false) all_succeed.

(** An output directory where whisper left two transcripts named after the
    video, the second one newer, next to an unrelated text file that is
    newer still. *)
Definition sample_fs : FS :=
  mkFS (fun p => existsb (eqb p)
                   [lit "/out"; lit "/out/notes.txt"; lit "/out/video.en.txt";
                    lit "/out/video.mp4"; lit "/out/video.it.txt"])
       (fun d => if eqb d (lit "/out")
                 then Some [lit "notes.txt"; lit "video.en.txt"; lit "video.mp4";
                            lit "video.it.txt"]
                 else None)
       (fun p => if eqb p (lit "/out/notes.txt") then Some 50
                 else if eqb p (lit "/out/video.en.txt") then Some 10
                 else if eqb p (lit "/out/video.it.txt") then Some 20
                 else if eqb p (lit "/out/video.mp4") then Some 5
                 else None).

Definition sample_world : World :=
  mkWorld [] [] (fun _ => true) None (fun p => p) (fun p => p) sample_fs
          (fun _ f => Some f) (fun _ f => (os_error, f))
          (fun _ f => (0, f)) (fun _ _ => eq_refl).

(** A query whose first parameter is fourteen times U+0130, followed by the
    altManifest parameter and one more. *)
Definition dotted_query : str :=
  repeat 304%N 14 ++ lit "&altManifest=1&x=2".

Definition dotted_url : str := lit "https://h/v?" ++ dotted_query.



(* ================================================================= *)
(** ** Properties *)

(** *** The model on sample inputs *)

Example lower_example :
  PyStr.lower (lit "a=1&altManifest=X") = lit "a=1&altmanifest=x".
Proof. reflexivity. Qed.

(** Greek capitals, with the sigma at the end of a word and inside one; the
    capital sigma alone; the Kelvin sign; and the capital I with dot above. *)
Example lower_beyond_ascii :
  PyStr.lower [927; 916; 927; 931; 32; 931; 927; 934; 927; 931]%N
  = [959; 948; 959; 962; 32; 963; 959; 966; 959; 962]%N
  /\ PyStr.lower [931%N] = [963%N]
  /\ PyStr.lower [8490%N] = lit "k"
  /\ PyStr.lower [304%N] = [105; 775]%N.
Proof. vm_compute. repeat split. Qed.

Example find_example :
  PyStr.find (lit "altmanifest") (lit "a=1&altmanifest=x") = 4%Z
  /\ PyStr.find (lit "altmanifest") (lit "a=1") = (-1)%Z.
Proof. split; reflexivity. Qed.

Example rfind_example :
  PyStr.rfind (lit "&") (lit "a=1&b=2&c") 0 5 = 3%Z
  /\ PyStr.rfind (lit "&") (lit "a=1&b=2&c") 0 3 = (-1)%Z.
Proof. split; reflexivity. Qed.

Example replace_example :
  PyStr.replace (lit ".en") (lit "") (lit "medium.en") = lit "medium".
Proof. reflexivity. Qed.

Example of_Z_example : PyStr.of_Z (-12) = lit "-12".
Proof. reflexivity. Qed.

Example urlsplit_example :
  Urllib.urlsplit (lib := plain_library)
    (lit "HTTPS://h.example:8/a/b?x=1&altManifest=2#top")
  = Some (mkSplit (lit "https") (lit "h.example:8") (lit "/a/b")
            (lit "x=1&altManifest=2") (lit "top")).
Proof. reflexivity. Qed.

Example urlunsplit_example :
  Urllib.urlunsplit (mkSplit (lit "https") (lit "h.example:8") (lit "/a/b")
                       (lit "x=1") (lit "top"))
  = lit "https://h.example:8/a/b?x=1#top".
Proof. reflexivity. Qed.
(** *** Strings *)

Lemma eqb_eq (a b : str) : eqb a b = true <-> a = b.
Proof.
  revert b; induction a as [|x a IH]; intros [|y b]; simpl; split;
    try congruence; try reflexivity.
  - intros H. apply andb_true_iff in H as [Hx Ha].
    apply N.eqb_eq in Hx. apply IH in Ha. congruence.
  - intros H. injection H as -> ->. rewrite N.eqb_refl. simpl. now apply IH.
Qed.

Lemma eqb_refl (a : str) : eqb a a = true.
Proof. now apply eqb_eq. Qed.

Lemma eqb_neq (a b : str) : eqb a b = false <-> a <> b.
Proof.
  split.
  - intros H E. apply eqb_eq in E. congruence.
  - intros H. destruct (eqb a b) eqn:E; [|reflexivity].
    apply eqb_eq in E. contradiction.
Qed.

Lemma truthy_false (s : str) : truthy s = false <-> s = [].
Proof. destruct s; simpl; split; congruence. Qed.

(** *** Reading answers *)

(** Reading a stripped answer never fails: at end of file it is empty. *)
Lemma input_stripped_eq (prompt : str) (w : World) :
  input_stripped prompt w
  = (Ok (strip (hd [] (stdin w))),
     set_stdin (tl (stdin w)) (emit (Prompted prompt) w)).
Proof.
  unfold input_stripped, try_except, bind, input, ret.
  destruct w as [inp tr wh tc eu ab f mk mf ch cr]. simpl.
  destruct inp as [|l rest]; reflexivity.
Qed.

Lemma answer_0 (w : World) : answer 0 w = strip (hd [] (stdin w)).
Proof. unfold answer. now destruct (stdin w). Qed.

Lemma nth_tl {A} (n : nat) (l : list A) (d : A) : nth n (tl l) d = nth (S n) l d.
Proof. destruct l; [now destruct n|reflexivity]. Qed.

Lemma hd_nth {A} (l : list A) (d : A) : hd d l = nth 0 l d.
Proof. now destruct l. Qed.

(** *** Child processes of a run *)

Lemma spawns_app (a b : list event) : spawns (a ++ b) = spawns a ++ spawns b.
Proof.
  induction a as [|e a' IH]; [reflexivity|].
  destruct e; simpl; now rewrite ?IH.
Qed.

Lemma quiet_ret {A} (a : A) : quiet (ret a).
Proof. now intros w. Qed.

Lemma quiet_raise {A} (e : exn) : quiet (@raise A e).
Proof. now intros w. Qed.

Lemma quiet_bind {A B} (m : M A) (k : A -> M B) :
  quiet m -> (forall a, quiet (k a)) -> quiet (bind m k).
Proof.
  intros Hm Hk w. unfold bind. specialize (Hm w).
  destruct (m w) as [[a|e] w1]; simpl in *; [|assumption].
  now rewrite Hk.
Qed.

Lemma quiet_try_except {A} (body : M A) (handler : exn -> option (M A)) :
  quiet body -> (forall e h, handler e = Some h -> quiet h) ->
  quiet (try_except body handler).
Proof.
  intros Hb Hh w. unfold try_except. specialize (Hb w).
  destruct (body w) as [[a|e] w1]; simpl in *; [assumption|].
  destruct (handler e) as [h|] eqn:E; [|assumption].
  now rewrite (Hh e h E).
Qed.

Lemma quiet_print (s : str) : quiet (print s).
Proof.
  intros w. unfold print, emit; simpl. rewrite spawns_app; simpl.
  now rewrite app_nil_r.
Qed.

Lemma quiet_input (p : str) : quiet (input p).
Proof.
  intros w. unfold input, emit, set_stdin; simpl.
  destruct (stdin w); simpl; rewrite spawns_app; simpl; now rewrite app_nil_r.
Qed.

Lemma quiet_sys_exit {A} (c : Z) : quiet (@sys_exit A c).
Proof. now intros w. Qed.

Lemma quiet_shutil_which (c : str) : quiet (shutil_which c).
Proof. now intros w. Qed.

Lemma quiet_torch : quiet torch_cuda_is_available.
Proof. intros w. unfold torch_cuda_is_available. now destruct (torch_cuda w). Qed.

Lemma quiet_os_makedirs (p : str) : quiet (os_makedirs p).
Proof.
  intros w. unfold os_makedirs.
  destruct (makedirs w p (fs w)); [reflexivity|].
  now destruct (makedirs_failure w p (fs w)).
Qed.

Lemma quiet_os_path_exists (p : str) : quiet (os_path_exists p).
Proof. now intros w. Qed.

Lemma quiet_os_listdir (p : str) : quiet (os_listdir p).
Proof. intros w. unfold os_listdir. now destruct (listdir (fs w) p). Qed.

Lemma quiet_os_path_getmtime (p : str) : quiet (os_path_getmtime p).
Proof. intros w. unfold os_path_getmtime. now destruct (getmtime (fs w) p). Qed.

Lemma quiet_read_world {A} (f : World -> A) : quiet (fun w => (Ok (f w), w)).
Proof. now intros w. Qed.

Create HintDb quiet.
#[local] Hint Resolve quiet_ret quiet_raise quiet_print quiet_input
  quiet_sys_exit quiet_shutil_which quiet_torch quiet_os_makedirs
  quiet_os_path_exists quiet_os_listdir quiet_os_path_getmtime
  quiet_read_world : quiet.

(** Splits a computation along its binds, handlers and tests. *)
Ltac quiet_step :=
  match goal with
  | |- quiet (bind _ _) => apply quiet_bind; [|intros ?]
  | |- quiet (try_except _ _) =>
      apply quiet_try_except;
      [|let e := fresh "e" in let h := fresh "h" in let E := fresh "E" in
        intros e h E; destruct e; simpl in E; try discriminate E;
        injection E as <-]
  | |- quiet (if ?b then _ else _) => destruct b
  | |- quiet (match ?x with _ => _ end) => destruct x
  | |- quiet _ => solve [auto with quiet]
  end.

Ltac quiet_tac := repeat quiet_step.

Lemma quiet_input_stripped (p : str) : quiet (input_stripped p).
Proof. unfold input_stripped. quiet_tac. Qed.

Lemma quiet_prompt_mode : quiet prompt_mode.
Proof. unfold prompt_mode. pose proof quiet_input_stripped. quiet_tac. Qed.

Lemma quiet_prompt_all_inputs : quiet prompt_all_inputs.
Proof. unfold prompt_all_inputs. pose proof quiet_input_stripped. quiet_tac. Qed.

Lemma quiet_ensure_cmd_on_path (c h : str) : quiet (ensure_cmd_on_path c h).
Proof. unfold ensure_cmd_on_path. quiet_tac. Qed.

Lemma quiet_resolve_device (d : str) : quiet (resolve_device d).
Proof. unfold resolve_device. quiet_tac. Qed.

Lemma quiet_trim_after_altmanifest {lib : Library} (url : str) :
  quiet (trim_after_altmanifest url).
Proof. unfold trim_after_altmanifest. quiet_tac. Qed.

Lemma quiet_make_paths {lib : Library} (outdir url : str) :
  quiet (make_paths outdir url).
Proof. unfold make_paths. pose proof quiet_trim_after_altmanifest. quiet_tac. Qed.

Lemma quiet_keyed (l : list str) : quiet (keyed os_path_getmtime l).
Proof. induction l; simpl; quiet_tac. Qed.

Lemma quiet_pick_txt_output (outdir basename : str) :
  quiet (pick_txt_output outdir basename).
Proof.
  unfold pick_txt_output, max_by_key. pose proof quiet_keyed. quiet_tac.
Qed.

(** *** How the primitive steps change the world *)

Lemma stdin_emit e w : stdin (emit e w) = stdin w.
Proof. reflexivity. Qed.
Lemma stdin_set_stdin l w : stdin (set_stdin l w) = l.
Proof. reflexivity. Qed.
Lemma stdin_set_fs f w : stdin (set_fs f w) = stdin w.
Proof. reflexivity. Qed.
Lemma trace_emit e w : trace (emit e w) = trace w ++ [e].
Proof. reflexivity. Qed.
Lemma trace_set_stdin l w : trace (set_stdin l w) = trace w.
Proof. reflexivity. Qed.
Lemma trace_set_fs f w : trace (set_fs f w) = trace w.
Proof. reflexivity. Qed.
Lemma which_emit e w : which (emit e w) = which w.
Proof. reflexivity. Qed.
Lemma which_set_stdin l w : which (set_stdin l w) = which w.
Proof. reflexivity. Qed.
Lemma which_set_fs f w : which (set_fs f w) = which w.
Proof. reflexivity. Qed.
Lemma torch_cuda_emit e w : torch_cuda (emit e w) = torch_cuda w.
Proof. reflexivity. Qed.
Lemma torch_cuda_set_stdin l w : torch_cuda (set_stdin l w) = torch_cuda w.
Proof. reflexivity. Qed.
Lemma abspath_emit e w : abspath (emit e w) = abspath w.
Proof. reflexivity. Qed.
Lemma abspath_set_stdin l w : abspath (set_stdin l w) = abspath w.
Proof. reflexivity. Qed.
Lemma expanduser_emit e w : expanduser (emit e w) = expanduser w.
Proof. reflexivity. Qed.
Lemma expanduser_set_stdin l w : expanduser (set_stdin l w) = expanduser w.
Proof. reflexivity. Qed.
Lemma fs_emit e w : fs (emit e w) = fs w.
Proof. reflexivity. Qed.
Lemma fs_set_stdin l w : fs (set_stdin l w) = fs w.
Proof. reflexivity. Qed.
Lemma fs_set_fs f w : fs (set_fs f w) = f.
Proof. reflexivity. Qed.
Lemma child_emit e w : child (emit e w) = child w.
Proof. reflexivity. Qed.
Lemma child_set_stdin l w : child (set_stdin l w) = child w.
Proof. reflexivity. Qed.
Lemma child_set_fs f w : child (set_fs f w) = child w.
Proof. reflexivity. Qed.

Create Rewrite HintDb world.
#[local] Hint Rewrite stdin_emit stdin_set_stdin stdin_set_fs trace_emit
  trace_set_stdin trace_set_fs which_emit which_set_stdin which_set_fs
  torch_cuda_emit torch_cuda_set_stdin abspath_emit abspath_set_stdin
  expanduser_emit expanduser_set_stdin fs_emit fs_set_stdin fs_set_fs
  child_emit child_set_stdin child_set_fs : world.

(** *** The prompts *)

Lemma prompt_mode_eq (w : World) :
  let download := eqb (answer 0 w) (lit "1") in
  exists w',
    prompt_mode w
    = (Ok (if download then lit "download" else lit "transcribe"), w')
    /\ trace w'
       = trace w
         ++ [Printed ([10%N] ++ lit "== Action ==");
             Printed (lit "[1] Download Only (stop after saving the video)");
             Printed (lit "[2] Download + Transcribe with Whisper (default)");
             Prompted mode_prompt;
             Printed (if download then lit "[i] Selected: Download Only."
                      else lit "[i] Selected: Download + Transcribe.")]
    /\ stdin w' = tl (stdin w) /\ which w' = which w.
Proof.
  intros download. unfold prompt_mode.
  unfold bind at 1, print at 1. unfold bind at 1, print at 1.
  unfold bind at 1, print at 1. unfold bind at 1.
  rewrite input_stripped_eq. autorewrite with world.
  rewrite <- answer_0. fold download.
  destruct download;
    unfold bind, print, ret; eexists; (split; [reflexivity|]);
    autorewrite with world; rewrite <- ?app_assoc; repeat split; reflexivity.
Qed.

Lemma model_rule (language : str) :
  (negb (eqb language (lit "en")) || eqb language (lit "auto"))
  && endswith (lit ".en") default_model
  = negb (eqb language (lit "en")).
Proof.
  replace (endswith (lit ".en") default_model) with true by reflexivity.
  rewrite andb_true_r.
  destruct (eqb language (lit "en")) eqn:E; [|reflexivity].
  apply eqb_eq in E. subst language. reflexivity.
Qed.

(** What the collector returns and writes, in terms of the four answers. *)
Lemma prompt_all_inputs_eq (w : World) :
  let url := answer 1 w in
  let language := lower (or_else (answer 2 w) default_language) in
  let device := lower (or_else (answer 3 w) default_device) in
  let known := existsb (eqb device) [lit "cuda"; lit "cpu"] in
  let english := eqb language (lit "en") in
  exists w',
    prompt_all_inputs w
    = (if truthy url then
         Ok (abspath w (expanduser w (or_else (answer 0 w) default_dir)),
             url, language,
             (if known then device else default_device),
             (if english then lit "medium.en" else lit "medium"))
       else Raise (SystemExit 1), w')
    /\ trace w'
       = trace w ++ [Prompted dir_prompt; Prompted url_prompt]
         ++ (if truthy url then
               [Prompted language_prompt; Prompted device_prompt]
               ++ (if known then [] else [Printed (unrecognized_device_msg device)])
               ++ (if english then []
                   else [Printed (switching_model_msg language (lit "medium"))])
             else [Printed no_url_msg])
    /\ stdin w' = (if truthy url then skipn 4 (stdin w) else skipn 2 (stdin w))
    /\ which w' = which w.
Proof.
  intros url language device known english.
  unfold prompt_all_inputs, bind.
  rewrite input_stripped_eq. cbv beta iota.
  rewrite input_stripped_eq. cbv beta iota. autorewrite with world.
  replace (strip (hd [] (tl (stdin w)))) with url
    by (unfold url, answer; now rewrite hd_nth, nth_tl).
  destruct (truthy url) eqn:Hurl; cbn [negb].
  - unfold ret at 1. cbv beta iota.
    rewrite input_stripped_eq. cbv beta iota. autorewrite with world.
    rewrite input_stripped_eq. cbv beta iota. autorewrite with world.
    replace (strip (hd [] (tl (tl (stdin w))))) with (answer 2 w)
      by (unfold answer; now rewrite hd_nth, !nth_tl).
    replace (strip (hd [] (tl (tl (tl (stdin w)))))) with (answer 3 w)
      by (unfold answer; now rewrite hd_nth, !nth_tl).
    fold language device known. rewrite model_rule. fold english.
    replace (replace (lit ".en") [] default_model) with (lit "medium") by reflexivity.
    replace (strip (hd [] (stdin w))) with (answer 0 w) by apply answer_0.
    replace (skipn 4 (stdin w)) with (tl (tl (tl (tl (stdin w)))))
      by (now destruct (stdin w) as [|? [|? [|? [|? ?]]]]).
    destruct known, english; cbn [negb]; unfold print, ret; cbv beta iota;
      eexists; (split; [reflexivity|]); autorewrite with world;
      rewrite <- ?app_assoc; repeat split; reflexivity.
  - unfold print, sys_exit, raise. cbv beta iota.
    eexists; (split; [reflexivity|]); autorewrite with world;
      rewrite <- ?app_assoc; repeat split; try reflexivity.
    now destruct (stdin w) as [|? [|? ?]].
Qed.

Lemma ensure_cmd_on_path_found (cmd hint : str) (w : World) :
  which w cmd = true -> ensure_cmd_on_path cmd hint w = (Ok tt, w).
Proof.
  intros H. unfold ensure_cmd_on_path, bind, shutil_which. now rewrite H.
Qed.

Lemma answer_tl (n : nat) (w w' : World) :
  stdin w' = tl (stdin w) -> answer n w' = answer (S n) w.
Proof. intros H. unfold answer. now rewrite H, nth_tl. Qed.

(** *** The device probe *)

Lemma resolve_device_cuda_eq (w : World) :
  exists w',
    resolve_device (lit "cuda") w
    = (Ok (match torch_cuda w with
           | Some true => lit "cuda"
           | Some false => lit "cpu"
           | None => if which w (lit "nvidia-smi") then lit "cuda" else lit "cpu"
           end), w').
Proof.
  unfold resolve_device.
  replace (eqb (lit "cuda") (lit "cuda")) with true by reflexivity.
  unfold try_except, bind, torch_cuda_is_available, shutil_which, print, ret.
  destruct (torch_cuda w) as [[|]|]; cbn [negb is_Exception];
    try (eexists; reflexivity).
  autorewrite with world.
  destruct (which w (lit "nvidia-smi")); cbn [negb]; eexists; reflexivity.
Qed.

(** *** C10 *)

(** C10. Whatever is answered to the mode prompt, prompt_mode returns: it
    selects Download Only ("download") exactly when the stripped answer is
    the string "1", and Download + Transcribe ("transcribe") for every other
    answer, the empty one and end of file included. *)
Theorem prompt_mode_download_only_on_1 (w : World) :
  (fst (prompt_mode w) = Ok (lit "download") <-> answer 0 w = lit "1")
  /\ (fst (prompt_mode w) = Ok (lit "transcribe") <-> answer 0 w <> lit "1")
  /\ (stdin w = [] -> fst (prompt_mode w) = Ok (lit "transcribe")).
Proof.
  destruct (prompt_mode_eq w) as (w' & E & _). rewrite E. cbn [fst].
  assert (Hd : lit "download" <> lit "transcribe") by discriminate.
  assert (Heof : stdin w = [] -> answer 0 w <> lit "1").
  { intros H. unfold answer. rewrite H. discriminate. }
  destruct (eqb (answer 0 w) (lit "1")) eqn:H1.
  - apply eqb_eq in H1. split; [|split].
    + tauto.
    + split; [congruence|tauto].
    + tauto.
  - apply eqb_neq in H1. split; [|split].
    + split; [congruence|tauto].
    + tauto.
    + tauto.
Qed.

Lemma prompt_mode_download_only_on_1_witness :
  fst (prompt_mode (session [] [] None all_succeed)) = Ok (lit "transcribe")
  /\ fst (prompt_mode (session [lit "2"] [] None all_succeed)) = Ok (lit "transcribe")
  /\ fst (prompt_mode (session [lit " 1 "] [] None all_succeed)) = Ok (lit "download").
Proof.
  split; [|split].
  - apply (proj2 (proj2 (prompt_mode_download_only_on_1
                           (session [] [] None all_succeed)))).
    reflexivity.
  - apply (proj1 (proj2 (prompt_mode_download_only_on_1
                           (session [lit "2"] [] None all_succeed)))).
    vm_compute. discriminate.
  - apply (proj1 (prompt_mode_download_only_on_1
                    (session [lit " 1 "] [] None all_succeed))).
    reflexivity.
Defined.

(** *** C4 *)

(** C4. In every session that gives a URL, the collector returns the
    language, which is the stripped answer, "en" when that is empty, as
    str.lower gives it, and the model it returns is "medium" exactly when the
    language is not "en"; for "en" it is "medium.en", and for "auto" it is
    "medium".  An empty answer gives "en" and "medium.en". *)
Theorem model_follows_language (w : World) :
  answer 1 w <> [] ->
  let language := lower (or_else (answer 2 w) (lit "en")) in
  exists outdir url device model w',
    prompt_all_inputs w = (Ok (outdir, url, language, device, model), w')
    /\ (model = lit "medium" <-> language <> lit "en")
    /\ (language = lit "en" -> model = lit "medium.en")
    /\ (language = lit "auto" -> model = lit "medium")
    /\ (answer 2 w = [] -> language = lit "en" /\ model = lit "medium.en").
Proof.
  intros Hurl language.
  destruct (prompt_all_inputs_eq w) as (w' & E & _).
  assert (Ht : truthy (answer 1 w) = true)
    by (destruct (answer 1 w); [contradiction|reflexivity]).
  rewrite Ht in E. change default_language with (lit "en") in E.
  fold language in E.
  do 5 eexists. split; [exact E|].
  destruct (eqb language (lit "en")) eqn:Hen.
  - apply eqb_eq in Hen. split; [|split; [|split]].
    + split; [discriminate|tauto].
    + reflexivity.
    + intros H. rewrite Hen in H. discriminate H.
    + now split.
  - apply eqb_neq in Hen. split; [|split; [|split]].
    + tauto.
    + tauto.
    + reflexivity.
    + intros H. exfalso. apply Hen. unfold language. now rewrite H.
Qed.

(** The answer in Greek capitals, U+0395 U+039B, is lowercased to U+03B5
    U+03BB and the model is "medium". *)
Lemma model_follows_language_witness :
  exists outdir url device w',
    prompt_all_inputs
      (session [lit ""; lit "https://h/v"; [917; 923]%N; lit ""] [] None
         all_succeed)
    = (Ok (outdir, url, [949; 955]%N, device, lit "medium"), w').
Proof.
  destruct (model_follows_language
              (session [lit ""; lit "https://h/v"; [917; 923]%N; lit ""] []
                 None all_succeed))
    as (outdir & url & device & model & w' & E & [_ M] & _).
  - vm_compute. discriminate.
  - rewrite M in E by (vm_compute; discriminate).
    now exists outdir, url, device, w'.
Defined.

(** *** C8 *)

Lemma or_else_given (a b : str) : a <> [] -> or_else a b = a.
Proof. intros H. unfold or_else. now destruct a. Qed.

(** C8. In every session that gives a URL: when the stripped answer to the
    device prompt is not empty and its lowercased value is neither "cuda"
    nor "cpu", the collector prints "[!] Unrecognized device: '<value>'.
    Using default: cuda." and returns normally with the device "cuda"; when
    the answer is empty, it returns the device "cuda" as well, and prints no
    such warning. *)
Theorem unrecognized_device_uses_default (w : World) :
  answer 1 w <> [] ->
  (answer 3 w <> [] ->
   let device := lower (answer 3 w) in
   device <> lit "cuda" -> device <> lit "cpu" ->
   exists outdir url language model w',
     prompt_all_inputs w = (Ok (outdir, url, language, lit "cuda", model), w')
     /\ In (Printed (lit "[!] Unrecognized device: '" ++ device
                      ++ lit "'. Using default: cuda."))
          (trace w'))
  /\ (answer 3 w = [] ->
      exists outdir url language model w' evs,
        prompt_all_inputs w = (Ok (outdir, url, language, lit "cuda", model), w')
        /\ trace w' = trace w ++ evs
        /\ forall d,
             ~ In (Printed (lit "[!] Unrecognized device: '" ++ d
                            ++ lit "'. Using default: cuda."))
                  evs).
Proof.
  intros Hurl.
  destruct (prompt_all_inputs_eq w) as (w' & E & T & _).
  assert (Ht : truthy (answer 1 w) = true)
    by (destruct (answer 1 w); [contradiction|reflexivity]).
  rewrite Ht in E, T. split.
  - intros Hdev device Hcuda Hcpu.
    rewrite (or_else_given (answer 3 w) default_device Hdev) in E, T.
    fold device in E, T.
    assert (Hk : existsb (eqb device) [lit "cuda"; lit "cpu"] = false).
    { cbn [existsb]. apply eqb_neq in Hcuda, Hcpu. now rewrite Hcuda, Hcpu. }
    rewrite Hk in E, T.
    do 5 eexists. split; [exact E|].
    rewrite T, !in_app_iff. right. right. right. left. now left.
  - intros Hdev. rewrite Hdev in E, T.
    replace (existsb (eqb (lower (or_else [] default_device)))
               [lit "cuda"; lit "cpu"]) with true in E, T by reflexivity.
    do 6 eexists. split; [exact E|]. split; [exact T|].
    intros d Hin. rewrite !in_app_iff in Hin.
    destruct Hin as [Hin|[Hin|[Hin|Hin]]].
    + destruct Hin as [H|[H|[]]]; discriminate H.
    + destruct Hin as [H|[H|[]]]; discriminate H.
    + destruct Hin.
    + destruct (eqb _ (lit "en")); [destruct Hin|].
      destruct Hin as [H|[]]. revert H.
      match goal with
      | |- context [switching_model_msg ?l _] => generalize l
      end.
      intros l H. vm_compute in H. discriminate H.
Qed.

(** The answer "ТПУ" in Cyrillic capitals, U+0422 U+041F U+0423, is named in
    the warning in small letters, U+0442 U+043F U+0443. *)
Lemma unrecognized_device_uses_default_witness :
  exists outdir url language model w',
    prompt_all_inputs
      (session [lit ""; lit "https://h/v"; lit ""; [1058; 1055; 1059]%N] []
         None all_succeed)
    = (Ok (outdir, url, language, lit "cuda", model), w')
    /\ In (Printed (lit "[!] Unrecognized device: '" ++ [1090; 1087; 1091]%N
                     ++ lit "'. Using default: cuda."))
         (trace w').
Proof.
  apply (proj1 (unrecognized_device_uses_default
                  (session [lit ""; lit "https://h/v"; lit "";
                            [1058; 1055; 1059]%N] [] None all_succeed)
                  ltac:(vm_compute; discriminate)));
    vm_compute; discriminate.
Defined.

(** *** C9 *)



(** *** C3 *)

(** C3, as stated, fails: with the library answering that CUDA is not
    available and the nvidia-smi executable present, the claim has
    resolve_device fall back to the executable check and return "cuda"; the
    code returns "cpu". *)
Lemma resolve_device_skips_nvidia_smi :
  torch_cuda torch_without_cuda = Some false
  /\ which torch_without_cuda (lit "nvidia-smi") = true
  /\ fst (resolve_device (lit "cuda") torch_without_cuda) = Ok (lit "cpu")
  /\ fst (resolve_device (lit "cuda") torch_without_cuda) <> Ok (lit "cuda").
Proof. repeat split; try reflexivity. discriminate. Qed.

(** C3, amended. With "cuda" requested, resolve_device returns "cuda" when
    the library call reports CUDA available and "cpu" when it reports it
    unavailable, without looking for nvidia-smi; only when the library call
    raises does it look for the nvidia-smi executable, returning "cuda" when
    it is found and "cpu" when it is not. *)
Theorem resolve_device_cuda (w : World) :
  (torch_cuda w = Some true -> fst (resolve_device (lit "cuda") w) = Ok (lit "cuda"))
  /\ (torch_cuda w = Some false -> fst (resolve_device (lit "cuda") w) = Ok (lit "cpu"))
  /\ (torch_cuda w = None -> which w (lit "nvidia-smi") = true ->
      fst (resolve_device (lit "cuda") w) = Ok (lit "cuda"))
  /\ (torch_cuda w = None -> which w (lit "nvidia-smi") = false ->
      fst (resolve_device (lit "cuda") w) = Ok (lit "cpu")).
Proof.
  destruct (resolve_device_cuda_eq w) as (w' & E). rewrite E. cbn [fst].
  repeat split.
  - now intros ->.
  - now intros ->.
  - now intros -> ->.
  - now intros -> ->.
Qed.

Lemma resolve_device_cuda_witness :
  fst (resolve_device (lit "cuda")
         (session [] [] None all_succeed)) = Ok (lit "cuda")
  /\ fst (resolve_device (lit "cuda")
            (session [] [lit "nvidia-smi"] None all_succeed)) = Ok (lit "cpu").
Proof.
  split.
  - apply (proj1 (proj2 (proj2 (resolve_device_cuda
                                  (session [] [] None all_succeed)))));
      reflexivity.
  - apply (proj2 (proj2 (proj2 (resolve_device_cuda
                                  (session [] [lit "nvidia-smi"] None all_succeed)))));
      reflexivity.
Defined.

(** *** The two child processes *)

Lemma subprocess_run_eq (argv : list str) (w : World) :
  let rc := fst (child w argv (fs w)) in
  let w' := set_fs (snd (child w argv (fs w))) (emit (Spawned argv rc) w) in
  subprocess_run argv w
  = (if rc =? 0 then Ok tt else Raise (CalledProcessError rc), w').
Proof.
  unfold subprocess_run. destruct (child w argv (fs w)) as [rc f]. cbn [fst snd].
  now destruct (rc =? 0).
Qed.

Lemma spawns_subprocess_run (argv : list str) (w : World) :
  spawns (trace (snd (subprocess_run argv w)))
  = spawns (trace w) ++ [(argv, fst (child w argv (fs w)))].
Proof.
  rewrite subprocess_run_eq. cbn [snd]. autorewrite with world.
  now rewrite spawns_app.
Qed.

(** run_ffmpeg starts no child when the directory cannot be made, and
    otherwise exactly one, whose return code decides how it ends. *)
Lemma run_ffmpeg_cases (u p : str) (w : World) :
  let out := run_ffmpeg u p w in
  (spawns (trace (snd out)) = spawns (trace w)
   /\ exists e, fst out = Raise (raised e))
  \/ exists rc,
       spawns (trace (snd out)) = spawns (trace w) ++ [(ffmpeg_argv u p, rc)]
       /\ ((rc = 0 /\ fst out = Ok tt)
           \/ (rc <> 0 /\ fst out = Raise (CalledProcessError rc))).
Proof.
  intros out. assert (E : out = run_ffmpeg u p w) by reflexivity. clearbody out.
  unfold run_ffmpeg, bind at 1, os_makedirs in E.
  destruct (makedirs w (os_path_dirname p) (fs w)) as [f|].
  2:{ destruct (makedirs_failure w (os_path_dirname p) (fs w)) as [e f].
      subst out. left. split; [reflexivity|]. now exists e. }
  right. unfold bind at 1, print at 1 in E. unfold bind in E.
  set (w1 := emit _ (set_fs f w)) in E.
  pose proof (spawns_subprocess_run (ffmpeg_argv u p) w1) as S.
  rewrite subprocess_run_eq in *. cbn [snd] in S.
  set (rc := fst (child w1 (ffmpeg_argv u p) (fs w1))) in *.
  exists rc.
  assert (Sw1 : spawns (trace w1) = spawns (trace w)).
  { unfold w1. autorewrite with world. rewrite spawns_app. cbn.
    now rewrite app_nil_r. }
  destruct (rc =? 0) eqn:Hrc; subst out.
  - apply Z.eqb_eq in Hrc. cbn [fst snd print]. autorewrite with world.
    rewrite spawns_app. cbn [spawns]. rewrite app_nil_r.
    autorewrite with world in S. rewrite S, Sw1. split; [reflexivity|].
    left. now split.
  - apply Z.eqb_neq in Hrc. cbn [fst snd]. rewrite S, Sw1.
    split; [reflexivity|]. right. now split.
Qed.

(** run_whisper starts the command with the verbose flags and, when that
    fails, once more the command without them. *)
Lemma run_whisper_cases (f o m l d : str) (w : World) :
  let cmd := whisper_cmd f o m l d in
  let out := run_whisper f o m l d w in
  exists rc1,
    (rc1 = 0
     /\ spawns (trace (snd out)) = spawns (trace w) ++ [(cmd ++ verbose_flags, 0)]
     /\ fst out = Ok tt)
    \/ (rc1 <> 0 /\ exists rc2,
          is_returncode rc2 = true
          /\ spawns (trace (snd out))
             = spawns (trace w) ++ [(cmd ++ verbose_flags, rc1); (cmd, rc2)]
          /\ ((rc2 = 0 /\ fst out = Ok tt)
              \/ (rc2 <> 0 /\ fst out = Raise (CalledProcessError rc2)))).
Proof.
  intros cmd out. assert (E : out = run_whisper f o m l d w) by reflexivity.
  clearbody out. unfold run_whisper, bind at 1, print at 1, try_except in E.
  fold cmd in E. fold verbose_flags in E.
  set (w1 := emit _ w) in E.
  assert (Sw1 : spawns (trace w1) = spawns (trace w)).
  { unfold w1. autorewrite with world. rewrite spawns_app. cbn.
    now rewrite app_nil_r. }
  pose proof (spawns_subprocess_run (cmd ++ verbose_flags) w1) as S1.
  rewrite subprocess_run_eq in E, S1. cbn [snd] in S1.
  set (rc1 := fst (child w1 (cmd ++ verbose_flags) (fs w1))) in *.
  set (w2 := set_fs _ (emit (Spawned (cmd ++ verbose_flags) rc1) w1)) in *.
  exists rc1. destruct (rc1 =? 0) eqn:H1.
  - apply Z.eqb_eq in H1. left. subst out. cbn [fst snd].
    rewrite S1, Sw1, H1. now repeat split.
  - apply Z.eqb_neq in H1. right. split; [assumption|].
    unfold bind, print in E.
    set (w3 := emit _ w2) in E.
    assert (Sw3 : spawns (trace w3) = spawns (trace w2)).
    { unfold w3. autorewrite with world. rewrite spawns_app. cbn.
      now rewrite app_nil_r. }
    pose proof (spawns_subprocess_run cmd w3) as S2.
    rewrite subprocess_run_eq in E, S2. cbn [snd] in S2.
    pose proof (child_returncode w3 cmd (fs w3)) as R2.
    set (rc2 := fst (child w3 cmd (fs w3))) in *.
    exists rc2. split; [exact R2|]. subst out. cbn [fst snd].
    rewrite S2, Sw3, S1, Sw1, <- app_assoc. split; [reflexivity|].
    destruct (rc2 =? 0) eqn:H2.
    + apply Z.eqb_eq in H2. now left.
    + apply Z.eqb_neq in H2. now right.
Qed.

Section Shapes.
Variable S : result unit -> list (list str * Z) -> Prop.
Hypothesis S_stopped : forall r, S r [].

Lemma shaped_bind_quiet {A} (m : M A) (k : A -> M unit) :
  quiet m -> (forall a, shaped_from S [] (k a)) -> shaped_from S [] (bind m k).
Proof.
  intros Hm Hk w. unfold bind. specialize (Hm w).
  destruct (m w) as [[a|e] w1]; cbn [snd] in Hm.
  - destruct (Hk a w1) as (new & E & R). exists new. now rewrite E, Hm.
  - exists []. cbn [fst snd]. rewrite Hm, app_nil_r. split; [reflexivity|].
    apply S_stopped.
Qed.

Lemma shaped_bind_run_ffmpeg (u p : str) (k : unit -> M unit) :
  (forall rc, rc <> 0 -> S (Raise (CalledProcessError rc)) [(ffmpeg_argv u p, rc)]) ->
  shaped_from S [(ffmpeg_argv u p, 0)] (k tt) ->
  shaped_from S [] (bind (run_ffmpeg u p) k).
Proof.
  intros Hfail Hk w. unfold bind.
  destruct (run_ffmpeg_cases u p w)
    as [(E & e & R) | (rc & E & [(H0 & R) | (H0 & R)])];
    destruct (run_ffmpeg u p w) as [r w1]; cbn [fst snd] in E, R; subst r.
  - exists []. cbn [fst snd]. rewrite E, app_nil_r. split; [reflexivity|].
    apply S_stopped.
  - subst rc. destruct (Hk w1) as (new & E1 & R1).
    exists ((ffmpeg_argv u p, 0) :: new). rewrite E1, E, <- app_assoc.
    split; [reflexivity|]. exact R1.
  - exists [(ffmpeg_argv u p, rc)]. cbn [fst snd]. split; [exact E|].
    cbn [app]. now apply Hfail.
Qed.

End Shapes.

(** What main does once the download has succeeded. *)
Lemma shaped_after_download {lib : Library}
    (u p mode outdir basename model language device : str) :
  shaped_from run_shape [(ffmpeg_argv u p, 0)]
    (if eqb mode (lit "download") then
       print (lit "[i] Download completed. Exiting as requested (Download Only).") ;;
       sys_exit 0
     else
       try_except
         (run_whisper p outdir model language device)
         (fun e => match e with
                   | CalledProcessError returncode =>
                       Some (print (lit "[x] Error while running whisper: exit code "
                                      ++ of_Z returncode ++ lit ".") ;;
                             sys_exit returncode)
                   | _ => None
                   end) ;;
       _ <- pick_txt_output outdir basename ;;
       ret tt)%py.
Proof.
  intros w.
  match goal with
  | |- exists new, spawns (trace (snd ?o)) = _ /\ _ => remember o as out eqn:E
  end.
  destruct (eqb mode (lit "download")).
  - exists []. unfold bind, print, sys_exit, raise in E. subst out.
    cbn [fst snd]. autorewrite with world. rewrite spawns_app. cbn [spawns app].
    split; [reflexivity|]. constructor.
  - unfold bind at 1, try_except in E.
    pose proof (@quiet_bind _ _ _ (fun _ => ret tt)
                  (quiet_pick_txt_output outdir basename)
                  (fun _ => quiet_ret tt)) as Q.
    destruct (run_whisper_cases p outdir model language device w)
      as (rc1 & [(H1 & S & R) | (H1 & rc2 & R2 & S & [(H2 & R) | (H2 & R)])]);
      destruct (run_whisper p outdir model language device w) as [r w1];
      cbn [fst snd] in S, R; subst r.
    + (* whisper succeeded at once *)
      eexists. subst out.
      split; [rewrite (Q w1), S; reflexivity|]. cbn [app]. constructor.
    + (* whisper succeeded at the second attempt *)
      subst rc2. eexists. subst out.
      split; [rewrite (Q w1), S; reflexivity|]. cbn [app]. now constructor.
    + (* whisper failed twice *)
      unfold bind, print, sys_exit, raise in E. subst out. cbn [fst snd].
      autorewrite with world. rewrite spawns_app. cbn [spawns].
      rewrite app_nil_r. eexists. split; [rewrite S; reflexivity|]. cbn [app].
      now constructor.
Qed.

(** Every run of main takes one of the six shapes. *)
Lemma main_shaped {lib : Library} : shaped_from run_shape [] main.
Proof.
  pose proof stopped_early as Hs. unfold main.
  apply shaped_bind_quiet; [exact Hs|apply quiet_ensure_cmd_on_path|intros _].
  apply shaped_bind_quiet; [exact Hs|apply quiet_ensure_cmd_on_path|intros _].
  apply shaped_bind_quiet; [exact Hs|apply quiet_prompt_mode|intros mode].
  apply shaped_bind_quiet; [exact Hs|apply quiet_prompt_all_inputs|].
  intros [[[[outdir url] language] device_req] model].
  apply shaped_bind_quiet; [exact Hs|apply quiet_make_paths|].
  intros [[url_trimmed basename] mp4_path].
  apply shaped_bind_quiet; [exact Hs|apply quiet_resolve_device|intros device].
  apply shaped_bind_quiet; [exact Hs|destruct (negb _); auto with quiet|intros _].
  apply shaped_bind_run_ffmpeg; [exact Hs|apply download_failed|].
  apply shaped_after_download.
Qed.


Lemma hd_whisper_cmd (f o m l d : str) :
  hd [] (whisper_cmd f o m l d) = lit "whisper".
Proof. unfold whisper_cmd. now destruct (negb _). Qed.

Lemma hd_whisper_verbose (f o m l d : str) :
  hd [] (whisper_cmd f o m l d ++ verbose_flags) = lit "whisper".
Proof. unfold whisper_cmd. now destruct (negb _). Qed.

(** *** C5 *)

(** An exit status from 1 to 255 is kept as it is by the eight bits, and the
    code of a child ended by a signal, which is negative, comes out as 256
    less the number of the signal. *)
Lemma returncode_status (rc : Z) :
  is_returncode rc = true ->
  (0 < rc -> rc mod 256 = rc) /\ (rc < 0 -> rc mod 256 = 256 + rc).
Proof.
  unfold is_returncode. intros H. apply andb_true_iff in H as [H1 H2].
  apply Z.ltb_lt in H1, H2. split; intros H.
  - apply Z.mod_small. lia.
  - symmetry. apply (Z.mod_unique _ _ (-1)); lia.
Qed.

Lemma returncode_nonzero (rc : Z) :
  is_returncode rc = true -> rc <> 0 -> rc mod 256 <> 0.
Proof.
  intros H Hrc. destruct (returncode_status rc H) as [Hpos Hneg].
  unfold is_returncode in H. apply andb_true_iff in H as [H1 H2].
  apply Z.ltb_lt in H1, H2.
  destruct (Z.lt_trichotomy rc 0) as [L|[L|L]]; [|contradiction|];
    [rewrite (Hneg L)|rewrite (Hpos L)]; lia.
Qed.



(** *** C6 *)

Lemma singleton_split {A} (y x : A) (pre post : list A) :
  [y] = pre ++ x :: post -> pre = [] /\ post = [] /\ x = y.
Proof.
  destruct pre as [|z pre]; cbn [app]; intros E.
  - injection E as -> <-. now repeat split.
  - injection E as _ E. now apply app_cons_not_nil in E.
Qed.

(** C6, as the code has it.  In every run of main in which an ffmpeg child
    returned a code other than 0, that child is the only one the run started
    (no transcription is attempted) and main ends in the uncaught
    CalledProcessError: the exit status is 1, whatever the child's code. *)
Theorem download_failure_is_uncaught {lib : Library} (w : World)
    (pre post : list (list str * Z)) (argv : list str) (rc : Z) :
  spawns (trace (snd (main w))) = spawns (trace w) ++ pre ++ (argv, rc) :: post ->
  hd [] argv = lit "ffmpeg" ->
  rc <> 0 ->
  pre = [] /\ post = []
  /\ fst (main w) = Raise (CalledProcessError rc)
  /\ exit_status (fst (main w)) = 1.
Proof.
  intros S Hf Hrc.
  destruct (main_shaped w) as (new & S' & R). cbn [app] in R.
  rewrite S' in S. apply app_inv_head in S. subst new.
  assert (Hin : In (argv, rc) (pre ++ (argv, rc) :: post)) by apply in_elt.
  remember (pre ++ (argv, rc) :: post) as children eqn:E.
  assert (Hw : forall f o m l d, argv <> whisper_cmd f o m l d).
  { intros f o m l d ->. rewrite hd_whisper_cmd in Hf. discriminate Hf. }
  assert (Hv : forall f o m l d, argv <> whisper_cmd f o m l d ++ verbose_flags).
  { intros f o m l d ->. rewrite hd_whisper_verbose in Hf. discriminate Hf. }
  destruct R as [r | u p rc' H | u p | r u p f o m l d
                | r u p f o m l d rc1 H1 | u p f o m l d rc1 rc2 H1 H2 H3];
    cbn [In] in Hin.
  - contradiction.
  - apply singleton_split in E as (-> & -> & E). injection E as _ ->.
    now repeat split.
  - destruct Hin as [Hin|[]]. injection Hin as _ <-. now contradiction Hrc.
  - destruct Hin as [Hin|[Hin|[]]]; injection Hin as Ha Hr.
    + now contradiction Hrc.
    + symmetry in Ha. now apply Hv in Ha.
  - destruct Hin as [Hin|[Hin|[Hin|[]]]]; injection Hin as Ha Hr.
    + now contradiction Hrc.
    + symmetry in Ha. now apply Hv in Ha.
    + symmetry in Ha. now apply Hw in Ha.
  - destruct Hin as [Hin|[Hin|[Hin|[]]]]; injection Hin as Ha Hr.
    + now contradiction Hrc.
    + symmetry in Ha. now apply Hv in Ha.
    + symmetry in Ha. now apply Hw in Ha.
Qed.

(** The run the claim fails on: ffmpeg returns 2, the exit status is 1. *)
Lemma download_failure_is_uncaught_witness :
  fst (main (lib := plain_library) (failing_session (lit "ffmpeg") 2))
  = Raise (CalledProcessError 2)
  /\ exit_status (fst (main (lib := plain_library)
                         (failing_session (lit "ffmpeg") 2))) = 1.
Proof.
  refine (proj2 (proj2 (@download_failure_is_uncaught plain_library
                          (failing_session (lit "ffmpeg") 2) [] []
                          (ffmpeg_argv (lit "https://h/v?a=1")
                             (lit "/home/u/transcripts/video.mp4"))
                          2 _ _ _))).
  - vm_compute. reflexivity.
  - reflexivity.
  - discriminate.
Defined.

(** *** C7: the transcript file *)

Lemma txt_candidates_spec (outdir basename : str) (names : list str) (p : str) :
  In p (txt_candidates outdir basename names)
  <-> exists f, In f names /\ endswith (lit ".txt") f = true
                /\ startswith basename f = true /\ p = os_path_join outdir f.
Proof.
  unfold txt_candidates. rewrite in_map_iff. split.
  - intros (f & <- & Hf). apply filter_In in Hf as [Hin Hb].
    apply andb_true_iff in Hb as [He Hs]. now exists f.
  - intros (f & Hin & He & Hs & ->). exists f. split; [reflexivity|].
    apply filter_In. split; [assumption|]. now rewrite He, Hs.
Qed.

Lemma txt_any_spec (outdir : str) (names : list str) (p : str) :
  In p (txt_any outdir names)
  <-> exists f, In f names /\ endswith (lit ".txt") f = true
                /\ p = os_path_join outdir f.
Proof.
  unfold txt_any. rewrite in_map_iff. split.
  - intros (f & <- & Hf). apply filter_In in Hf as [Hin Hb]. now exists f.
  - intros (f & Hin & He & ->). exists f. split; [reflexivity|].
    now apply filter_In.
Qed.

Lemma txt_candidates_any (outdir basename : str) (names : list str) (p : str) :
  In p (txt_candidates outdir basename names) -> In p (txt_any outdir names).
Proof.
  rewrite txt_candidates_spec, txt_any_spec.
  intros (f & Hin & He & _ & ->). now exists f.
Qed.

Lemma txt_any_nil_candidates (outdir basename : str) (names : list str) :
  txt_any outdir names = [] -> txt_candidates outdir basename names = [].
Proof.
  intros H. destruct (txt_candidates outdir basename names) as [|c l] eqn:E;
    [reflexivity|].
  assert (Hc : In c (txt_any outdir names)).
  { apply (txt_candidates_any outdir basename). rewrite E. now left. }
  rewrite H in Hc. contradiction.
Qed.

(** The keys of files that all have a modification time. *)
Lemma keyed_getmtime (l : list str) (w : World) :
  (forall p, In p l -> getmtime (fs w) p <> None) ->
  exists ks,
    keyed os_path_getmtime l w = (Ok ks, w)
    /\ map fst ks = l
    /\ forall p t, In (p, t) ks -> getmtime (fs w) p = Some t.
Proof.
  induction l as [|x l IH]; intros H.
  - exists []. repeat split. intros p t [].
  - destruct IH as (ks & E & Hm & Hk).
    { intros p Hp. apply H. now right. }
    destruct (getmtime (fs w) x) as [t|] eqn:Hx.
    2:{ exfalso. apply (H x); [now left|assumption]. }
    exists ((x, t) :: ks). cbn [keyed]. unfold bind at 1, os_path_getmtime at 1.
    rewrite Hx. unfold bind. rewrite E. unfold ret. repeat split.
    + cbn. now rewrite Hm.
    + intros p t' [Hp|Hp]; [injection Hp as <- <-; assumption|now apply Hk].
Qed.

(** max keeps an element whose key no other key exceeds. *)
Lemma max_from_spec (l : list (str * Z)) (best : str * Z) :
  exists k, In (max_from best l, k) (best :: l)
            /\ forall p t, In (p, t) (best :: l) -> t <= k.
Proof.
  revert best. induction l as [|[x kx] l IH]; intros [b kb].
  - exists kb. cbn. split; [now left|]. intros p t [E|[]]. injection E as _ <-. lia.
  - cbn [max_from snd]. destruct (kb <? kx) eqn:Hlt.
    + apply Z.ltb_lt in Hlt. destruct (IH (x, kx)) as (k & Hin & Hmax).
      exists k. split.
      * right. exact Hin.
      * intros p t [E|Hp]; [|exact (Hmax p t Hp)].
        injection E as _ <-. specialize (Hmax x kx (or_introl eq_refl)). lia.
    + apply Z.ltb_ge in Hlt. destruct (IH (b, kb)) as (k & Hin & Hmax).
      exists k. split.
      * destruct Hin as [Hin|Hin]; [now left|right; now right].
      * intros p t [E|[E|Hp]].
        -- exact (Hmax p t (or_introl E)).
        -- injection E as _ <-. specialize (Hmax b kb (or_introl eq_refl)). lia.
        -- exact (Hmax p t (or_intror Hp)).
Qed.

(** max over files that all have a modification time returns the newest. *)
Lemma max_by_key_newest (l : list str) (w : World) :
  l <> [] ->
  (forall p, In p l -> getmtime (fs w) p <> None) ->
  exists p, max_by_key os_path_getmtime l w = (Ok p, w) /\ newest (fs w) l p.
Proof.
  intros Hl H. destruct (keyed_getmtime l w H) as (ks & E & Hm & Hk).
  unfold max_by_key, bind. rewrite E.
  destruct ks as [|b ks]; [cbn in Hm; congruence|].
  destruct (max_from_spec ks b) as (k & Hin & Hmax).
  exists (max_from b ks). split; [reflexivity|]. split.
  - rewrite <- Hm. now apply (in_map fst) in Hin.
  - exists k. split; [now apply Hk|].
    intros p' t' Hp' Ht'. rewrite <- Hm in Hp'.
    apply in_map_iff in Hp' as ([q t''] & <- & Hq). cbn [fst] in Ht'.
    rewrite (Hk _ _ Hq) in Ht'. injection Ht' as <-. now apply Hmax in Hq.
Qed.

Lemma startswith_iff (p s : str) :
  startswith p s = true <-> exists post, s = p ++ post.
Proof.
  revert s; induction p as [|x p IH]; intros s; cbn [startswith].
  - split; [intros _; now exists s|reflexivity].
  - destruct s as [|y s].
    + split; [discriminate|]. intros (post & E). discriminate E.
    + rewrite andb_true_iff, N.eqb_eq, IH. split.
      * intros (-> & post & ->). now exists post.
      * intros (post & E). injection E as -> ->. split; [reflexivity|now exists post].
Qed.

Lemma endswith_iff (p s : str) :
  endswith p s = true <-> exists pre, s = pre ++ p.
Proof.
  unfold endswith. rewrite startswith_iff. split.
  - intros (post & E). exists (rev post).
    apply (f_equal (@rev _)) in E. rewrite rev_involutive in E.
    now rewrite E, rev_app_distr, rev_involutive.
  - intros (pre & ->). exists (rev pre). now rewrite rev_app_distr.
Qed.

Lemma named_txt_entry_iff (outdir basename : str) (names : list str) (p : str) :
  In p (txt_candidates outdir basename names)
  <-> named_txt_entry outdir basename names p.
Proof.
  rewrite txt_candidates_spec. unfold named_txt_entry. split.
  - intros (f & Hin & He & Hs & ->).
    apply startswith_iff in Hs as (rest & ->).
    apply endswith_iff in He as (stem & E). now exists rest, stem.
  - intros (rest & stem & Hin & E & ->). exists (basename ++ rest).
    split; [assumption|]. split; [apply endswith_iff; now exists stem|].
    split; [apply startswith_iff; now exists rest|reflexivity].
Qed.

Lemma txt_entry_iff (outdir : str) (names : list str) (p : str) :
  In p (txt_any outdir names) <-> txt_entry outdir names p.
Proof.
  rewrite txt_any_spec. unfold txt_entry. split.
  - intros (f & Hin & He & ->). apply endswith_iff in He as (stem & ->).
    now exists stem.
  - intros (stem & Hin & ->). exists (stem ++ lit ".txt").
    split; [assumption|]. split; [apply endswith_iff; now exists stem|reflexivity].
Qed.

Lemma newest_most_recent (f : FS) (l : list str) (P : str -> Prop) (p : str) :
  (forall x, In x l <-> P x) -> newest f l p -> most_recent f P p.
Proof.
  intros H (Hin & t & Ht & Hmax). split; [now apply H|].
  exists t. split; [assumption|]. intros p' t' Hp'. apply Hmax. now apply H.
Qed.

Lemma nil_iff_none {A} (l : list A) (P : A -> Prop) :
  (forall x, In x l <-> P x) -> (forall x, ~ P x) -> l = [].
Proof.
  intros H Hn. destruct l as [|c l]; [reflexivity|].
  exfalso. apply (Hn c), H. now left.
Qed.

(** C7. When outdir/basename.txt exists, pick_txt_output returns that path.
    Otherwise, in a folder that can be listed: when entries end in ".txt"
    and start with the basename, and these have modification times, it
    returns the most recently modified of them; when there is none, but
    entries end in ".txt", and these have modification times, it returns the
    most recently modified of them; and when no entry ends in ".txt", it
    prints "[x] Couldn't find the .txt output. Check whisper logs." and
    returns None, without raising. *)
Theorem pick_txt_output_order (w : World) (outdir basename : str)
    (names : list str) :
  let txt_path := os_path_join outdir (basename ++ lit ".txt") in
  let named := named_txt_entry outdir basename names in
  let any := txt_entry outdir names in
  let out := pick_txt_output outdir basename w in
  (exists_ (fs w) txt_path = true -> fst out = Ok (Some txt_path))
  /\ (exists_ (fs w) txt_path = false ->
      listdir (fs w) outdir = Some names ->
      ((exists p, named p) ->
       (forall p, named p -> getmtime (fs w) p <> None) ->
       exists p, fst out = Ok (Some p) /\ most_recent (fs w) named p)
      /\ ((forall p, ~ named p) -> (exists p, any p) ->
          (forall p, any p -> getmtime (fs w) p <> None) ->
          exists p, fst out = Ok (Some p) /\ most_recent (fs w) any p)
      /\ ((forall p, ~ any p) ->
          fst out = Ok None
          /\ trace (snd out)
             = trace w
               ++ [Printed (lit "[x] Couldn't find the .txt output. Check whisper logs.")])).
Proof.
  intros txt_path named any out.
  assert (E : out = pick_txt_output outdir basename w) by reflexivity.
  clearbody out. unfold pick_txt_output, bind at 1, os_path_exists in E.
  fold txt_path in E. split.
  - intros Hx. rewrite Hx in E. subst out. reflexivity.
  - intros Hx Hl. rewrite Hx in E.
    unfold bind at 1, os_listdir at 1 in E. rewrite Hl in E.
    unfold bind at 1 in E.
    pose proof (named_txt_entry_iff outdir basename names) as In_named.
    pose proof (txt_entry_iff outdir names) as In_any.
    fold named in In_named. fold any in In_any.
    split; [|split].
    + intros (c & Hc) Hm. apply In_named in Hc.
      destruct (txt_candidates outdir basename names) as [|c' l] eqn:En;
        [contradiction|].
      cbn [nonempty negb] in E. unfold ret at 1 in E. cbn [nonempty] in E.
      destruct (max_by_key_newest (c' :: l) w) as (p & Ep & Hp);
        [discriminate|intros x Hx'; now apply Hm, In_named|].
      unfold bind at 1 in E. rewrite Ep in E.
      exists p. subst out. split; [reflexivity|].
      now apply (newest_most_recent _ (c' :: l)).
    + intros Hnone (c & Hc) Hm. apply In_any in Hc.
      rewrite (nil_iff_none _ _ In_named Hnone) in E. cbn [nonempty negb] in E.
      unfold bind at 1, os_listdir in E. rewrite Hl in E. unfold ret at 1 in E.
      destruct (txt_any outdir names) as [|c' l] eqn:Ea; [contradiction|].
      cbn [nonempty] in E.
      destruct (max_by_key_newest (c' :: l) w) as (p & Ep & Hp);
        [discriminate|intros x Hx'; now apply Hm, In_any|].
      unfold bind at 1 in E. rewrite Ep in E.
      exists p. subst out. split; [reflexivity|].
      now apply (newest_most_recent _ (c' :: l)).
    + intros Hnone.
      pose proof (nil_iff_none _ _ In_any Hnone) as Ha.
      rewrite (txt_any_nil_candidates outdir basename names Ha) in E.
      cbn [nonempty negb] in E.
      unfold bind at 1, os_listdir in E. rewrite Hl in E. unfold ret at 1 in E.
      rewrite Ha in E. cbn [nonempty] in E.
      subst out. split; reflexivity.
Qed.

(** In the sample folder the transcript video.it.txt is returned, the newer
    of the two that are named after the video, although notes.txt is newer
    still. *)
Lemma pick_txt_output_order_witness :
  fst (pick_txt_output (lit "/out") (lit "video") sample_world)
  = Ok (Some (lit "/out/video.it.txt"))
  /\ most_recent sample_fs
       (named_txt_entry (lit "/out") (lit "video")
          [lit "notes.txt"; lit "video.en.txt"; lit "video.mp4";
           lit "video.it.txt"])
       (lit "/out/video.it.txt")
  /\ getmtime sample_fs (lit "/out/video.it.txt") = Some 20
  /\ getmtime sample_fs (lit "/out/notes.txt") = Some 50.
Proof.
  destruct (proj1 (proj2 (pick_txt_output_order sample_world (lit "/out")
                            (lit "video")
                            [lit "notes.txt"; lit "video.en.txt";
                             lit "video.mp4"; lit "video.it.txt"])
                     eq_refl eq_refl)) as (p & E & R).
  - exists (lit "/out/video.it.txt"), (lit ".it.txt"), (lit "video.it").
    split; [|split; reflexivity]. right. right. right. now left.
  - intros p (rest & stem & Hin & _ & ->). vm_compute in Hin.
    destruct Hin as [H|[H|[H|[H|[]]]]]; try discriminate H;
      injection H as <-; vm_compute; discriminate.
  - vm_compute in E. injection E as <-.
    split; [reflexivity|]. split; [exact R|]. split; reflexivity.
Defined.

Example pick_txt_output_sample :
  fst (pick_txt_output (lit "/out") (lit "video") sample_world)
  = Ok (Some (lit "/out/video.it.txt")).
Proof. reflexivity. Qed.

(** *** Searching a string *)

Lemma occurs_cons (sub : str) (c : char) (s : str) :
  occurs sub (c :: s) <-> startswith sub (c :: s) = true \/ occurs sub s.
Proof.
  rewrite startswith_iff. split.
  - intros ([|d pre] & post & E); cbn [app] in E.
    + left. now exists post.
    + right. injection E as _ ->. now exists pre, post.
  - intros [(post & E) | (pre & post & ->)].
    + now exists [], post.
    + now exists (c :: pre), post.
Qed.

Lemma occurs_nil (sub : str) :
  occurs sub [] <-> startswith sub [] = true.
Proof.
  rewrite startswith_iff. split.
  - intros (pre & post & E). symmetry in E.
    apply app_eq_nil in E as [-> E]. now exists post.
  - intros (post & E). now exists [], post.
Qed.

Lemma find_from_range (sub s : str) (i : Z) :
  find_from sub s i = -1 \/ i <= find_from sub s i.
Proof.
  revert i; induction s as [|c s IH]; intros i; cbn [find_from].
  - destruct (startswith sub []); [right; lia|now left].
  - destruct (startswith sub (c :: s)); [right; lia|].
    destruct (IH (i + 1)) as [H|H]; [now left|right; lia].
Qed.

(** find answers -1 exactly when the string has no occurrence. *)
Lemma find_from_none (sub s : str) (i : Z) :
  0 <= i -> (find_from sub s i = -1 <-> ~ occurs sub s).
Proof.
  revert i; induction s as [|c s IH]; intros i Hi; cbn [find_from].
  - rewrite occurs_nil. destruct (startswith sub []).
    + split; [lia|]. intros H. now contradiction H.
    + split; [discriminate|reflexivity].
  - rewrite occurs_cons. destruct (startswith sub (c :: s)).
    + split; [lia|]. intros H. contradiction H. now left.
    + rewrite (IH (i + 1)) by lia. split.
      * intros H [H'|H']; [discriminate|contradiction].
      * intros H H'. apply H. now right.
Qed.

Lemma find_none (sub s : str) : find sub s = -1 <-> ~ occurs sub s.
Proof. apply find_from_none. lia. Qed.

(** *** C2 *)

(** C2. For every URL that urlsplit accepts and whose query string does not
    hold "altmanifest" in any case of letters (an empty query included),
    trim_after_altmanifest returns the URL it was given, unchanged. *)
Theorem trim_without_altmanifest_is_identity {lib : Library}
    (url : str) (parts : SplitResult) (w : World) :
  Urllib.urlsplit url = Some parts ->
  ~ has_altmanifest (query parts) ->
  fst (trim_after_altmanifest url w) = Ok url.
Proof.
  intros Hs Hq. unfold trim_after_altmanifest. rewrite Hs.
  destruct (negb (truthy (query parts))); [reflexivity|].
  apply find_none in Hq. rewrite Hq. reflexivity.
Qed.

Lemma trim_without_altmanifest_is_identity_witness :
  fst (trim_after_altmanifest (lib := plain_library)
         (lit "HTTPS://Teams.example/v/1?a=1&b=2#t=3") sample_world)
  = Ok (lit "HTTPS://Teams.example/v/1?a=1&b=2#t=3")
  /\ fst (trim_after_altmanifest (lib := plain_library)
            (lit "https://teams.example/v/1") sample_world)
     = Ok (lit "https://teams.example/v/1").
Proof.
  split.
  - apply (trim_without_altmanifest_is_identity (lib := plain_library) _
             (mkSplit (lit "https") (lit "Teams.example") (lit "/v/1")
                      (lit "a=1&b=2") (lit "t=3"))).
    + reflexivity.
    + apply find_none. reflexivity.
  - apply (trim_without_altmanifest_is_identity (lib := plain_library) _
             (mkSplit (lit "https") (lit "teams.example") (lit "/v/1") [] [])).
    + reflexivity.
    + apply find_none. reflexivity.
Defined.

(** *** C1 *)

(** C1 fails on [dotted_url].  Lowercasing turns each U+0130 into two code
    points, so the position found in the lowercased query (29) lies beyond
    the parameter in the query itself, and the "&" found before it (at 28)
    is the one after the parameter: the URL returned still carries
    "altManifest=1". *)
Theorem trim_keeps_altmanifest_after_dotted_I {lib : Library} (w : World) :
  Urllib.urlsplit dotted_url
  = Some (mkSplit (lit "https") (lit "h") (lit "/v") dotted_query [])
  /\ find (lit "altmanifest") (lower dotted_query) = 29
  /\ rfind (lit "&") dotted_query 0 29 = 28
  /\ fst (trim_after_altmanifest dotted_url w)
     = Ok (lit "https://h/v?" ++ repeat 304%N 14 ++ lit "&altManifest=1")
  /\ Urllib.urlsplit (lit "https://h/v?" ++ repeat 304%N 14 ++ lit "&altManifest=1")
     = Some (mkSplit (lit "https") (lit "h") (lit "/v")
               (repeat 304%N 14 ++ lit "&altManifest=1") [])
  /\ has_altmanifest (repeat 304%N 14 ++ lit "&altManifest=1").
Proof.
  repeat split; try reflexivity.
  exists (lower (repeat 304%N 14) ++ lit "&"), (lit "=1"). reflexivity.
Qed.

(** *** Where the URL is cut *)

Lemma find_from_some (sub s : str) (i p : Z) :
  find_from sub s i = p -> p <> -1 ->
  exists pre post,
    s = pre ++ sub ++ post /\ p = i + len pre
    /\ forall pre' post', s = pre' ++ sub ++ post' ->
                          (length pre <= length pre')%nat.
Proof.
  revert i; induction s as [|c s IH]; intros i; cbn [find_from].
  - destruct (startswith sub []) eqn:Hs; [|congruence].
    intros <- _. apply startswith_iff in Hs as (post & E).
    exists [], post. cbn [app length len]. repeat split.
    + exact E.
    + unfold len. cbn. lia.
    + intros; lia.
  - destruct (startswith sub (c :: s)) eqn:Hs.
    + intros <- _. apply startswith_iff in Hs as (post & E).
      exists [], post. repeat split.
      * exact E.
      * unfold len. cbn. lia.
      * intros; cbn; lia.
    + intros E Hp. destruct (IH (i + 1) E Hp) as (pre & post & -> & -> & Hmin).
      exists (c :: pre), post. repeat split.
      * unfold len. cbn [length]. lia.
      * intros [|d pre'] post' E'; cbn [app] in E'.
        -- assert (startswith sub (c :: pre ++ sub ++ post) = true)
             by (apply startswith_iff; now exists post').
           congruence.
        -- injection E' as _ E'. specialize (Hmin pre' post' E'). cbn. lia.
Qed.

(** The rightmost occurrence of a single code point. *)
Lemma rfind_from_absent (c : char) (s : str) (i last : Z) :
  ~ In c s -> rfind_from [c] s i last = last.
Proof.
  revert i last; induction s as [|x s IH]; intros i last H; cbn.
  - reflexivity.
  - destruct (N.eqb_spec c x) as [->|Hx]; [contradiction H; now left|].
    cbn. apply IH. intros Hin. apply H. now right.
Qed.

Lemma rfind_from_last (c : char) (a t : str) (i last : Z) :
  ~ In c t -> rfind_from [c] (a ++ c :: t) i last = i + len a.
Proof.
  intros Ht. revert i last; induction a as [|x a IH]; intros i last.
  - cbn [app rfind_from startswith]. rewrite N.eqb_refl. cbn [andb].
    rewrite rfind_from_absent by assumption. unfold len. cbn. lia.
  - cbn [app rfind_from]. rewrite IH. unfold len. cbn [length]. lia.
Qed.

Lemma in_split_last (c : char) (s : str) :
  In c s -> exists a t, s = a ++ c :: t /\ ~ In c t.
Proof.
  induction s as [|x s IH]; [intros []|].
  intros H. destruct (in_dec N.eq_dec c s) as [Hs|Hs].
  - destruct (IH Hs) as (a & t & -> & Ht). now exists (x :: a), t.
  - destruct H as [->|H]; [|contradiction]. now exists [], s.
Qed.

Lemma lstrip_by_spec (p : char -> bool) (s : str) :
  exists r, s = r ++ lstrip_by p s /\ forallb p r = true
            /\ match lstrip_by p s with [] => True | x :: _ => p x = false end.
Proof.
  induction s as [|x s (r & E & Hr & Hx)]; cbn [lstrip_by].
  - now exists [].
  - destruct (p x) eqn:Hp.
    + exists (x :: r). cbn. rewrite Hp, Hr. now rewrite <- E.
    + exists []. now repeat split.
Qed.

(** rstrip drops a run of the stripped code points from the end and leaves
    a string that does not end in one. *)
Lemma rstrip_by_spec (p : char -> bool) (s : str) :
  exists r, s = rstrip_by p s ++ r /\ forallb p r = true
            /\ forall u x, rstrip_by p s = u ++ [x] -> p x = false.
Proof.
  unfold rstrip_by. destruct (lstrip_by_spec p (rev s)) as (r & E & Hr & Hx).
  exists (rev r). repeat split.
  - rewrite <- rev_app_distr, <- E. now rewrite rev_involutive.
  - rewrite forallb_forall in *. intros x Hin. apply Hr. now apply in_rev.
  - intros u x Hu. apply (f_equal (@rev char)) in Hu.
    rewrite rev_involutive, rev_app_distr in Hu. cbn in Hu.
    now rewrite Hu in Hx.
Qed.

Lemma lower_char_plain (c : char) : c <> 304%N -> length (lower_char c) = 1%nat.
Proof.
  intros H. unfold lower_char. destruct (c =? 304)%N eqn:E; [|reflexivity].
  apply N.eqb_eq in E. contradiction.
Qed.

Lemma lower_plain_app (a b : str) :
  lower_plain (a ++ b) = lower_plain a ++ lower_plain b.
Proof. apply flat_map_app. Qed.

Lemma lower_plain_length (s : str) :
  ~ In 304%N s -> length (lower_plain s) = length s.
Proof.
  induction s as [|c s IH]; intros H; [reflexivity|].
  cbn [lower_plain flat_map]. rewrite length_app. fold (lower_plain s).
  rewrite IH, lower_char_plain; [reflexivity| |].
  - intros ->. apply H. now left.
  - intros Hin. apply H. now right.
Qed.

Lemma app_inv_length {A} (a b c d : list A) :
  length a = length c -> a ++ b = c ++ d -> a = c /\ b = d.
Proof.
  revert c; induction a as [|x a IH]; intros [|y c] Hl E; try discriminate Hl.
  - now split.
  - cbn in E. injection E as -> E. injection Hl as Hl.
    destruct (IH c Hl E) as [-> ->]. now split.
Qed.

Lemma lower_plain_split (s pre post : str) :
  ~ In 304%N s -> lower_plain s = pre ++ post ->
  exists s1 s2, s = s1 ++ s2 /\ lower_plain s1 = pre /\ lower_plain s2 = post
                /\ length s1 = length pre.
Proof.
  intros H E.
  assert (Hl : (length pre <= length s)%nat).
  { rewrite <- (lower_plain_length s H), E, length_app. lia. }
  exists (firstn (length pre) s), (skipn (length pre) s).
  assert (Hs : s = firstn (length pre) s ++ skipn (length pre) s)
    by (symmetry; apply firstn_skipn).
  assert (H1 : ~ In 304%N (firstn (length pre) s)).
  { intros Hin. apply H. rewrite Hs. apply in_or_app. now left. }
  assert (Hf : length (firstn (length pre) s) = length pre)
    by (rewrite length_firstn; lia).
  rewrite Hs, lower_plain_app in E at 1.
  apply app_inv_length in E as [E1 E2].
  - now repeat split.
  - now rewrite lower_plain_length.
Qed.

Lemma lower_char_sigma : lower_char 931%N = [963%N].
Proof. vm_compute. reflexivity. Qed.

Lemma same_but_sigma_refl (s : str) : Forall2 same_but_sigma s s.
Proof. induction s; constructor; [now left|assumption]. Qed.

(** str.lower and the lowercasing of each code point differ in the small
    sigmas only. *)
Lemma lower_from_plain (s before : str) :
  Forall2 same_but_sigma (lower_from before s) (lower_plain s).
Proof.
  revert before; induction s as [|c s IH]; intros before;
    cbn [lower_from lower_plain flat_map]; [constructor|].
  fold (lower_plain s). destruct (c =? 931)%N eqn:E.
  - apply N.eqb_eq in E. subst c. rewrite lower_char_sigma. cbn [app].
    constructor; [|apply IH]. right. now destruct (final_sigma before s).
  - apply Forall2_app; [apply same_but_sigma_refl|apply IH].
Qed.

Lemma lower_plain_rel (s : str) : Forall2 same_but_sigma (lower s) (lower_plain s).
Proof. apply lower_from_plain. Qed.

Lemma no_small_sigma_l (p b : str) :
  no_small_sigma p = true -> Forall2 same_but_sigma p b -> b = p.
Proof.
  intros H F. induction F as [|x y p b [R|[R _]] F IH]; [reflexivity| |];
    cbn [no_small_sigma forallb] in H; apply andb_true_iff in H as [Hx Hp].
  - subst y. f_equal. now apply IH.
  - now rewrite R in Hx.
Qed.

Lemma no_small_sigma_r (p a : str) :
  no_small_sigma p = true -> Forall2 same_but_sigma a p -> a = p.
Proof.
  intros H F. induction F as [|x y a p [R|[_ R]] F IH]; [reflexivity| |];
    cbn [no_small_sigma forallb] in H; apply andb_true_iff in H as [Hx Hp].
  - subst y. f_equal. now apply IH.
  - now rewrite R in Hx.
Qed.

(** An occurrence of a string without small sigmas is at the same place
    in both. *)
Lemma occurrence_l (a b x p y : str) :
  no_small_sigma p = true -> Forall2 same_but_sigma a b -> a = x ++ p ++ y ->
  exists x' y', b = x' ++ p ++ y' /\ length x' = length x.
Proof.
  intros Hp F ->.
  apply Forall2_app_inv_l in F as (x' & r & Fx & Fr & ->).
  apply Forall2_app_inv_l in Fr as (p' & y' & Fp & Fy & ->).
  apply (no_small_sigma_l p p' Hp) in Fp. subst p'.
  exists x', y'. split; [reflexivity|]. symmetry. now apply (Forall2_length Fx).
Qed.

Lemma occurrence_r (a b x p y : str) :
  no_small_sigma p = true -> Forall2 same_but_sigma a b -> b = x ++ p ++ y ->
  exists x' y', a = x' ++ p ++ y' /\ length x' = length x.
Proof.
  intros Hp F ->.
  apply Forall2_app_inv_r in F as (x' & r & Fx & Fr & ->).
  apply Forall2_app_inv_r in Fr as (p' & y' & Fp & Fy & ->).
  apply (no_small_sigma_r p p' Hp) in Fp. subst p'.
  exists x', y'. split; [reflexivity|]. now apply (Forall2_length Fx).
Qed.

(** Without U+0130 lowercasing keeps every code point at its position. *)
Lemma lower_length (s : str) : ~ In 304%N s -> length (lower s) = length s.
Proof.
  intros H. rewrite (Forall2_length (lower_plain_rel s)).
  now apply lower_plain_length.
Qed.

Lemma lower_of_plain (m p : str) :
  no_small_sigma p = true -> lower_plain m = p -> lower m = p.
Proof.
  intros Hp E. apply (no_small_sigma_r p _ Hp). rewrite <- E.
  apply lower_plain_rel.
Qed.

(** Where a string without small sigmas occurs in a lowercased string, the
    string itself holds code points that are lowercased to it. *)
Lemma lower_occurrence (q pre p post : str) :
  ~ In 304%N q -> no_small_sigma p = true -> lower q = pre ++ p ++ post ->
  exists q1 r m t2,
    q = q1 ++ r /\ r = m ++ t2 /\ length q1 = length pre /\ lower m = p.
Proof.
  intros H Hp E.
  destruct (occurrence_l _ _ pre p post Hp (lower_plain_rel q) E)
    as (pre' & post' & E' & Hl).
  destruct (lower_plain_split q pre' _ H E') as (q1 & r & Eq & _ & Hr & Hlen).
  assert (Hr304 : ~ In 304%N r).
  { intros Hin. apply H. rewrite Eq. apply in_or_app. now right. }
  destruct (lower_plain_split r p post' Hr304 Hr) as (m & t2 & Er & Hm & _ & _).
  exists q1, r, m, t2. repeat split; [assumption|assumption|congruence|].
  now apply lower_of_plain.
Qed.

(** What occurs in the lowercased start of a string occurs at the same place
    in the lowercased string. *)
Lemma lower_occurrence_prefix (kept rest x p y : str) :
  no_small_sigma p = true -> lower kept = x ++ p ++ y ->
  exists x' y', lower (kept ++ rest) = x' ++ p ++ y' /\ length x' = length x.
Proof.
  intros Hp E.
  destruct (occurrence_l _ _ x p y Hp (lower_plain_rel kept) E)
    as (x1 & y1 & E1 & L1).
  assert (E2 : lower_plain (kept ++ rest) = x1 ++ p ++ (y1 ++ lower_plain rest)).
  { rewrite lower_plain_app, E1. now rewrite <- !app_assoc. }
  destruct (occurrence_r _ _ x1 p _ Hp (lower_plain_rel (kept ++ rest)) E2)
    as (x2 & y2 & E3 & L2).
  exists x2, y2. split; [assumption|congruence].
Qed.

Lemma lower_no_sigma (s before : str) :
  ~ In 931%N s -> lower_from before s = lower_plain s.
Proof.
  revert before; induction s as [|c s IH]; intros before H; [reflexivity|].
  cbn [lower_from lower_plain flat_map]. fold (lower_plain s).
  destruct (c =? 931)%N eqn:E.
  - apply N.eqb_eq in E. exfalso. apply H. now left.
  - f_equal. apply IH. intros Hin. apply H. now right.
Qed.

Lemma clamp_in_range (n i : Z) : 0 <= i <= n -> clamp n i = i.
Proof.
  intros H. unfold clamp.
  replace (i <? 0) with false by (symmetry; apply Z.ltb_ge; lia).
  apply Z.min_l. lia.
Qed.

Lemma len_app (a b : str) : len (a ++ b) = len a + len b.
Proof. unfold len. rewrite length_app. lia. Qed.

Lemma len_nonneg (a : str) : 0 <= len a.
Proof. unfold len. lia. Qed.

Lemma firstn_len_app (a rest : str) : firstn (Z.to_nat (len a)) (a ++ rest) = a.
Proof.
  unfold len. rewrite Nat2Z.id, firstn_app, firstn_all, Nat.sub_diag.
  cbn [firstn]. now rewrite app_nil_r.
Qed.

Lemma rfind_prefix (sub q1 rest : str) :
  rfind sub (q1 ++ rest) 0 (len q1) = rfind_from sub q1 0 (-1).
Proof.
  pose proof (len_nonneg q1). pose proof (len_nonneg rest).
  unfold rfind, slice. rewrite !clamp_in_range by (rewrite len_app; lia).
  replace (len q1 <? 0) with false by (symmetry; apply Z.ltb_ge; lia).
  replace (len (q1 ++ rest) <? 0) with false
    by (symmetry; apply Z.ltb_ge; rewrite len_app; lia).
  cbn [orb]. rewrite Z.sub_0_r. cbn [Z.to_nat skipn].
  now rewrite firstn_len_app.
Qed.

Lemma slice_to_prefix (a rest : str) : slice_to (a ++ rest) (len a) = a.
Proof.
  pose proof (len_nonneg a). pose proof (len_nonneg rest).
  unfold slice_to. rewrite clamp_in_range by (rewrite len_app; lia).
  apply firstn_len_app.
Qed.

Lemma not_in_app_l {A} (x : A) (a b : list A) : ~ In x (a ++ b) -> ~ In x a.
Proof. intros H Hin. apply H, in_or_app. now left. Qed.

Lemma not_in_app_r {A} (x : A) (a b : list A) : ~ In x (a ++ b) -> ~ In x b.
Proof. intros H Hin. apply H, in_or_app. now right. Qed.

Lemma trim_cut {lib : Library}
    (url : str) (parts : SplitResult) (w : World) :
  Urllib.urlsplit url = Some parts ->
  has_altmanifest (query parts) ->
  ~ In 304%N (query parts) ->
  exists kept,
    fst (trim_after_altmanifest url w)
    = Ok (Urllib.urlunsplit
            (mkSplit (scheme parts) (netloc parts) (path parts) kept
                     (fragment parts)))
    /\ cut_before_altmanifest (query parts) kept
    /\ ~ has_altmanifest kept.
Proof.
  intros Hs Hq H304. set (q := query parts) in *.
  (* the first occurrence in the lowercased query, and where it lies in q *)
  destruct (Z.eq_dec (find (lit "altmanifest") (lower q)) (-1)) as [Hf|Hf];
    [apply find_none in Hf; contradiction|].
  destruct (find_from_some (lit "altmanifest") (lower q) 0 _ eq_refl Hf)
    as (pre & post & El & Hpos & Hmin).
  destruct (lower_occurrence q pre (lit "altmanifest") post H304 eq_refl El)
    as (q1 & r & m & t2 & Eq & Er & Hlen & Hm).
  assert (Hpos' : find (lit "altmanifest") (lower q) = len q1).
  { unfold find. rewrite Hpos. unfold len. rewrite Hlen. lia. }
  assert (Hkept : forall kept rest,
             q1 = kept ++ rest -> ~ has_altmanifest kept).
  { intros kept rest E (x & y & Ek).
    assert (Hk304 : ~ In 304%N kept).
    { rewrite Eq, E in H304. now apply not_in_app_l, not_in_app_l in H304. }
    pose proof (lower_length kept Hk304) as Lk. rewrite Ek, !length_app in Lk.
    destruct (lower_occurrence_prefix kept (rest ++ r) x (lit "altmanifest") y
                eq_refl Ek)
      as (x' & y' & E' & Lx).
    assert (Hx : (length pre <= length x')%nat).
    { apply (Hmin x' y'). rewrite Eq, E, <- app_assoc. exact E'. }
    rewrite <- Hlen, E, length_app in Hx. cbn in Lk. lia. }
  (* the run of the function *)
  unfold trim_after_altmanifest. rewrite Hs. fold q.
  assert (Hm0 : m <> []) by (intros ->; discriminate Hm).
  assert (Ht : truthy q = true).
  { rewrite Eq, Er. destruct q1; [destruct m; [congruence|reflexivity]|reflexivity]. }
  rewrite Ht. cbn [negb]. rewrite Hpos'.
  replace (len q1 =? -1) with false by (symmetry; apply Z.eqb_neq; unfold len; lia).
  assert (Hrf : rfind (lit "&") q 0 (len q1) = rfind_from [38%N] q1 0 (-1))
    by (rewrite Eq; apply rfind_prefix).
  rewrite Hrf. clear Hrf.
  destruct (in_dec N.eq_dec 38%N q1) as [Hamp|Hamp].
  - destruct (in_split_last 38%N q1 Hamp) as (a & t1 & Ea & Ht1).
    assert (Hrf : rfind_from [38%N] q1 0 (-1) = len a)
      by (rewrite Ea, rfind_from_last by assumption; lia).
    rewrite Hrf.
    replace (len a =? -1) with false by (symmetry; apply Z.eqb_neq; unfold len; lia).
    assert (Eqa : q = a ++ (38%N :: t1) ++ r) by (rewrite Eq, Ea; now rewrite <- app_assoc).
    assert (Hsl : slice_to q (len a) = a) by (rewrite Eqa; apply slice_to_prefix).
    rewrite Hsl.
    destruct (rstrip_by_spec (fun c => mem c [38%N]) a) as (s & Es & Hall & Hend).
    fold (rstrip_chars [38%N] a) in Es, Hend.
    change (lit "&") with [38%N].
    set (kept := rstrip_chars [38%N] a) in *.
    exists kept. split; [reflexivity|]. split.
    + exists (s ++ [38%N]), t1, m, t2. repeat split.
      * rewrite Eqa, Er. rewrite Es at 1. now rewrite <- !app_assoc.
      * apply Forall_app. split; [|now constructor].
        apply Forall_forall. intros x Hx.
        rewrite forallb_forall in Hall. specialize (Hall x Hx).
        cbn in Hall. rewrite orb_false_r in Hall. apply N.eqb_eq in Hall. congruence.
      * intros E. now apply app_eq_nil in E as [_ E].
      * intros u x Eu Hx. specialize (Hend u x Eu). subst x. discriminate Hend.
      * exact Ht1.
      * exact Hm.
    + apply (Hkept kept (s ++ 38%N :: t1)). rewrite Ea. rewrite Es at 1.
      now rewrite <- app_assoc.
  - rewrite rfind_from_absent by assumption.
    cbn [Z.eqb]. exists []. split; [reflexivity|]. split.
    + exists [], q1, m, t2. repeat split.
      * cbn [app]. now rewrite Eq, Er.
      * constructor.
      * intros u x E. now destruct u.
      * exact Hamp.
      * exact Hm.
    + apply (Hkept [] q1). reflexivity.
Qed.

(** For a query without U+0130, the function cuts the query before the
    first parameter that holds the name and puts the URL together again
    from the other four components as they were. *)
Theorem trim_cuts_before_altmanifest {lib : Library}
    (url : str) (parts : SplitResult) (w : World) :
  Urllib.urlsplit url = Some parts ->
  has_altmanifest (query parts) ->
  ~ In 304%N (query parts) ->
  exists kept,
    fst (trim_after_altmanifest url w)
    = Ok (Urllib.urlunsplit
            (mkSplit (scheme parts) (netloc parts) (path parts) kept
                     (fragment parts)))
    /\ cut_before_altmanifest (query parts) kept
    /\ ~ has_altmanifest kept.
Proof. exact (trim_cut url parts w). Qed.

Lemma not_in_by_test (c : char) (s : str) :
  forallb (fun x => negb (N.eqb x c)) s = true -> ~ In c s.
Proof.
  intros H Hin. rewrite forallb_forall in H. specialize (H c Hin).
  now rewrite N.eqb_refl in H.
Qed.

Lemma trim_cuts_before_altmanifest_witness :
  exists kept,
    fst (trim_after_altmanifest (lib := plain_library)
           (lit "https://h/v?a=1&b=2&&altManifest=3&c=4#t") sample_world)
    = Ok (Urllib.urlunsplit
            (mkSplit (lit "https") (lit "h") (lit "/v") kept (lit "t")))
    /\ cut_before_altmanifest (lit "a=1&b=2&&altManifest=3&c=4") kept
    /\ ~ has_altmanifest kept.
Proof.
  apply (trim_cuts_before_altmanifest (lib := plain_library)
           (lit "https://h/v?a=1&b=2&&altManifest=3&c=4#t")
           (mkSplit (lit "https") (lit "h") (lit "/v")
                    (lit "a=1&b=2&&altManifest=3&c=4") (lit "t"))
           sample_world).
  - reflexivity.
  - exists (lit "a=1&b=2&&"), (lit "=3&c=4"). reflexivity.
  - apply not_in_by_test. reflexivity.
Defined.

Example trim_sample :
  fst (trim_after_altmanifest (lib := plain_library)
         (lit "https://h/v?a=1&b=2&&altManifest=3&c=4#t") sample_world)
  = Ok (lit "https://h/v?a=1&b=2#t").
Proof. reflexivity. Qed.

(** *** The prerequisites and the Download Only mode *)

Lemma bind_eq {A B} (m : M A) (k : A -> M B) (w : World) :
  bind m k w
  = match m w with
    | (Ok a, w') => k a w'
    | (Raise e, w') => (Raise e, w')
    end.
Proof. reflexivity. Qed.

Lemma ensure_cmd_on_path_missing (cmd hint : str) (w : World) :
  which w cmd = false ->
  ensure_cmd_on_path cmd hint w
  = (Raise (SystemExit 1), emit (Printed (command_missing_msg cmd hint)) w).
Proof.
  intros H. unfold ensure_cmd_on_path, bind, shutil_which. now rewrite H.
Qed.

(** When ffmpeg or whisper is not on the path, the run ends with exit status
    1 after one line that names the missing command, ffmpeg when both are
    missing, and says how to install it: nothing was read from standard
    input and no child process was started. *)
Theorem missing_command_exits_1 {lib : Library} (w : World) :
  which w (lit "ffmpeg") = false \/ which w (lit "whisper") = false ->
  exists w',
    main w = (Raise (SystemExit 1), w')
    /\ exit_status (fst (main w)) = 1
    /\ trace w'
       = trace w
         ++ [Printed
               (if which w (lit "ffmpeg")
                then lit "[x] Command 'whisper' not found in PATH. Install openai-whisper with: pip install -U openai-whisper"
                else lit "[x] Command 'ffmpeg' not found in PATH. Install ffmpeg and ensure it's in PATH.")]
    /\ stdin w' = stdin w.
Proof.
  intros H. unfold main. rewrite bind_eq.
  destruct (which w (lit "ffmpeg")) eqn:Hf.
  - destruct H as [H|H]; [discriminate H|].
    rewrite (ensure_cmd_on_path_found _ _ w Hf), bind_eq.
    rewrite (ensure_cmd_on_path_missing _ _ w H).
    eexists. repeat split.
  - rewrite (ensure_cmd_on_path_missing _ _ w Hf).
    eexists. repeat split.
Qed.

Lemma missing_command_exits_1_witness :
  exists w',
    main (lib := plain_library)
      (session [lit "2"] [lit "whisper"] None all_succeed)
    = (Raise (SystemExit 1), w')
    /\ exit_status
         (fst (main (lib := plain_library)
                 (session [lit "2"] [lit "whisper"] None all_succeed))) = 1
    /\ trace w'
       = [] ++ [Printed (lit "[x] Command 'whisper' not found in PATH. Install openai-whisper with: pip install -U openai-whisper")]
    /\ stdin w' = [lit "2"].
Proof.
  apply (missing_command_exits_1 (lib := plain_library)
           (session [lit "2"] [lit "whisper"] None all_succeed)).
  right. reflexivity.
Defined.

(** In Download Only mode (the answer "1") a run starts no child process
    but ffmpeg; when ffmpeg returns 0 the run ends with exit status 0, and
    when it returns another code the run ends in the uncaught
    CalledProcessError. *)
Theorem download_only_stops_after_download {lib : Library} (w : World) :
  answer 0 w = lit "1" ->
  exists new,
    spawns (trace (snd (main w))) = spawns (trace w) ++ new
    /\ download_shape (fst (main w)) new.
Proof.
  intros Hmode. pose proof stopped_before_download as Hs.
  unfold main. rewrite bind_eq.
  destruct (which w (lit "ffmpeg")) eqn:Hf.
  2:{ rewrite (ensure_cmd_on_path_missing _ _ w Hf). exists []. cbv beta iota.
      cbn [fst snd]. autorewrite with world. rewrite spawns_app.
      split; [reflexivity|apply Hs]. }
  rewrite (ensure_cmd_on_path_found _ _ w Hf), bind_eq.
  destruct (which w (lit "whisper")) eqn:Hw.
  2:{ rewrite (ensure_cmd_on_path_missing _ _ w Hw). exists []. cbv beta iota.
      cbn [fst snd]. autorewrite with world. rewrite spawns_app.
      split; [reflexivity|apply Hs]. }
  rewrite (ensure_cmd_on_path_found _ _ w Hw), bind_eq.
  pose proof (quiet_prompt_mode w) as Q.
  destruct (prompt_mode_eq w) as (w1 & E & _). rewrite E in Q |- *.
  cbn [snd] in Q. rewrite Hmode, eqb_refl, <- Q. cbv beta iota.
  match goal with
  | |- exists new, spawns (trace (snd (?m w1))) = _ /\ _ =>
      assert (Hm : shaped_from download_shape [] m)
  end.
  { apply shaped_bind_quiet; [exact Hs|apply quiet_prompt_all_inputs|].
    intros [[[[outdir url] language] device_req] model].
    apply shaped_bind_quiet; [exact Hs|apply quiet_make_paths|].
    intros [[url_trimmed basename] mp4_path].
    apply shaped_bind_quiet; [exact Hs|apply quiet_resolve_device|intros device].
    apply shaped_bind_quiet; [exact Hs|destruct (negb _); auto with quiet|intros _].
    apply shaped_bind_run_ffmpeg; [exact Hs|apply only_download_failed|].
    intros w2. exists [].
    unfold bind, print, sys_exit, raise. cbn [fst snd].
    autorewrite with world. rewrite spawns_app. cbn [spawns app].
    split; [reflexivity|]. constructor. }
  exact (Hm w1).
Qed.

Lemma download_only_stops_after_download_witness :
  exists new,
    spawns (trace (snd (main (lib := plain_library)
                          (session [lit "1"; lit ""; lit "https://h/v"] [] None
                                   all_succeed))))
    = spawns [] ++ new
    /\ download_shape
         (fst (main (lib := plain_library)
                 (session [lit "1"; lit ""; lit "https://h/v"] [] None
                          all_succeed)))
         new.
Proof.
  apply (download_only_stops_after_download (lib := plain_library)
           (session [lit "1"; lit ""; lit "https://h/v"] [] None all_succeed)).
  reflexivity.
Defined.

Example download_only_sample :
  exit_status
    (fst (main (lib := plain_library)
            (session [lit "1"; lit ""; lit "https://h/v"] [] None all_succeed)))
  = 0.
Proof. reflexivity. Qed.

(** *** Parsing the returned URL again *)

Lemma mem_In (c : char) (s : str) : mem c s = true <-> In c s.
Proof.
  unfold mem. rewrite existsb_exists. split.
  - intros (x & Hx & E). apply N.eqb_eq in E. now subst.
  - intros H. exists c. split; [assumption|apply N.eqb_refl].
Qed.

Lemma mem_not_In (c : char) (s : str) : mem c s = false <-> ~ In c s.
Proof.
  rewrite <- mem_In. destruct (mem c s); split; congruence.
Qed.

(** Replacing a code point by nothing filters it out. *)
Lemma replace_single (c : char) (s : str) :
  replace [c] [] s = filter (fun x => negb (N.eqb c x)) s.
Proof.
  unfold replace. induction s as [|x s IH]; [reflexivity|].
  cbn [replace_from startswith filter length Nat.sub].
  destruct (N.eqb c x); cbn [andb negb app]; now rewrite IH.
Qed.

Lemma remove_unsafe_clean (s : str) : clean (Urllib.remove_unsafe s).
Proof.
  unfold Urllib.remove_unsafe, clean. rewrite !replace_single.
  apply Forall_forall. intros x Hx.
  apply filter_In in Hx as [Hx H10]. apply filter_In in Hx as [Hx H13].
  apply filter_In in Hx as [_ H9].
  repeat split; intros ->; discriminate.
Qed.

Lemma remove_unsafe_id (s : str) : clean s -> Urllib.remove_unsafe s = s.
Proof.
  unfold Urllib.remove_unsafe, clean. rewrite !replace_single. intros H.
  assert (F : forall c, (c = 9 \/ c = 10 \/ c = 13)%N ->
                        filter (fun x => negb (N.eqb c x)) s = s).
  { intros c Hc. apply forallb_filter_id. apply forallb_forall. intros x Hx.
    rewrite Forall_forall in H. specialize (H x Hx).
    destruct (N.eqb_spec c x) as [<-|Hne]; [|reflexivity].
    exfalso. destruct H as (H9 & H10 & H13). destruct Hc as [-> | [-> | ->]]; congruence. }
  rewrite (F 9%N), (F 13%N), (F 10%N); auto.
Qed.

Lemma clean_app (a b : str) : clean (a ++ b) <-> clean a /\ clean b.
Proof. apply Forall_app. Qed.

Lemma clean_skipn (n : nat) (s : str) : clean s -> clean (skipn n s).
Proof.
  intros H. rewrite <- (firstn_skipn n s) in H. now apply clean_app in H.
Qed.

Lemma clean_firstn (n : nat) (s : str) : clean s -> clean (firstn n s).
Proof.
  intros H. rewrite <- (firstn_skipn n s) in H. now apply clean_app in H.
Qed.

Lemma clean_lit_ascii (c : char) : (32 < c)%N -> clean [c].
Proof. intros H. repeat constructor; intros ->; discriminate. Qed.

Lemma partition_spec (c : char) (s : str) :
  let '(a, f, b) := partition c s in
  ~ In c a
  /\ (f = true -> s = a ++ c :: b)
  /\ (f = false -> s = a /\ b = []).
Proof.
  induction s as [|x s IH]; cbn [partition].
  - split; [intros []|]. split; [discriminate|]. now split.
  - destruct (N.eqb_spec x c) as [->|Hx].
    + split; [intros []|]. split; [reflexivity|discriminate].
    + destruct (partition c s) as [[a f] b]. destruct IH as (Ha & Ht & Hf).
      split; [|split].
      * intros [E|Hin]; [congruence|contradiction].
      * intros E. cbn. now rewrite <- Ht.
      * intros E. destruct (Hf E) as [<- ->]. now split.
Qed.

Lemma partition_found (c : char) (a b : str) :
  ~ In c a -> partition c (a ++ c :: b) = (a, true, b).
Proof.
  induction a as [|x a IH]; intros H; cbn [app partition].
  - now rewrite N.eqb_refl.
  - destruct (N.eqb_spec x c) as [->|Hx]; [contradiction H; now left|].
    rewrite IH; [reflexivity|]. intros Hin. apply H. now right.
Qed.

Lemma find_from_char_skip (c : char) (a b : str) (i : Z) :
  ~ In c a -> find_from [c] (a ++ b) i = find_from [c] b (i + len a).
Proof.
  revert i; induction a as [|x a IH]; intros i H.
  - unfold len. cbn. now rewrite Z.add_0_r.
  - cbn [app find_from startswith].
    destruct (N.eqb_spec c x) as [->|Hx]; [contradiction H; now left|].
    cbn [andb]. rewrite IH by (intros Hin; apply H; now right).
    unfold len. cbn [length]. f_equal. lia.
Qed.

Lemma find_from_char_here (c : char) (t : str) (i : Z) :
  find_from [c] (c :: t) i = i.
Proof. cbn. now rewrite N.eqb_refl. Qed.

Lemma find_from_char_nil (c : char) (i : Z) : find_from [c] [] i = -1.
Proof. reflexivity. Qed.

Lemma lstrip_by_head (p : char -> bool) (c : char) (s : str) :
  p c = false -> lstrip_by p (c :: s) = c :: s.
Proof. intros H. cbn. now rewrite H. Qed.

Lemma slice_mid (a b c : str) : slice (a ++ b ++ c) (len a) (len a + len b) = b.
Proof.
  pose proof (len_nonneg a). pose proof (len_nonneg b). pose proof (len_nonneg c).
  unfold slice. rewrite !clamp_in_range by (rewrite !len_app; lia).
  replace (len a + len b - len a) with (len b) by lia.
  unfold len at 2. rewrite Nat2Z.id, skipn_app, skipn_all, Nat.sub_diag.
  cbn [app skipn]. apply firstn_len_app.
Qed.

Lemma slice_from_app (a b : str) : slice_from (a ++ b) (len a) = b.
Proof.
  pose proof (len_nonneg a). pose proof (len_nonneg b).
  unfold slice_from. rewrite clamp_in_range by (rewrite len_app; lia).
  unfold len. rewrite Nat2Z.id, skipn_app, skipn_all, Nat.sub_diag. reflexivity.
Qed.

Lemma find_at_after_slashes (c : char) (nl tail : str) :
  ~ In c nl ->
  find_at [c] (lit "//" ++ nl ++ tail) 2 = find_from [c] tail (2 + len nl).
Proof.
  intros H. pose proof (len_nonneg (nl ++ tail)).
  assert (L : len (lit "//" ++ nl ++ tail) = 2 + len (nl ++ tail))
    by (rewrite len_app; reflexivity).
  unfold find_at. rewrite clamp_in_range by lia.
  replace (len (lit "//" ++ nl ++ tail) <? 2) with false
    by (symmetry; apply Z.ltb_ge; lia).
  change (skipn (Z.to_nat 2) (lit "//" ++ nl ++ tail)) with (nl ++ tail).
  now apply find_from_char_skip.
Qed.

(** The host part ends at the first "/", "?" or "#". *)
Lemma splitnetloc_host (nl tail : str) :
  no_delim nl -> starts_delim tail ->
  Urllib._splitnetloc (lit "//" ++ nl ++ tail) 2 = (nl, tail).
Proof.
  intros (H47 & H63 & H35) Ht. unfold Urllib._splitnetloc.
  change (lit "/?#") with [47%N; 63%N; 35%N]. cbn [fold_left].
  rewrite !find_at_after_slashes by assumption.
  pose proof (len_nonneg nl) as Ln. pose proof (len_nonneg tail) as Lt.
  assert (Ls : len (lit "//" ++ nl ++ tail) = 2 + len nl + len tail)
    by (rewrite !len_app; change (len (lit "//")) with 2; lia).
  set (n := 2 + len nl) in *.
  assert (Hn : n = 2 + len nl) by reflexivity. clearbody n.
  match goal with
  | |- (slice _ _ ?d, slice_from _ ?d) = _ => assert (Hd : d = n)
  end.
  { rewrite Ls.
    destruct Ht as [-> | (c & t & -> & [-> | [-> | ->]])];
      rewrite ?find_from_char_here, ?find_from_char_nil;
      repeat match goal with
             | |- context [0 <=? find_from ?s ?tl ?i] =>
                 pose proof (find_from_range s tl i);
                 destruct (Z.leb_spec 0 (find_from s tl i))
             | |- context [0 <=? ?x] => destruct (Z.leb_spec 0 x)
             end;
      unfold len in *; cbn [length] in *; lia. }
  rewrite Hd, Hn. change 2 with (len (lit "//")). f_equal.
  - apply slice_mid.
  - rewrite app_assoc, <- len_app. apply slice_from_app.
Qed.

Lemma span_delim (s : str) :
  exists a b, s = a ++ b /\ no_delim a /\ starts_delim b.
Proof.
  induction s as [|x s (a & b & -> & (H47 & H63 & H35) & Hb)].
  - exists [], []. repeat split; try (intros []). now left.
  - destruct (N.eq_dec x 47) as [->|N47];
      [exists [], (47%N :: a ++ b); repeat split; try (intros []);
       right; eexists _, _; split; [reflexivity|tauto]|].
    destruct (N.eq_dec x 63) as [->|N63];
      [exists [], (63%N :: a ++ b); repeat split; try (intros []);
       right; eexists _, _; split; [reflexivity|tauto]|].
    destruct (N.eq_dec x 35) as [->|N35];
      [exists [], (35%N :: a ++ b); repeat split; try (intros []);
       right; eexists _, _; split; [reflexivity|tauto]|].
    exists (x :: a), b. repeat split; try assumption;
      intros [E|Hin]; congruence || contradiction.
Qed.

(** Settles every comparison of the goal that linear arithmetic decides. *)
Ltac decide_tests :=
  repeat match goal with
         | |- context [N.leb ?a ?b] =>
             first [ replace (N.leb a b) with true
                       by (symmetry; apply N.leb_le; lia)
                   | replace (N.leb a b) with false
                       by (symmetry; apply N.leb_gt; lia) ]
         | |- context [N.ltb ?a ?b] =>
             first [ replace (N.ltb a b) with true
                       by (symmetry; apply N.ltb_lt; lia)
                   | replace (N.ltb a b) with false
                       by (symmetry; apply N.ltb_ge; lia) ]
         | |- context [N.eqb ?a ?b] =>
             first [ replace (N.eqb a b) with true
                       by (symmetry; apply N.eqb_eq; lia)
                   | replace (N.eqb a b) with false
                       by (symmetry; apply N.eqb_neq; lia) ]
         end.

Lemma scheme_char_cases (c : char) :
  Urllib.scheme_char c = true ->
  (97 <= c <= 122 \/ 65 <= c <= 90 \/ 48 <= c <= 57
   \/ c = 43 \/ c = 45 \/ c = 46)%N.
Proof.
  unfold Urllib.scheme_char.
  rewrite !orb_true_iff, !andb_true_iff, !N.leb_le, !N.eqb_eq. tauto.
Qed.

Lemma scheme_char_lower (c : char) :
  Urllib.scheme_char c = true ->
  exists c', lower_char c = [c'] /\ Urllib.scheme_char c' = true
             /\ lower_char c' = [c']
             /\ (isascii_alpha c = true -> isascii_alpha c' = true).
Proof.
  intros H. apply scheme_char_cases in H.
  destruct H as [H | [H | [H | [H | [H | H]]]]].
  - exists c. unfold Urllib.scheme_char, lower_char, lower_code, isascii_alpha.
    decide_tests. now repeat split.
  - exists (c + 32)%N.
    unfold Urllib.scheme_char, lower_char, lower_code, isascii_alpha.
    decide_tests. now repeat split.
  - exists c. unfold Urllib.scheme_char, lower_char, lower_code, isascii_alpha.
    decide_tests. now repeat split.
  - subst c. exists 43%N. now repeat split.
  - subst c. exists 45%N. now repeat split.
  - subst c. exists 46%N. now repeat split.
Qed.

Lemma scheme_char_no_sigma (s : str) :
  forallb Urllib.scheme_char s = true -> ~ In 931%N s.
Proof.
  intros H Hin. rewrite forallb_forall in H. now specialize (H _ Hin).
Qed.

Lemma scheme_char_clean (c : char) :
  Urllib.scheme_char c = true -> (32 < c)%N /\ c <> 58%N.
Proof. intros H. apply scheme_char_cases in H. lia. Qed.

Lemma isascii_alpha_scheme (c : char) :
  isascii_alpha c = true -> (32 < c)%N.
Proof.
  unfold isascii_alpha.
  rewrite !orb_true_iff, !andb_true_iff, !N.leb_le. lia.
Qed.

Lemma lower_plain_scheme (s : str) :
  forallb Urllib.scheme_char s = true ->
  forallb Urllib.scheme_char (lower_plain s) = true
  /\ lower_plain (lower_plain s) = lower_plain s
  /\ length (lower_plain s) = length s
  /\ (isascii_alpha (hd 0%N s) = true -> s <> [] ->
      isascii_alpha (hd 0%N (lower_plain s)) = true).
Proof.
  induction s as [|c s IH]; intros H.
  - repeat split. intros _ E. now contradiction E.
  - cbn [forallb] in H. apply andb_true_iff in H as [Hc Hs].
    destruct (IH Hs) as (I1 & I2 & I3 & _).
    destruct (scheme_char_lower c Hc) as (c' & E1 & E2 & E3 & E4).
    cbn [lower_plain flat_map]. fold (lower_plain s). rewrite E1. cbn [app].
    repeat split.
    + cbn [forallb]. now rewrite E2, I1.
    + cbn [lower_plain flat_map]. fold (lower_plain (lower_plain s)).
      now rewrite E3, I2.
    + cbn [length]. now rewrite I3.
    + cbn [hd]. intros Ha _. now apply E4.
Qed.

Lemma lower_scheme (s : str) :
  forallb Urllib.scheme_char s = true ->
  forallb Urllib.scheme_char (lower s) = true
  /\ lower (lower s) = lower s
  /\ length (lower s) = length s
  /\ (isascii_alpha (hd 0%N s) = true -> s <> [] ->
      isascii_alpha (hd 0%N (lower s)) = true).
Proof.
  intros H. destruct (lower_plain_scheme s H) as (L1 & L2 & L3 & L4).
  assert (E : lower s = lower_plain s)
    by apply (lower_no_sigma s [] (scheme_char_no_sigma s H)).
  assert (E' : lower (lower_plain s) = lower_plain (lower_plain s))
    by apply (lower_no_sigma _ [] (scheme_char_no_sigma _ L1)).
  rewrite E. repeat split; [assumption|congruence|assumption|assumption].
Qed.

Lemma urlunsplit_host (sch nl pth q frag : str) :
  nl <> [] -> rooted pth ->
  Urllib.urlunsplit (mkSplit sch nl pth q frag) = assembled sch nl pth q frag.
Proof.
  intros Hnl Hp. unfold Urllib.urlunsplit, assembled, opt_part.
  cbn [scheme netloc path query fragment].
  assert (Ht : truthy nl = true) by (destruct nl; [contradiction|reflexivity]).
  rewrite Ht. cbn [orb].
  assert (Hr : (if truthy pth && negb (eqb (slice_to pth 1) (lit "/"))
                then lit "/" ++ pth else pth) = pth).
  { destruct Hp as [->|(t & ->)]; [reflexivity|].
    replace (slice_to (47%N :: t) 1) with (lit "/"); [reflexivity|].
    unfold slice_to, clamp, len. cbn [length].
    replace (1 <? 0) with false by reflexivity.
    rewrite Z.min_l by lia. reflexivity. }
  rewrite Hr.
  destruct (truthy sch), (truthy q), (truthy frag);
    rewrite <- ?app_assoc; cbn [app]; rewrite ?app_nil_r; reflexivity.
Qed.

Lemma split_at_optional (c : char) (a x : str) :
  ~ In c a -> Urllib.split_mark c (a ++ opt_part c x) = (a, x).
Proof.
  intros H. unfold Urllib.split_mark, opt_part. destruct x as [|y x]; cbn [truthy].
  - rewrite app_nil_r. apply mem_not_In in H. now rewrite H.
  - assert (Hm : mem c (a ++ c :: y :: x) = true).
    { apply mem_In, in_or_app. right. now left. }
    rewrite Hm, partition_found by assumption. reflexivity.
Qed.

Lemma slice_to_2 (x : str) : slice_to (lit "//" ++ x) 2 = lit "//".
Proof. change 2 with (len (lit "//")). apply slice_to_prefix. Qed.

Lemma clean_opt_part (c : char) (x : str) :
  (32 < c)%N -> clean x -> clean (opt_part c x).
Proof.
  intros Hc Hx. unfold opt_part. destruct (truthy x); [|constructor].
  constructor; [|assumption]. repeat split; intros ->; discriminate.
Qed.

Lemma clean_scheme (s : str) : forallb Urllib.scheme_char s = true -> clean s.
Proof.
  intros H. apply Forall_forall. intros x Hx.
  rewrite forallb_forall in H. destruct (scheme_char_clean x (H x Hx)) as [H32 _].
  repeat split; intros ->; discriminate.
Qed.

Lemma not_colon_scheme (s : str) :
  forallb Urllib.scheme_char s = true -> ~ In 58%N s.
Proof.
  intros H Hin. rewrite forallb_forall in H.
  now destruct (scheme_char_clean 58%N (H _ Hin)).
Qed.

(** What urlsplit makes of the scheme in front of "//": it finds [sch]. *)
Lemma scheme_detected (sch x : str) :
  sch = [] \/ good_scheme sch ->
  let rest := lit "//" ++ x in
  Urllib.split_scheme ((if truthy sch then sch ++ lit ":" else []) ++ rest)
  = (sch, rest).
Proof.
  intros [->|(Hne & Ha & Hf & Hl)] rest; unfold Urllib.split_scheme; cbv zeta.
  - cbn [truthy app].
    replace (isascii_alpha (hd 0%N rest)) with false by reflexivity.
    now rewrite andb_false_r.
  - assert (Ht : truthy sch = true) by (destruct sch; [contradiction|reflexivity]).
    rewrite Ht. change (lit ":") with [58%N].
    assert (Hfind : find [58%N] ((sch ++ [58%N]) ++ rest) = len sch).
    { unfold find. rewrite <- app_assoc.
      rewrite find_from_char_skip by now apply not_colon_scheme.
      cbn [app]. rewrite find_from_char_here. lia. }
    rewrite Hfind.
    assert (Hpos : (0 <? len sch) = true).
    { apply Z.ltb_lt. unfold len. destruct sch; [contradiction|cbn; lia]. }
    assert (Hhd : hd 0%N ((sch ++ [58%N]) ++ rest) = hd 0%N sch)
      by (destruct sch; [contradiction|reflexivity]).
    assert (Hsl : slice_to ((sch ++ [58%N]) ++ rest) (len sch) = sch)
      by (rewrite <- app_assoc; apply slice_to_prefix).
    assert (Hsf : slice_from ((sch ++ [58%N]) ++ rest) (len sch + 1) = rest).
    { replace (len sch + 1) with (len (sch ++ [58%N]))
        by (rewrite len_app; reflexivity).
      apply slice_from_app. }
    now rewrite Hpos, Hhd, Ha, Hsl, Hf, Hl, Hsf.
Qed.

(** urlsplit reads an assembled URL back into the components it was put
    together from. *)
Lemma urlsplit_assembled {lib : Library} (sch nl pth q frag : str) :
  sch = [] \/ good_scheme sch ->
  no_delim nl -> clean nl -> netloc_accepted nl ->
  rooted pth -> ~ In 63%N pth -> ~ In 35%N pth -> clean pth ->
  ~ In 35%N q -> clean q -> clean frag ->
  Urllib.urlsplit (assembled sch nl pth q frag)
  = Some (mkSplit sch nl pth q frag).
Proof.
  intros Hsch Hnl Cnl (Hb1 & Hb2 & Hck) Hp Hp63 Hp35 Cp Hq35 Cq Cf.
  set (tail := pth ++ opt_part 63%N q ++ opt_part 35%N frag).
  set (rest := lit "//" ++ nl ++ tail).
  assert (Es : assembled sch nl pth q frag
               = (if truthy sch then sch ++ lit ":" else []) ++ rest)
    by reflexivity.
  assert (Ctail : clean tail).
  { unfold tail. apply clean_app. split; [assumption|]. apply clean_app.
    split; apply clean_opt_part; try assumption; reflexivity. }
  assert (Crest : clean rest).
  { unfold rest. apply clean_app. split.
    - repeat constructor; discriminate.
    - apply clean_app. now split. }
  assert (Cs : clean (assembled sch nl pth q frag)).
  { rewrite Es. apply clean_app. split; [|assumption].
    destruct Hsch as [->|(_ & _ & Hf & _)]; [constructor|].
    destruct (truthy sch); [|constructor].
    apply clean_app. split; [now apply clean_scheme|].
    repeat constructor; discriminate. }
  assert (Hstrip : lstrip_by Urllib.c0_control_or_space
                     (assembled sch nl pth q frag)
                   = assembled sch nl pth q frag).
  { rewrite Es. destruct Hsch as [->|(Hne & Ha & _)].
    - reflexivity.
    - destruct sch as [|c sch']; [contradiction|]. cbn [truthy app].
      apply lstrip_by_head. cbn [hd] in Ha.
      apply isascii_alpha_scheme in Ha.
      unfold Urllib.c0_control_or_space. apply N.leb_gt. lia. }
  assert (Htail : starts_delim tail).
  { unfold tail, opt_part. destruct Hp as [->|(t & ->)].
    - cbn [app]. destruct (truthy q).
      + right. eexists _, _. split; [reflexivity|tauto].
      + destruct (truthy frag); [|now left].
        right. eexists _, _. split; [reflexivity|tauto].
    - right. eexists _, _. split; [reflexivity|tauto]. }
  assert (Hu3 : ~ In 35%N (pth ++ opt_part 63%N q)).
  { intros Hin. apply in_app_or in Hin as [Hin|Hin]; [contradiction|].
    unfold opt_part in Hin. destruct (truthy q); [|contradiction].
    destruct Hin as [E|Hin]; [discriminate|contradiction]. }
  assert (Hhost : Urllib.split_host rest = Some (nl, tail)).
  { unfold Urllib.split_host, rest. rewrite slice_to_2, eqb_refl.
    rewrite (splitnetloc_host nl tail Hnl Htail). cbv zeta.
    now rewrite Hb1, Hb2. }
  unfold Urllib.urlsplit. rewrite Hstrip, (remove_unsafe_id _ Cs). cbv zeta.
  pose proof (scheme_detected sch (nl ++ tail) Hsch) as Hd.
  cbv zeta in Hd. fold rest in Hd. rewrite Es, Hd, Hhost.
  unfold tail. rewrite app_assoc.
  rewrite (split_at_optional 35%N _ frag Hu3).
  rewrite (split_at_optional 63%N pth q Hp63).
  now rewrite Hck.
Qed.

Lemma not_in_Forall (d : char) (s : str) :
  ~ In d s <-> Forall (fun x => x <> d) s.
Proof.
  rewrite Forall_forall. split.
  - intros H x Hx ->. contradiction.
  - intros H Hin. now apply (H d Hin).
Qed.

Lemma slice_to_head (c : char) (u : str) (i : Z) :
  0 < i -> exists s, slice_to (c :: u) i = c :: s.
Proof.
  intros Hi. unfold slice_to, clamp.
  replace (i <? 0) with false by (symmetry; apply Z.ltb_ge; lia).
  assert (H : exists k, Z.to_nat (Z.min i (len (c :: u))) = S k).
  { exists (Z.to_nat (Z.min i (len (c :: u))) - 1)%nat.
    unfold len. cbn [length]. lia. }
  destruct H as (k & ->). now exists (firstn k u).
Qed.

(** The scheme step returns nothing or a good scheme, and a part of the text
    as the rest. *)
Lemma split_scheme_inv (u sch u1 : str) :
  clean u -> Urllib.split_scheme u = (sch, u1) ->
  (sch = [] \/ good_scheme sch) /\ clean u1.
Proof.
  intros Cu. unfold Urllib.split_scheme. cbv zeta.
  set (i := find (lit ":") u).
  destruct ((0 <? i) && isascii_alpha (hd 0%N u)
            && forallb Urllib.scheme_char (slice_to u i)) eqn:Hc;
    intros E; injection E as <- <-.
  - apply andb_true_iff in Hc as [Hc Hf]. apply andb_true_iff in Hc as [Hi Ha].
    apply Z.ltb_lt in Hi. split.
    + right. destruct u as [|c u]; [discriminate Ha|].
      destruct (slice_to_head c u i Hi) as (s & Es). rewrite Es in *.
      destruct (lower_scheme (c :: s) Hf) as (L1 & L2 & L3 & L4).
      repeat split; try assumption.
      * intros E. rewrite E in L3. discriminate L3.
      * apply L4; [exact Ha|discriminate].
    + unfold slice_from. now apply clean_skipn.
  - split; [now left|assumption].
Qed.

Lemma slice_to_slashes (u : str) :
  slice_to u 2 = lit "//" -> u = lit "//" ++ skipn 2 u.
Proof.
  destruct u as [|a [|b u]]; try discriminate.
  unfold slice_to, clamp, len. cbn [length].
  replace (2 <? 0) with false by reflexivity.
  rewrite Z.min_l by lia. cbn. intros E. now injection E as -> ->.
Qed.

(** The host step, when it finds a host: the host has no "/", "?" or "#",
    passed the bracket checks, and what follows starts with one of the three
    marks or is empty. *)
Lemma split_host_inv {lib : Library} (u nl u2 : str) :
  clean u -> Urllib.split_host u = Some (nl, u2) -> nl <> [] ->
  no_delim nl /\ clean nl /\ starts_delim u2 /\ clean u2
  /\ ((mem 91%N nl && negb (mem 93%N nl)) || (mem 93%N nl && negb (mem 91%N nl)))
     = false
  /\ (mem 91%N nl && mem 93%N nl && negb (Urllib._check_bracketed_netloc nl))
     = false.
Proof.
  intros Cu. unfold Urllib.split_host.
  destruct (eqb (slice_to u 2) (lit "//")) eqn:Hs.
  2:{ intros E. injection E as <- _. intros H. now contradiction H. }
  apply eqb_eq, slice_to_slashes in Hs.
  destruct (span_delim (skipn 2 u)) as (a & b & Eab & Ha & Hb).
  rewrite Eab in Hs. rewrite Hs in Cu |- *.
  rewrite (splitnetloc_host a b Ha Hb). cbv zeta.
  apply clean_app in Cu as [_ Cu]. apply clean_app in Cu as [Ca Cb].
  destruct ((mem 91%N a && negb (mem 93%N a)) || (mem 93%N a && negb (mem 91%N a)))
    eqn:Hb1; [discriminate|].
  destruct (mem 91%N a && mem 93%N a && negb (Urllib._check_bracketed_netloc a))
    eqn:Hb2; [discriminate|].
  intros E. injection E as <- <-. intros _.
  repeat (split; [assumption|]). assumption.
Qed.

(** Splitting at a mark keeps a prefix free of the mark, and both parts keep
    every property that holds of all code points of the text. *)
Lemma split_mark_inv (c : char) (u a b : str) :
  Urllib.split_mark c u = (a, b) ->
  ~ In c a /\ (exists r, u = a ++ r)
  /\ forall P : char -> Prop, Forall P u -> Forall P a /\ Forall P b.
Proof.
  unfold Urllib.split_mark. destruct (mem c u) eqn:Hm.
  - pose proof (partition_spec c u) as Hp.
    destruct (partition c u) as [[l f] r]. destruct Hp as (Hl & Ht & Hf).
    intros E. injection E as <- <-.
    destruct f.
    + specialize (Ht eq_refl). split; [assumption|]. split; [now exists (c :: r)|].
      intros P HP. rewrite Ht in HP. apply Forall_app in HP as [HP1 HP2].
      split; [assumption|]. now inversion HP2.
    + destruct (Hf eq_refl) as [-> ->]. split; [assumption|].
      split; [exists []; now rewrite app_nil_r|]. intros P HP. now split.
  - intros E. injection E as <- <-. apply mem_not_In in Hm.
    split; [assumption|]. split; [exists []; now rewrite app_nil_r|].
    intros P HP. now split.
Qed.

(** What urlsplit returns for a URL with a host. *)
Lemma urlsplit_host_parts {lib : Library} (url : str) (parts : SplitResult) :
  Urllib.urlsplit url = Some parts -> netloc parts <> [] ->
  (scheme parts = [] \/ good_scheme (scheme parts))
  /\ no_delim (netloc parts) /\ clean (netloc parts)
  /\ netloc_accepted (netloc parts)
  /\ rooted (path parts) /\ ~ In 63%N (path parts) /\ ~ In 35%N (path parts)
  /\ clean (path parts)
  /\ ~ In 35%N (query parts) /\ clean (query parts)
  /\ clean (fragment parts).
Proof.
  unfold Urllib.urlsplit. cbv zeta.
  set (u := Urllib.remove_unsafe (lstrip_by Urllib.c0_control_or_space url)).
  assert (Cu : clean u) by apply remove_unsafe_clean.
  destruct (Urllib.split_scheme u) as [sch u1] eqn:E1.
  destruct (split_scheme_inv u sch u1 Cu E1) as [Hsch Cu1].
  destruct (Urllib.split_host u1) as [[nl u2]|] eqn:E2; [|discriminate].
  destruct (Urllib.split_mark 35%N u2) as [u3 frag] eqn:E3.
  destruct (Urllib.split_mark 63%N u3) as [pth q] eqn:E4.
  destruct (Urllib._checknetloc nl) eqn:E5; [|discriminate].
  intros E Hnl. injection E as <-. cbn [scheme netloc path query fragment] in *.
  destruct (split_host_inv u1 nl u2 Cu1 E2 Hnl)
    as (Hd & Cnl & Hu2 & Cu2 & Hb1 & Hb2).
  destruct (split_mark_inv 35%N u2 u3 frag E3) as (H35 & (r3 & Er3) & F3).
  destruct (split_mark_inv 63%N u3 pth q E4) as (H63 & (r4 & Er4) & F4).
  destruct (F3 _ Cu2) as [Cu3 Cfrag]. destruct (F4 _ Cu3) as [Cpth Cq].
  apply not_in_Forall in H35. destruct (F4 _ H35) as [Hp35 Hq35].
  apply not_in_Forall in Hp35, Hq35.
  assert (Hacc : netloc_accepted nl) by (repeat split; assumption).
  assert (Hroot : rooted pth).
  { destruct pth as [|c pth']; [now left|]. right. exists pth'.
    rewrite Er4 in Er3. rewrite Er3 in Hu2. cbn [app] in Hu2.
    destruct Hu2 as [Hu2|(c' & t & Hu2 & Hc)]; [discriminate Hu2|].
    injection Hu2 as <- _.
    destruct Hc as [-> | [-> | ->]]; [reflexivity| |].
    - contradiction H63. now left.
    - contradiction Hp35. now left. }
  repeat (split; [assumption|]). assumption.
Qed.

(** For a URL with a host whose query holds the name and no U+0130, parsing
    the URL that trim_after_altmanifest returns gives the scheme, host part,
    path and fragment of the URL it was given, and the query cut before the
    parameter. *)
Theorem trim_result_parses_back {lib : Library}
    (url : str) (parts : SplitResult) (w : World) :
  Urllib.urlsplit url = Some parts ->
  netloc parts <> [] ->
  has_altmanifest (query parts) ->
  ~ In 304%N (query parts) ->
  exists out kept,
    fst (trim_after_altmanifest url w) = Ok out
    /\ Urllib.urlsplit out
       = Some (mkSplit (scheme parts) (netloc parts) (path parts) kept
                       (fragment parts))
    /\ cut_before_altmanifest (query parts) kept
    /\ ~ has_altmanifest kept.
Proof.
  intros Hs Hnl Hq H304.
  destruct (trim_cut url parts w Hs Hq H304) as (kept & E & Hcut & Hk).
  destruct (urlsplit_host_parts url parts Hs Hnl)
    as (Hsch & Hd & Cnl & Hacc & Hroot & Hp63 & Hp35 & Cp & Hq35 & Cq & Cf).
  assert (Hkept : ~ In 35%N kept /\ clean kept).
  { destruct Hcut as (seps & t1 & m & t2 & Eq & _). rewrite Eq in Hq35, Cq.
    split; [now apply not_in_app_l in Hq35|now apply clean_app in Cq]. }
  destruct Hkept as [Hk35 Ck].
  eexists _, kept. split; [exact E|]. split; [|now split].
  rewrite (urlunsplit_host _ _ _ _ _ Hnl Hroot).
  now apply urlsplit_assembled.
Qed.

Lemma trim_result_parses_back_witness :
  exists out kept,
    fst (trim_after_altmanifest (lib := plain_library)
           (lit "HTTPS://Teams.example:443/v/1?a=1&b=2&altManifest=3&c=4#t")
           sample_world) = Ok out
    /\ Urllib.urlsplit (lib := plain_library) out
       = Some (mkSplit (lit "https") (lit "Teams.example:443") (lit "/v/1")
                       kept (lit "t"))
    /\ cut_before_altmanifest (lit "a=1&b=2&altManifest=3&c=4") kept
    /\ ~ has_altmanifest kept.
Proof.
  apply (trim_result_parses_back (lib := plain_library)
           (lit "HTTPS://Teams.example:443/v/1?a=1&b=2&altManifest=3&c=4#t")
           (mkSplit (lit "https") (lit "Teams.example:443") (lit "/v/1")
                    (lit "a=1&b=2&altManifest=3&c=4") (lit "t"))
           sample_world).
  - reflexivity.
  - discriminate.
  - exists (lit "a=1&b=2&"), (lit "=3&c=4"). reflexivity.
  - apply not_in_by_test. reflexivity.
Defined.

(** *** What a run leaves as it was *)

Lemma makedirs_emit e w : makedirs (emit e w) = makedirs w.
Proof. reflexivity. Qed.
Lemma makedirs_set_stdin l w : makedirs (set_stdin l w) = makedirs w.
Proof. reflexivity. Qed.
Lemma makedirs_set_fs f w : makedirs (set_fs f w) = makedirs w.
Proof. reflexivity. Qed.
Lemma torch_cuda_set_fs f w : torch_cuda (set_fs f w) = torch_cuda w.
Proof. reflexivity. Qed.
Lemma abspath_set_fs f w : abspath (set_fs f w) = abspath w.
Proof. reflexivity. Qed.
Lemma expanduser_set_fs f w : expanduser (set_fs f w) = expanduser w.
Proof. reflexivity. Qed.

#[local] Hint Rewrite makedirs_emit makedirs_set_stdin makedirs_set_fs
  torch_cuda_set_fs abspath_set_fs expanduser_set_fs : world.

Lemma same_machine_refl (w : World) : same_machine w w.
Proof. now repeat split. Qed.

Lemma same_machine_trans (a b c : World) :
  same_machine a b -> same_machine b c -> same_machine a c.
Proof.
  intros (A1 & A2 & A3 & A4 & A5 & A6) (B1 & B2 & B3 & B4 & B5 & B6).
  repeat split; congruence.
Qed.

Lemma same_machine_emit (e : event) (w : World) : same_machine w (emit e w).
Proof. now repeat split. Qed.

Lemma same_machine_set_stdin (l : list str) (w : World) :
  same_machine w (set_stdin l w).
Proof. now repeat split. Qed.

Lemma same_machine_set_fs (f : FS) (w : World) : same_machine w (set_fs f w).
Proof. now repeat split. Qed.

Lemma same_files_refl (w : World) : same_files w w.
Proof. split; [apply same_machine_refl|reflexivity]. Qed.

Lemma same_files_trans (a b c : World) :
  same_files a b -> same_files b c -> same_files a c.
Proof.
  intros [A1 A2] [B1 B2]. split; [now apply (same_machine_trans a b c)|congruence].
Qed.

Lemma same_files_emit (e : event) (w : World) : same_files w (emit e w).
Proof. split; [apply same_machine_emit|reflexivity]. Qed.

Lemma same_files_set_stdin (l : list str) (w : World) :
  same_files w (set_stdin l w).
Proof. split; [apply same_machine_set_stdin|reflexivity]. Qed.

Lemma grows_refl (w : World) : grows w w.
Proof. exists []. now rewrite app_nil_r. Qed.

Lemma grows_trans (a b c : World) : grows a b -> grows b c -> grows a c.
Proof.
  intros [t1 E1] [t2 E2]. exists (t1 ++ t2). now rewrite E2, E1, app_assoc.
Qed.

Lemma grows_emit (e : event) (w : World) : grows w (emit e w).
Proof. now exists [e]. Qed.

Lemma grows_set_stdin (l : list str) (w : World) : grows w (set_stdin l w).
Proof. exists []. autorewrite with world. now rewrite app_nil_r. Qed.

Lemma grows_set_fs (f : FS) (w : World) : grows w (set_fs f w).
Proof. exists []. autorewrite with world. now rewrite app_nil_r. Qed.

(** A relation between worlds that is reflexive and transitive and holds
    across the primitive changes is kept by the computations built from
    them. *)
Section Preserved.
Variable R : World -> World -> Prop.
Hypothesis R_refl : forall w, R w w.
Hypothesis R_trans : forall a b c, R a b -> R b c -> R a c.
Hypothesis R_emit : forall e w, R w (emit e w).
Hypothesis R_set_stdin : forall l w, R w (set_stdin l w).

Lemma preserves_ret {A} (a : A) : preserves R (ret a).
Proof. intros w. apply R_refl. Qed.

Lemma preserves_raise {A} (e : exn) : preserves R (@raise A e).
Proof. intros w. apply R_refl. Qed.

Lemma preserves_bind {A B} (m : M A) (k : A -> M B) :
  preserves R m -> (forall a, preserves R (k a)) -> preserves R (bind m k).
Proof.
  intros Hm Hk w. unfold bind. specialize (Hm w).
  destruct (m w) as [[a|e] w1]; cbn [snd] in *; [|assumption].
  apply (R_trans _ w1); [assumption|apply Hk].
Qed.

Lemma preserves_try_except {A} (body : M A) (handler : exn -> option (M A)) :
  preserves R body -> (forall e h, handler e = Some h -> preserves R h) ->
  preserves R (try_except body handler).
Proof.
  intros Hb Hh w. unfold try_except. specialize (Hb w).
  destruct (body w) as [[a|e] w1]; cbn [snd] in *; [assumption|].
  destruct (handler e) as [h|] eqn:E; [|assumption].
  apply (R_trans _ w1); [assumption|apply (Hh e h E)].
Qed.

Lemma preserves_print (s : str) : preserves R (print s).
Proof. intros w. apply R_emit. Qed.

Lemma preserves_input (p : str) : preserves R (input p).
Proof.
  intros w. unfold input. cbv zeta.
  destruct (stdin (emit (Prompted p) w)); cbn [snd]; [apply R_emit|].
  apply (R_trans _ (emit (Prompted p) w)); [apply R_emit|apply R_set_stdin].
Qed.

Lemma preserves_sys_exit {A} (c : Z) : preserves R (@sys_exit A c).
Proof. intros w. apply R_refl. Qed.

Lemma preserves_shutil_which (c : str) : preserves R (shutil_which c).
Proof. intros w. apply R_refl. Qed.

Lemma preserves_torch : preserves R torch_cuda_is_available.
Proof.
  intros w. unfold torch_cuda_is_available.
  destruct (torch_cuda w); apply R_refl.
Qed.

Lemma preserves_os_path_exists (p : str) : preserves R (os_path_exists p).
Proof. intros w. apply R_refl. Qed.

Lemma preserves_os_listdir (p : str) : preserves R (os_listdir p).
Proof. intros w. unfold os_listdir. destruct (listdir (fs w) p); apply R_refl. Qed.

Lemma preserves_os_path_getmtime (p : str) : preserves R (os_path_getmtime p).
Proof.
  intros w. unfold os_path_getmtime. destruct (getmtime (fs w) p); apply R_refl.
Qed.

Lemma preserves_read_world {A} (f : World -> A) :
  preserves R (fun w => (Ok (f w), w)).
Proof. intros w. apply R_refl. Qed.

Hypothesis R_set_fs : forall f w, R w (set_fs f w).

Lemma preserves_os_makedirs (p : str) : preserves R (os_makedirs p).
Proof.
  intros w. unfold os_makedirs.
  destruct (makedirs w p (fs w)); [apply R_set_fs|].
  destruct (makedirs_failure w p (fs w)) as [e f]. apply R_set_fs.
Qed.

Lemma preserves_subprocess_run (argv : list str) :
  preserves R (subprocess_run argv).
Proof.
  intros w. unfold subprocess_run. destruct (child w argv (fs w)) as [rc f].
  assert (H : R w (set_fs f (emit (Spawned argv rc) w))).
  { apply (R_trans _ (emit (Spawned argv rc) w)); [apply R_emit|apply R_set_fs]. }
  now destruct (rc =? 0)%Z.
Qed.

(** Splits a computation along its binds, handlers and tests. *)
Ltac preserves_step :=
  match goal with
  | |- preserves R (bind _ _) => apply preserves_bind; [|intros ?]
  | |- preserves R (try_except _ _) =>
      apply preserves_try_except;
      [|let e := fresh "e" in let h := fresh "h" in let E := fresh "E" in
        intros e h E; destruct e; simpl in E; try discriminate E;
        injection E as <-]
  | |- preserves R (if ?b then _ else _) => destruct b
  | |- preserves R (match ?x with _ => _ end) => destruct x
  | |- preserves R _ =>
      first [ assumption | apply preserves_ret | apply preserves_raise
            | apply preserves_print | apply preserves_input
            | apply preserves_sys_exit | apply preserves_shutil_which
            | apply preserves_torch | apply preserves_os_path_exists
            | apply preserves_os_listdir | apply preserves_os_path_getmtime
            | apply preserves_read_world | apply preserves_os_makedirs
            | apply preserves_subprocess_run ]
  end.

Lemma preserves_input_stripped (p : str) : preserves R (input_stripped p).
Proof. unfold input_stripped. repeat preserves_step. Qed.

Lemma preserves_prompt_mode : preserves R prompt_mode.
Proof.
  unfold prompt_mode. pose proof preserves_input_stripped as H.
  repeat first [apply H | preserves_step].
Qed.

Lemma preserves_prompt_all_inputs : preserves R prompt_all_inputs.
Proof.
  unfold prompt_all_inputs. pose proof preserves_input_stripped as H.
  repeat first [apply H | preserves_step].
Qed.

Lemma preserves_ensure_cmd_on_path (c h : str) :
  preserves R (ensure_cmd_on_path c h).
Proof. unfold ensure_cmd_on_path. repeat preserves_step. Qed.

Lemma preserves_resolve_device (d : str) : preserves R (resolve_device d).
Proof. unfold resolve_device. repeat preserves_step. Qed.

Lemma preserves_trim_after_altmanifest {lib : Library} (url : str) :
  preserves R (trim_after_altmanifest url).
Proof. unfold trim_after_altmanifest. repeat preserves_step. Qed.

Lemma preserves_keyed (l : list str) : preserves R (keyed os_path_getmtime l).
Proof. induction l; simpl; repeat preserves_step. Qed.

Lemma preserves_pick_txt_output (outdir basename : str) :
  preserves R (pick_txt_output outdir basename).
Proof.
  unfold pick_txt_output, max_by_key. pose proof preserves_keyed as H.
  repeat first [apply H | preserves_step].
Qed.

Lemma preserves_run_ffmpeg (u p : str) : preserves R (run_ffmpeg u p).
Proof. unfold run_ffmpeg. repeat preserves_step. Qed.

Lemma preserves_run_whisper (p o m l d : str) :
  preserves R (run_whisper p o m l d).
Proof. unfold run_whisper. repeat preserves_step. Qed.

End Preserved.

Lemma preserves_after_download {lib : Library}
    (R : World -> World -> Prop) (mode o b p m l d : str) :
  (forall w, R w w) -> (forall a b c, R a b -> R b c -> R a c) ->
  (forall e w, R w (emit e w)) -> (forall f w, R w (set_fs f w)) ->
  preserves R (after_download mode o b p m l d).
Proof.
  intros Hr Ht He Hf. unfold after_download.
  destruct (eqb mode (lit "download")).
  - apply preserves_bind; [assumption..|apply preserves_print; assumption|].
    intros _. apply preserves_sys_exit; assumption.
  - apply preserves_bind; [assumption..| |].
    + apply preserves_try_except; [assumption..| |].
      * now apply preserves_run_whisper.
      * intros e h E. destruct e; try discriminate E. injection E as <-.
        apply preserves_bind; [assumption..|apply preserves_print; assumption|].
        intros _. apply preserves_sys_exit; assumption.
    + intros _. apply preserves_bind; [assumption..| |].
      * now apply preserves_pick_txt_output.
      * intros _. now apply preserves_ret.
Qed.

(** What is kept between the start and the end of a run of [m]. *)
Lemma same_files_run {A} (m : M A) (w w' : World) (r : result A) :
  preserves same_files m -> m w = (r, w') -> same_files w w'.
Proof. intros H E. specialize (H w). now rewrite E in H. Qed.

Lemma quiet_run {A} (m : M A) (w w' : World) (r : result A) :
  quiet m -> m w = (r, w') -> spawns (trace w') = spawns (trace w).
Proof. intros H E. specialize (H w). now rewrite E in H. Qed.

Lemma run_pair {A} (m : M A) (w : World) : m w = (fst (m w), snd (m w)).
Proof. now destruct (m w). Qed.

Lemma truthy_true (s : str) : truthy s = true <-> s <> [].
Proof. destruct s; simpl; split; congruence. Qed.


(** *** The values a run works with *)

(** The value trim_after_altmanifest returns does not depend on the world. *)
Lemma trim_value {lib : Library} (url : str) (w w' : World) :
  fst (trim_after_altmanifest url w) = fst (trim_after_altmanifest url w').
Proof.
  unfold trim_after_altmanifest.
  destruct (Urllib.urlsplit url) as [parts|]; [|reflexivity].
  destruct (negb (truthy (query parts))); [reflexivity|].
  destruct (find (lit "altmanifest") (lower (query parts)) =? -1); [reflexivity|].
  destruct (rfind (lit "&") (query parts) 0 _ =? -1); reflexivity.
Qed.

(** resolve_device returns what [effective_device] says. *)
Lemma resolve_device_eq (d : str) (w : World) :
  exists w', resolve_device d w = (Ok (effective_device w d), w').
Proof.
  unfold effective_device. destruct (eqb d (lit "cuda")) eqn:E.
  - apply eqb_eq in E. subst d. apply resolve_device_cuda_eq.
  - exists w. unfold resolve_device. now rewrite E.
Qed.

Lemma effective_device_same (w w' : World) (d : str) :
  same_machine w w' -> effective_device w' d = effective_device w d.
Proof.
  intros (H1 & H2 & _). unfold effective_device. now rewrite H1, H2.
Qed.

Lemma resolve_device_stdin (d : str) (w : World) :
  stdin (snd (resolve_device d w)) = stdin w.
Proof.
  unfold resolve_device. destruct (eqb d (lit "cuda")); [|reflexivity].
  unfold try_except, bind, torch_cuda_is_available, shutil_which, print, ret.
  destruct (torch_cuda w) as [[|]|]; cbn [negb is_Exception]; try reflexivity.
  now destruct (which w (lit "nvidia-smi")).
Qed.

(** make_paths, when the folder can be made and the URL is accepted. *)
Lemma make_paths_eq {lib : Library} (outdir url u : str) (f : FS) (w : World) :
  makedirs w outdir (fs w) = Some f ->
  fst (trim_after_altmanifest url w) = Ok u ->
  exists w',
    make_paths outdir url w
    = (Ok (u, lit "video", os_path_join outdir (lit "video" ++ lit ".mp4")), w')
    /\ same_machine w w' /\ fs w' = f
    /\ spawns (trace w') = spawns (trace w)
    /\ stdin w' = stdin w.
Proof.
  intros Hm Hu. unfold make_paths, bind at 1, os_makedirs. rewrite Hm.
  unfold bind.
  rewrite (trim_value url w (set_fs f w)) in Hu.
  pose proof (preserves_trim_after_altmanifest same_files same_files_refl
                same_files_trans same_files_emit url (set_fs f w)) as [P1 P2].
  pose proof (quiet_trim_after_altmanifest url (set_fs f w)) as Q.
  assert (St : stdin (snd (trim_after_altmanifest url (set_fs f w))) = stdin w).
  { unfold trim_after_altmanifest.
    destruct (Urllib.urlsplit url) as [parts|]; [|reflexivity].
    destruct (negb (truthy (query parts))); [reflexivity|].
    destruct (find (lit "altmanifest") (lower (query parts)) =? -1); [reflexivity|].
    destruct (rfind (lit "&") (query parts) 0 _ =? -1); reflexivity. }
  rewrite (run_pair (trim_after_altmanifest url) (set_fs f w)), Hu.
  eexists. split; [reflexivity|].
  split; [|split; [|split]].
  - apply (same_machine_trans _ (set_fs f w)); [apply same_machine_set_fs|exact P1].
  - rewrite P2. now autorewrite with world.
  - rewrite Q. now autorewrite with world.
  - exact St.
Qed.

(** When a URL is given, the two prompt functions return the values the five
    answers determine, leaving the machine and its files as they were. *)
Lemma main_inputs (w : World) :
  answer 2 w <> [] ->
  exists w1 w2,
    prompt_mode w = (Ok (chosen_mode w), w1)
    /\ prompt_all_inputs w1
       = (Ok (chosen_outdir w, answer 2 w, chosen_language w,
              requested_device w, chosen_model w), w2)
    /\ same_files w w2
    /\ spawns (trace w2) = spawns (trace w)
    /\ stdin w2 = skipn 5 (stdin w).
Proof.
  intros Hurl.
  pose proof (fun A (m : M A) => same_files_run m) as SF.
  destruct (prompt_mode_eq w) as (w1 & E1 & _ & S1 & _).
  destruct (SF _ _ _ _ _
              (preserves_prompt_mode same_files same_files_refl same_files_trans
                 same_files_emit same_files_set_stdin) E1) as [M1 F1].
  pose proof (quiet_run _ _ _ _ quiet_prompt_mode E1) as Q1.
  destruct (prompt_all_inputs_eq w1) as (w2 & E2 & _ & S2 & _).
  rewrite (answer_tl 0 w w1 S1), (answer_tl 1 w w1 S1), (answer_tl 2 w w1 S1),
    (answer_tl 3 w w1 S1) in E2.
  rewrite (answer_tl 1 w w1 S1) in S2.
  apply truthy_true in Hurl. rewrite Hurl in E2, S2.
  destruct (SF _ _ _ _ _
              (preserves_prompt_all_inputs same_files same_files_refl
                 same_files_trans same_files_emit same_files_set_stdin) E2)
    as [M2 F2].
  pose proof (quiet_run _ _ _ _ quiet_prompt_all_inputs E2) as Q2.
  pose proof (same_machine_trans _ _ _ M1 M2) as M12.
  destruct M1 as (_ & _ & Hexp & Habs & _).
  rewrite Hexp, Habs in E2.
  exists w1, w2. split; [exact E1|]. split; [exact E2|].
  split; [split; [exact M12|congruence]|]. split; [congruence|].
  rewrite S2, S1. now destruct (stdin w) as [|? [|? [|? [|? [|? ?]]]]].
Qed.

(** A run of main in which the commands are found, a URL that urlsplit accepts
    is given and the output folder can be made reaches the download, with
    the values the answers determine. *)
Lemma main_until_download {lib : Library} (w : World) (f : FS) (u : str) :
  which w (lit "ffmpeg") = true ->
  which w (lit "whisper") = true ->
  answer 2 w <> [] ->
  makedirs w (chosen_outdir w) (fs w) = Some f ->
  fst (trim_after_altmanifest (answer 2 w) w) = Ok u ->
  exists w5,
    main w
    = bind (run_ffmpeg u (chosen_mp4 w))
        (fun _ => after_download (chosen_mode w) (chosen_outdir w) (lit "video")
                    (chosen_mp4 w) (chosen_model w) (chosen_language w)
                    (effective_device w (requested_device w))) w5
    /\ same_machine w w5 /\ fs w5 = f
    /\ spawns (trace w5) = spawns (trace w)
    /\ stdin w5 = skipn 5 (stdin w)
    /\ (effective_device w (requested_device w) <> requested_device w ->
        exists t,
          trace w5
          = t ++ [Printed (device_fallback_msg (requested_device w)
                             (effective_device w (requested_device w)))]).
Proof.
  intros Hf Hw Hurl Hmk Hu.
  destruct (main_inputs w Hurl) as (w1 & w2 & E1 & E2 & [M2 F2] & Q2 & S2).
  destruct (make_paths_eq (chosen_outdir w) (answer 2 w) u f w2)
    as (w3 & E3 & M3 & F3 & Q3 & S3).
  { destruct M2 as (_ & _ & _ & _ & Hmd & _). now rewrite Hmd, F2. }
  { now rewrite (trim_value _ w2 w). }
  fold (chosen_mp4 w) in E3.
  pose proof (same_machine_trans _ _ _ M2 M3) as M13.
  destruct (resolve_device_eq (requested_device w) w3) as (w4 & E4).
  rewrite (effective_device_same w w3 _ M13) in E4.
  destruct (same_files_run _ _ _ _
              (preserves_resolve_device same_files same_files_refl
                 same_files_trans same_files_emit (requested_device w)) E4)
    as [M4 F4].
  pose proof (quiet_run _ _ _ _ (quiet_resolve_device _) E4) as Q4.
  pose proof (resolve_device_stdin (requested_device w) w3) as S4.
  rewrite E4 in S4. cbn [snd] in S4.
  set (device := effective_device w (requested_device w)) in *.
  set (notice := if negb (eqb device (requested_device w))
                 then print (lit "[i] Device fallback: requested='"
                               ++ requested_device w
                               ++ lit "', effective='" ++ device ++ lit "'.")
                 else ret tt).
  assert (E5 : exists w5, notice w4 = (Ok tt, w5) /\ same_files w4 w5
                          /\ spawns (trace w5) = spawns (trace w4)
                          /\ stdin w5 = stdin w4
                          /\ (device <> requested_device w ->
                              exists t,
                                trace w5
                                = t ++ [Printed (device_fallback_msg
                                                   (requested_device w) device)])).
  { unfold notice. destruct (eqb device (requested_device w)) eqn:Ed; cbn [negb].
    - exists w4. split; [reflexivity|]. split; [apply same_files_refl|].
      split; [reflexivity|]. split; [reflexivity|].
      apply eqb_eq in Ed. intros H. contradiction.
    - eexists. split; [reflexivity|]. split; [apply same_files_emit|].
      autorewrite with world. rewrite spawns_app. cbn. rewrite app_nil_r.
      split; [reflexivity|]. split; [reflexivity|]. intros _. now eexists. }
  destruct E5 as (w5 & E5 & [M5 F5] & Q5 & S5 & N5).
  exists w5. split; [|split; [|split; [|split; [|split; [|exact N5]]]]].
  - unfold main.
    unfold bind at 1. rewrite (ensure_cmd_on_path_found _ _ w Hf).
    unfold bind at 1. rewrite (ensure_cmd_on_path_found _ _ w Hw).
    unfold bind at 1. rewrite E1.
    unfold bind at 1. rewrite E2.
    unfold bind at 1. rewrite E3.
    unfold bind at 1. rewrite E4. fold notice.
    unfold bind at 1. rewrite E5. reflexivity.
  - apply (same_machine_trans _ _ _ M13).
    apply (same_machine_trans _ _ _ M4 M5).
  - congruence.
  - congruence.
  - congruence.
Qed.

(** When make_paths raises, main ends in that exception. *)
Lemma main_stops_in_make_paths {lib : Library} (w : World) (e : exn) :
  which w (lit "ffmpeg") = true ->
  which w (lit "whisper") = true ->
  answer 2 w <> [] ->
  (forall w2, same_files w w2 ->
     fst (make_paths (chosen_outdir w) (answer 2 w) w2) = Raise e) ->
  exists w2,
    same_files w w2 /\ spawns (trace w2) = spawns (trace w)
    /\ main w = (Raise e, snd (make_paths (chosen_outdir w) (answer 2 w) w2)).
Proof.
  intros Hf Hw Hurl He.
  destruct (main_inputs w Hurl) as (w1 & w2 & E1 & E2 & SF2 & Q2 & S2).
  exists w2. split; [exact SF2|]. split; [exact Q2|].
  specialize (He w2 SF2).
  unfold main.
  unfold bind at 1. rewrite (ensure_cmd_on_path_found _ _ w Hf).
  unfold bind at 1. rewrite (ensure_cmd_on_path_found _ _ w Hw).
  unfold bind at 1. rewrite E1.
  unfold bind at 1. rewrite E2.
  unfold bind at 1.
  rewrite (run_pair (make_paths (chosen_outdir w) (answer 2 w)) w2), He.
  reflexivity.
Qed.

(** *** Runs that end before the download *)

(** When both commands are found and a URL is given that urlsplit rejects
    with ValueError, main makes the output folder and then ends in that
    ValueError, which nothing catches: the exit status is 1 and no child
    process was started. *)
Theorem rejected_url_ends_in_ValueError {lib : Library} (w : World) (f : FS) :
  which w (lit "ffmpeg") = true ->
  which w (lit "whisper") = true ->
  answer 2 w <> [] ->
  Urllib.urlsplit (answer 2 w) = None ->
  makedirs w (chosen_outdir w) (fs w) = Some f ->
  exists w',
    main w = (Raise ValueError, w')
    /\ exit_status (fst (main w)) = 1
    /\ spawns (trace w') = spawns (trace w)
    /\ fs w' = f.
Proof.
  intros Hf Hw Hurl Hs Hmk.
  assert (E : forall w2, same_files w w2 ->
            make_paths (chosen_outdir w) (answer 2 w) w2
            = (Raise ValueError, set_fs f w2)).
  { intros w2 [(_ & _ & _ & _ & Hmd & _) F2].
    unfold make_paths, bind, os_makedirs. rewrite Hmd, F2, Hmk.
    unfold trim_after_altmanifest. now rewrite Hs. }
  destruct (main_stops_in_make_paths w ValueError Hf Hw Hurl)
    as (w2 & SF2 & Q2 & Em).
  { intros w2 SF2. now rewrite (E w2 SF2). }
  rewrite (E w2 SF2) in Em. cbn [snd] in Em.
  exists (set_fs f w2). rewrite Em. cbn [fst exit_status].
  autorewrite with world. now repeat split.
Qed.

Lemma rejected_url_ends_in_ValueError_witness :
  exists w',
    main (lib := plain_library)
      (session [lit "2"; lit "out"; lit "http://[::1"] [] None all_succeed)
    = (Raise ValueError, w')
    /\ exit_status
         (fst (main (lib := plain_library)
                 (session [lit "2"; lit "out"; lit "http://[::1"] [] None
                    all_succeed))) = 1
    /\ spawns (trace w') = spawns []
    /\ fs w' = empty_fs.
Proof.
  apply (rejected_url_ends_in_ValueError (lib := plain_library)
           (session [lit "2"; lit "out"; lit "http://[::1"] [] None all_succeed)
           empty_fs); try reflexivity.
  discriminate.
Defined.



(** *** The two commands and their arguments *)









(** *** The end of a transcription run *)









(** *** The device probe, whatever is asked for *)

(** For every device string, resolve_device returns and raises nothing.  The
    result is "cuda" or "cpu"; it is "cuda" only when "cuda" was asked for and
    either torch reports CUDA or torch cannot be asked and nvidia-smi is on
    the path; for any other request nothing is probed or printed.  No input
    is read and no child process started. *)
Theorem resolve_device_never_raises (d : str) (w : World) :
  exists r w',
    resolve_device d w = (Ok r, w')
    /\ (r = lit "cuda" \/ r = lit "cpu")
    /\ (r = lit "cuda" ->
        d = lit "cuda"
        /\ (torch_cuda w = Some true
            \/ (torch_cuda w = None /\ which w (lit "nvidia-smi") = true)))
    /\ (d <> lit "cuda" -> w' = w)
    /\ stdin w' = stdin w
    /\ spawns (trace w') = spawns (trace w).
Proof.
  pose proof (resolve_device_stdin d w) as S.
  pose proof (quiet_resolve_device d w) as Q.
  unfold resolve_device in *. destruct (eqb d (lit "cuda")) eqn:E.
  - apply eqb_eq in E. subst d.
    unfold try_except, bind, torch_cuda_is_available, shutil_which, print, ret in *.
    destruct (torch_cuda w) as [[|]|]; cbn [negb is_Exception] in *.
    + eexists _, _. split; [reflexivity|]. split; [now left|].
      split; [intros _; split; [reflexivity|now left]|].
      split; [intros H; now contradiction H|]. now split.
    + eexists _, _. split; [reflexivity|]. split; [now right|].
      split; [discriminate|].
      split; [intros H; now contradiction H|]. now split.
    + destruct (which w (lit "nvidia-smi")) eqn:Hn; cbn [negb] in *.
      * eexists _, _. split; [reflexivity|]. split; [now left|].
        split; [intros _; split; [reflexivity|now right]|].
        split; [intros H; now contradiction H|]. now split.
      * eexists _, _. split; [reflexivity|]. split; [now right|].
        split; [discriminate|].
        split; [intros H; now contradiction H|]. now split.
  - apply eqb_neq in E. exists (lit "cpu"), w.
    split; [reflexivity|]. split; [now right|]. split; [discriminate|].
    now repeat split.
Qed.

(** When "cuda" is the device asked for, by an answer or by default, and
    resolve_device returns "cpu" for it, a run that reaches the download has
    printed the fallback notice. *)
Theorem device_fallback_is_announced {lib : Library} (w : World) (f : FS) (u : str) :
  which w (lit "ffmpeg") = true ->
  which w (lit "whisper") = true ->
  answer 2 w <> [] ->
  makedirs w (chosen_outdir w) (fs w) = Some f ->
  fst (trim_after_altmanifest (answer 2 w) w) = Ok u ->
  requested_device w = lit "cuda" ->
  fst (resolve_device (lit "cuda") w) = Ok (lit "cpu") ->
  In (Printed (lit "[i] Device fallback: requested='cuda', effective='cpu'."))
     (trace (snd (main w))).
Proof.
  intros Hf Hw Hurl Hmk Hu Hreq Hdev.
  destruct (resolve_device_eq (lit "cuda") w) as (w0 & Ed).
  rewrite Ed in Hdev. injection Hdev as Heff.
  destruct (main_until_download w f u Hf Hw Hurl Hmk Hu)
    as (w5 & E & _ & _ & _ & _ & N5).
  rewrite Hreq, Heff in N5. destruct N5 as (t & T5); [discriminate|].
  assert (G : grows w5 (snd (main w))).
  { rewrite E.
    apply (preserves_bind grows grows_trans).
    - apply (preserves_run_ffmpeg grows grows_trans grows_emit grows_set_fs).
    - intros _. apply (preserves_after_download grows);
        [apply grows_refl|apply grows_trans|apply grows_emit|apply grows_set_fs]. }
  destruct G as (t' & G). rewrite G, T5.
  apply in_or_app. left. apply in_or_app. right. now left.
Qed.

Lemma device_fallback_is_announced_witness :
  In (Printed (lit "[i] Device fallback: requested='cuda', effective='cpu'."))
     (trace (snd (main (lib := plain_library)
                    (session [lit "1"; lit "out"; lit "https://h/v"; lit ""; lit ""]
                       [] (Some false) all_succeed)))).
Proof.
  apply (device_fallback_is_announced (lib := plain_library)
           (session [lit "1"; lit "out"; lit "https://h/v"; lit ""; lit ""]
              [] (Some false) all_succeed)
           empty_fs (lit "https://h/v")); try (vm_compute; reflexivity).
  discriminate.
Defined.

(** *** What the collector hands over *)

Lemma rstrip_by_last (p : char -> bool) (u : str) (x : char) :
  p x = false -> rstrip_by p (u ++ [x]) = u ++ [x].
Proof.
  intros H. unfold rstrip_by. rewrite rev_unit. cbn [lstrip_by]. rewrite H.
  cbn [rev]. now rewrite rev_involutive.
Qed.

Lemma strip_strip (s : str) : strip (strip s) = strip s.
Proof.
  unfold strip. set (t := lstrip_by isspace s).
  assert (Ht : match t with [] => True | x :: _ => isspace x = false end).
  { destruct (lstrip_by_spec isspace s) as (r & _ & _ & H). exact H. }
  destruct (rstrip_by_spec isspace t) as (r & Er & Hr & Hlast).
  set (v := rstrip_by isspace t) in *.
  assert (Hv : lstrip_by isspace v = v).
  { destruct v as [|c v']; [reflexivity|].
    destruct t as [|x t']; [discriminate Er|]. injection Er as <- _.
    now apply lstrip_by_head. }
  rewrite Hv.
  destruct (rev v) as [|x u] eqn:Ev.
  - apply (f_equal (@rev _)) in Ev. rewrite rev_involutive in Ev. now rewrite Ev.
  - apply (f_equal (@rev _)) in Ev. rewrite rev_involutive in Ev. cbn [rev] in Ev.
    rewrite Ev. apply rstrip_by_last. now apply (Hlast (rev u)).
Qed.

Lemma lower_nonempty (s : str) : s <> [] -> lower s <> [].
Proof.
  destruct s as [|c s']; [congruence|]. intros _. unfold lower.
  cbn [lower_from]. unfold lower_char.
  repeat match goal with |- context [if ?b then _ else _] => destruct b end;
    discriminate.
Qed.

Lemma or_else_nonempty (a b : str) : b <> [] -> or_else a b <> [].
Proof. intros H. unfold or_else. now destruct a. Qed.

(** Whenever prompt_all_inputs returns, the URL is not empty and has no
    white space around it, the language is not empty, the device is "cuda" or
    "cpu", the model is "medium.en" for the language "en" and "medium" for
    every other one, and the first four lines of the input (all of them, when
    there are fewer) have been consumed. *)
Theorem prompt_all_inputs_returns_valid
    (w w' : World) (outdir url language device model : str) :
  prompt_all_inputs w = (Ok (outdir, url, language, device, model), w') ->
  url <> [] /\ strip url = url
  /\ language <> []
  /\ (device = lit "cuda" \/ device = lit "cpu")
  /\ ((language = lit "en" /\ model = lit "medium.en")
      \/ (language <> lit "en" /\ model = lit "medium"))
  /\ stdin w' = skipn 4 (stdin w).
Proof.
  intros E. destruct (prompt_all_inputs_eq w) as (w1 & E1 & _ & S1 & _).
  rewrite E in E1.
  destruct (truthy (answer 1 w)) eqn:Hurl; [|discriminate E1].
  injection E1 as -> -> -> -> -> ->.
  split; [now apply truthy_true|]. split; [apply strip_strip|].
  split; [apply lower_nonempty, or_else_nonempty; discriminate|].
  split.
  - set (d := lower (or_else (answer 3 w) default_device)).
    cbn [existsb]. destruct (eqb d (lit "cuda")) eqn:E1; cbn [orb].
    + left. now apply eqb_eq.
    + destruct (eqb d (lit "cpu")) eqn:E2; cbn [orb]; [right; now apply eqb_eq|].
      now left.
  - split; [|exact S1].
    destruct (eqb _ (lit "en")) eqn:El.
    + left. now apply eqb_eq in El.
    + right. now apply eqb_neq in El.
Qed.

Lemma prompt_all_inputs_returns_valid_witness :
  let url := lit "https://h/v" in
  url <> [] /\ strip url = url
  /\ lit "fr" <> []
  /\ (lit "cuda" = lit "cuda" \/ lit "cuda" = lit "cpu")
  /\ ((lit "fr" = lit "en" /\ lit "medium" = lit "medium.en")
      \/ (lit "fr" <> lit "en" /\ lit "medium" = lit "medium"))
  /\ @nil str = skipn 4 [lit ""; lit "  https://h/v "; lit "FR"; lit "gpu"].
Proof.
  apply (prompt_all_inputs_returns_valid
           (session [lit ""; lit "  https://h/v "; lit "FR"; lit "gpu"] [] None
              all_succeed)
           (snd (prompt_all_inputs
                   (session [lit ""; lit "  https://h/v "; lit "FR"; lit "gpu"] []
                      None all_succeed)))
           (lit "/home/u/transcripts")).
  vm_compute. reflexivity.
Defined.

(** *** The folder of the download *)

Lemma rstrip_by_drop (p : char -> bool) (s : str) (c : char) :
  p c = true -> rstrip_by p (s ++ [c]) = rstrip_by p s.
Proof.
  intros H. unfold rstrip_by. rewrite rev_unit. cbn [lstrip_by]. now rewrite H.
Qed.

Lemma rfind_whole (sub s : str) : rfind sub s 0 (len s) = rfind_from sub s 0 (-1).
Proof.
  pose proof (rfind_prefix sub s []) as H. now rewrite app_nil_r in H.
Qed.

(** The directory part of [a ++ "/" ++ name], for a name without "/". *)
Lemma dirname_of_file (a name : str) :
  ~ In 47%N name ->
  os_path_dirname (a ++ 47%N :: name)
  = if forallb (N.eqb 47) a then a ++ [47%N]
    else rstrip_chars (lit "/") a.
Proof.
  intros Hn. unfold os_path_dirname. rewrite rfind_whole.
  change (lit "/") with [47%N].
  pose proof (rfind_from_last 47%N a name 0 (-1) Hn) as Hr.
  unfold str, char in *. rewrite Hr. clear Hr.
  replace (0 + len a + 1) with (len (a ++ [47%N]))
    by (rewrite len_app; cbn; lia).
  replace (a ++ 47%N :: name) with ((a ++ [47%N]) ++ name)
    by (now rewrite <- app_assoc).
  rewrite slice_to_prefix.
  replace (truthy (a ++ [47%N])) with true by (now destruct a).
  rewrite forallb_app. cbn [forallb N.eqb Pos.eqb andb]. rewrite andb_true_r.
  destruct (forallb (N.eqb 47) a); cbn [negb andb]; [reflexivity|].
  unfold rstrip_chars. now apply rstrip_by_drop.
Qed.

(** The directory part of [name] alone is empty. *)
Lemma dirname_of_name (name : str) :
  ~ In 47%N name -> os_path_dirname name = [].
Proof.
  intros Hn. unfold os_path_dirname. rewrite rfind_whole.
  change (lit "/") with [47%N].
  pose proof (rfind_from_absent 47%N name 0 (-1) Hn) as Hr.
  unfold str, char in *. rewrite Hr. clear Hr.
  replace (-1 + 1) with 0 by reflexivity.
  unfold slice_to. rewrite clamp_in_range by (pose proof (len_nonneg name); lia).
  reflexivity.
Qed.

Lemma forallb_slash_rstrip (a : str) :
  forallb (N.eqb 47) (a ++ [47%N]) = forallb (N.eqb 47) a.
Proof. rewrite forallb_app. cbn. now rewrite andb_true_r. Qed.

(** The directory part of a file name joined to a folder. *)
Lemma dirname_join (outdir name : str) :
  ~ In 47%N name ->
  os_path_dirname (os_path_join outdir name)
  = if forallb (N.eqb 47) outdir then outdir
    else rstrip_chars (lit "/") outdir.
Proof.
  intros Hn. unfold os_path_join.
  assert (Hs : startswith (lit "/") name = false).
  { destruct (startswith (lit "/") name) eqn:E; [|reflexivity].
    apply startswith_iff in E as (post & ->). contradiction Hn. now left. }
  rewrite Hs.
  destruct (truthy outdir) eqn:Ht; cbn [negb orb].
  - destruct (endswith (lit "/") outdir) eqn:He.
    + apply endswith_iff in He as (a & ->).
      pose proof (dirname_of_file a name Hn) as Hd.
      pose proof (forallb_slash_rstrip a) as Hf.
      pose proof (rstrip_by_drop (fun c => mem c (lit "/")) a 47%N eq_refl) as Hr.
      unfold rstrip_chars. change (lit "/") with [47%N] in *.
      unfold str, char in *. rewrite <- app_assoc. cbn [app].
      rewrite Hd, Hf, Hr. now destruct (forallb (N.eqb 47) a).
    + pose proof (dirname_of_file outdir name Hn) as Hd.
      change (lit "/" ++ name) with (47%N :: name).
      unfold str, char in *. rewrite Hd.
      destruct (forallb (N.eqb 47) outdir) eqn:Ha; [|reflexivity].
      exfalso.
      assert (He' : endswith (lit "/") outdir = true).
      { apply endswith_iff. destruct (rev outdir) as [|x u] eqn:Er.
        - apply (f_equal (@rev _)) in Er. rewrite rev_involutive in Er.
          subst outdir. discriminate Ht.
        - apply (f_equal (@rev _)) in Er. rewrite rev_involutive in Er.
          cbn [rev] in Er. exists (rev u). rewrite Er. f_equal.
          rewrite Er, forallb_app in Ha. apply andb_true_iff in Ha as [_ Ha].
          cbn [forallb] in Ha. rewrite andb_true_r in Ha.
          apply N.eqb_eq in Ha. now subst x. }
      unfold str, char in *. congruence.
  - apply truthy_false in Ht. subst outdir. cbn [app forallb].
    now apply dirname_of_name.
Qed.

(** The directory run_ffmpeg makes before the download, the dirname of the
    path make_paths has joined, is the output folder without its trailing
    slashes; a folder written with slashes only (the root) is kept as it
    is. *)
Theorem download_folder_is_outdir (outdir : str) :
  os_path_dirname (os_path_join outdir (lit "video" ++ lit ".mp4"))
  = if forallb (N.eqb 47) outdir then outdir
    else rstrip_chars (lit "/") outdir.
Proof.
  apply dirname_join. apply not_in_by_test. reflexivity.
Qed.

(** *** Every way pick_txt_output can end *)

(** Reading the modification times either gives one key per path or stops
    at a path whose time cannot be read. *)
Lemma keyed_cases (l : list str) (w : World) :
  (exists ks, keyed os_path_getmtime l w = (Ok ks, w) /\ map fst ks = l)
  \/ (keyed os_path_getmtime l w = (Raise OSError, w)
      /\ exists p, In p l /\ getmtime (fs w) p = None).
Proof.
  induction l as [|x l IH]; [left; now exists []|].
  remember (keyed os_path_getmtime (x :: l) w) as out eqn:E0.
  cbn [keyed] in E0. unfold bind at 1, os_path_getmtime at 1 in E0.
  destruct (getmtime (fs w) x) as [t|] eqn:Ex.
  - unfold bind at 1 in E0.
    destruct IH as [(ks & E & Hm) | (E & p & Hp & Hg)]; rewrite E in E0; subst out.
    + left. exists ((x, t) :: ks). split; [reflexivity|].
      cbn [map fst]. now rewrite Hm.
    + right. split; [reflexivity|]. exists p. split; [now right|exact Hg].
  - subst out. right. split; [reflexivity|]. exists x. split; [now left|exact Ex].
Qed.

Lemma max_by_key_cases (l : list str) (w : World) :
  l <> [] ->
  (exists p, max_by_key os_path_getmtime l w = (Ok p, w) /\ In p l)
  \/ (max_by_key os_path_getmtime l w = (Raise OSError, w)
      /\ exists p, In p l /\ getmtime (fs w) p = None).
Proof.
  intros Hl. unfold max_by_key, bind.
  destruct (keyed_cases l w) as [(ks & E & Hm) | (E & H)]; rewrite E.
  - left. destruct ks as [|b ks]; [cbn in Hm; congruence|].
    exists (max_from b ks). split; [reflexivity|].
    destruct (max_from_spec ks b) as (k & Hin & _).
    rewrite <- Hm. now apply (in_map fst) in Hin.
  - right. now split.
Qed.

Lemma nonempty_false {A} (l : list A) : nonempty l = false <-> l = [].
Proof. destruct l; simpl; split; congruence. Qed.

Lemma txt_any_nil (outdir : str) (names : list str) :
  txt_any outdir names = [] ->
  forall n, In n names -> endswith (lit ".txt") n = false.
Proof.
  intros H n Hn. destruct (endswith (lit ".txt") n) eqn:E; [|reflexivity].
  assert (Hin : In (os_path_join outdir n) (txt_any outdir names)).
  { apply txt_any_spec. now exists n. }
  rewrite H in Hin. contradiction.
Qed.

(** A path pick_txt_output returns is outdir/basename.txt, found to exist, or
    else the join of the folder and one of its entries ending in ".txt".  It
    returns None only when the folder was listed and has no such entry.  The
    only exception it raises is OSError, when the folder cannot be listed or
    the modification time of one of its ".txt" entries cannot be read. *)
Theorem pick_txt_output_outcomes (w : World) (outdir basename : str) :
  let txt_path := os_path_join outdir (basename ++ lit ".txt") in
  match fst (pick_txt_output outdir basename w) with
  | Ok (Some p) =>
      (exists_ (fs w) txt_path = true /\ p = txt_path)
      \/ (exists_ (fs w) txt_path = false
          /\ exists names n,
               listdir (fs w) outdir = Some names /\ In n names
               /\ endswith (lit ".txt") n = true /\ p = os_path_join outdir n)
  | Ok None =>
      exists_ (fs w) txt_path = false
      /\ exists names,
           listdir (fs w) outdir = Some names
           /\ forall n, In n names -> endswith (lit ".txt") n = false
  | Raise e =>
      e = OSError /\ exists_ (fs w) txt_path = false
      /\ (listdir (fs w) outdir = None
          \/ exists names n,
               listdir (fs w) outdir = Some names /\ In n names
               /\ endswith (lit ".txt") n = true
               /\ getmtime (fs w) (os_path_join outdir n) = None)
  end.
Proof.
  intros txt_path.
  remember (pick_txt_output outdir basename w) as out eqn:E.
  unfold pick_txt_output, bind at 1, os_path_exists in E. fold txt_path in E.
  destruct (exists_ (fs w) txt_path) eqn:Hx.
  { subst out. cbn [fst]. now left. }
  unfold bind at 1, os_listdir at 1 in E.
  destruct (listdir (fs w) outdir) as [names|] eqn:Hl.
  2:{ subst out. cbn [fst]. split; [reflexivity|]. split; [reflexivity|now left]. }
  unfold bind at 1 in E.
  set (named := txt_candidates outdir basename names) in E.
  set (any := txt_any outdir names) in E.
  assert (Hsel : exists cands,
             (if negb (nonempty named)
              then (names0 <- os_listdir outdir ;; ret (txt_any outdir names0))
              else ret named) w = (Ok cands, w)
             /\ (forall p, In p cands -> In p any)
             /\ (cands = [] -> any = [])).
  { destruct named as [|c named'] eqn:En; cbn [nonempty negb].
    - exists any. unfold bind, os_listdir. rewrite Hl. now repeat split.
    - exists (c :: named'). split; [reflexivity|]. split; [|discriminate].
      intros p Hp. rewrite <- En in Hp. now apply txt_candidates_any in Hp. }
  destruct Hsel as (cands & Es & Hin & Hnil). rewrite Es in E.
  destruct cands as [|c cands'] eqn:Ec; cbn [nonempty] in E.
  - subst out. cbn [fst]. split; [reflexivity|]. exists names.
    split; [reflexivity|]. apply (txt_any_nil outdir). now apply Hnil.
  - rewrite <- Ec in E, Hin.
    destruct (max_by_key_cases cands w) as [(p & Em & Hp) | (Em & p & Hp & Hg)];
      [subst cands; discriminate| |];
      unfold bind at 1 in E; rewrite Em in E; subst out; cbn [fst].
    + right. split; [reflexivity|].
      apply Hin, txt_any_spec in Hp as (n & Hn & He & ->).
      now exists names, n.
    + split; [reflexivity|]. split; [reflexivity|]. right.
      apply Hin, txt_any_spec in Hp as (n & Hn & He & ->).
      now exists names, n.
Qed.

(** *** Trimming twice *)

(** Without the parameter name in the query the URL is returned as it
    is. *)
Lemma trim_unchanged {lib : Library} (url : str) (parts : SplitResult) (w : World) :
  Urllib.urlsplit url = Some parts ->
  ~ has_altmanifest (query parts) ->
  fst (trim_after_altmanifest url w) = Ok url.
Proof.
  intros Hs Hq. unfold trim_after_altmanifest. rewrite Hs.
  destruct (negb (truthy (query parts))); [reflexivity|].
  apply find_none in Hq. rewrite Hq. reflexivity.
Qed.

(** Trimming is idempotent on URLs with a host: for a URL that urlsplit
    accepts with a non-empty host part and a query free of U+0130, the URL
    trim_after_altmanifest returns is returned unchanged when it is trimmed
    again. *)
Theorem trim_twice_is_trim_once {lib : Library}
    (url out : str) (parts : SplitResult) (w w' : World) :
  Urllib.urlsplit url = Some parts ->
  netloc parts <> [] ->
  ~ In 304%N (query parts) ->
  fst (trim_after_altmanifest url w) = Ok out ->
  fst (trim_after_altmanifest out w') = Ok out.
Proof.
  intros Hs Hnl H304 Hout.
  destruct (find (lit "altmanifest") (lower (query parts)) =? -1) eqn:Hf.
  - apply Z.eqb_eq, find_none in Hf.
    rewrite (trim_unchanged url parts w Hs Hf) in Hout. injection Hout as <-.
    now apply (trim_unchanged url parts).
  - apply Z.eqb_neq in Hf.
    assert (Hq : has_altmanifest (query parts)).
    { unfold has_altmanifest.
      destruct (find_from_some (lit "altmanifest") (lower (query parts)) 0 _
                  eq_refl Hf) as (pre & post & E & _).
      now exists pre, post. }
    destruct (trim_cut url parts w Hs Hq H304) as (kept & E & Hcut & Hk).
    rewrite E in Hout. injection Hout as <-.
    destruct (urlsplit_host_parts url parts Hs Hnl)
      as (Hsch & Hd & Cnl & Hacc & Hroot & Hp63 & Hp35 & Cp & Hq35 & Cq & Cf).
    assert (Hkept : ~ In 35%N kept /\ clean kept).
    { destruct Hcut as (seps & t1 & m & t2 & Eq & _). rewrite Eq in Hq35, Cq.
      split; [now apply not_in_app_l in Hq35|now apply clean_app in Cq]. }
    destruct Hkept as [Hk35 Ck].
    apply (trim_unchanged _
             (mkSplit (scheme parts) (netloc parts) (path parts) kept
                (fragment parts))); [|exact Hk].
    rewrite (urlunsplit_host _ _ _ _ _ Hnl Hroot).
    now apply urlsplit_assembled.
Qed.

Lemma trim_twice_is_trim_once_witness :
  fst (trim_after_altmanifest (lib := plain_library)
         (lit "https://h/v?a=1&b=2#t") sample_world)
  = Ok (lit "https://h/v?a=1&b=2#t").
Proof.
  apply (trim_twice_is_trim_once (lib := plain_library)
           (lit "HTTPS://h/v?a=1&b=2&&altManifest=3&c=4#t")
           (lit "https://h/v?a=1&b=2#t")
           (mkSplit (lit "https") (lit "h") (lit "/v")
              (lit "a=1&b=2&&altManifest=3&c=4") (lit "t"))
           sample_world sample_world).
  - reflexivity.
  - discriminate.
  - apply not_in_by_test. reflexivity.
  - reflexivity.
Defined.

(** *** How a run can end *)

(** What a computation can raise follows from what its steps can raise; a
    handler takes away the exceptions it names. *)
Section Raised.
Variable P : exn -> Prop.

Lemma raises_only_ret {A} (a : A) : raises_only P (ret a).
Proof. intros w e H. discriminate H. Qed.

Lemma raises_only_raise {A} (e : exn) : P e -> raises_only P (@raise A e).
Proof. intros H w e' E. injection E as <-. exact H. Qed.

Lemma raises_only_bind {A B} (m : M A) (k : A -> M B) :
  raises_only P m -> (forall a, raises_only P (k a)) ->
  raises_only P (bind m k).
Proof.
  intros Hm Hk w e. unfold bind. specialize (Hm w).
  destruct (m w) as [[a|e'] w1]; cbn [fst] in *.
  - apply Hk.
  - intros E. injection E as <-. now apply Hm.
Qed.

Lemma raises_only_try_except {A} (body : M A) (handler : exn -> option (M A)) :
  raises_only (fun e => match handler e with Some _ => True | None => P e end)
    body ->
  (forall e h, handler e = Some h -> raises_only P h) ->
  raises_only P (try_except body handler).
Proof.
  intros Hb Hh w e. unfold try_except. specialize (Hb w).
  destruct (body w) as [[a|e'] w1]; cbn [fst] in *; [discriminate|].
  specialize (Hb e' eq_refl).
  destruct (handler e') as [h|] eqn:E.
  - now apply (Hh e' h).
  - intros E'. injection E' as <-. exact Hb.
Qed.

Lemma raises_only_print (s : str) : raises_only P (print s).
Proof. intros w e H. discriminate H. Qed.

Lemma raises_only_sys_exit {A} (c : Z) :
  P (SystemExit c) -> raises_only P (@sys_exit A c).
Proof. apply raises_only_raise. Qed.

Lemma raises_only_shutil_which (c : str) : raises_only P (shutil_which c).
Proof. intros w e H. discriminate H. Qed.

Lemma raises_only_os_path_exists (p : str) : raises_only P (os_path_exists p).
Proof. intros w e H. discriminate H. Qed.

Lemma raises_only_read_world {A} (f : World -> A) :
  raises_only P (fun w => (Ok (f w), w)).
Proof. intros w e H. discriminate H. Qed.

Lemma raises_only_input_stripped (p : str) : raises_only P (input_stripped p).
Proof. intros w e. rewrite input_stripped_eq. discriminate. Qed.

Lemma raises_only_torch :
  P ImportError -> raises_only P torch_cuda_is_available.
Proof.
  intros H w e. unfold torch_cuda_is_available.
  destruct (torch_cuda w); [discriminate|]. intros E. now injection E as <-.
Qed.

Lemma raises_only_os_makedirs (p : str) :
  P OSError -> P ValueError -> raises_only P (os_makedirs p).
Proof.
  intros H H' w e. unfold os_makedirs.
  destruct (makedirs w p (fs w)); [discriminate|].
  destruct (makedirs_failure w p (fs w)) as [[|] f]; cbn [fst raised];
    intros E; now injection E as <-.
Qed.

Lemma raises_only_os_listdir (p : str) :
  P OSError -> raises_only P (os_listdir p).
Proof.
  intros H w e. unfold os_listdir.
  destruct (listdir (fs w) p); [discriminate|]. intros E. now injection E as <-.
Qed.

Lemma raises_only_subprocess_run (argv : list str) :
  (forall rc, rc <> 0 -> P (CalledProcessError rc)) ->
  raises_only P (subprocess_run argv).
Proof.
  intros H w e. rewrite subprocess_run_eq. cbv zeta.
  destruct (_ =? 0) eqn:E; [discriminate|]. apply Z.eqb_neq in E.
  cbn [fst]. intros E'. injection E' as <-. now apply H.
Qed.

End Raised.

(** Splits a computation along its binds, handlers and tests, and settles
    each primitive step by what it can raise. *)
Ltac raises_side :=
  solve [ intros; try unfold failure; cbn; first [discriminate | auto] ].

Ltac raises_step :=
  match goal with
  | |- raises_only _ (bind _ _) => apply raises_only_bind; [|intros ?]
  | |- raises_only _ (try_except _ _) =>
      apply raises_only_try_except;
      [|let e := fresh "e" in let h := fresh "h" in let E := fresh "E" in
        intros e h E; destruct e; simpl in E; try discriminate E;
        injection E as <-]
  | |- raises_only _ (if ?b then _ else _) => destruct b
  | |- raises_only _ (match ?x with _ => _ end) => destruct x
  | |- raises_only _ _ =>
      first [ assumption
            | apply raises_only_ret | apply raises_only_print
            | apply raises_only_shutil_which | apply raises_only_os_path_exists
            | apply raises_only_read_world | apply raises_only_input_stripped
            | apply raises_only_raise; raises_side
            | apply raises_only_sys_exit; raises_side
            | apply raises_only_torch; raises_side
            | apply raises_only_os_makedirs; raises_side
            | apply raises_only_os_listdir; raises_side
            | apply raises_only_subprocess_run; raises_side ]
  end.

Lemma raises_only_keyed (P : exn -> Prop) (l : list str) :
  P OSError -> raises_only P (keyed os_path_getmtime l).
Proof.
  intros H. induction l as [|x l IH]; cbn [keyed]; [apply raises_only_ret|].
  apply raises_only_bind.
  - intros w e. unfold os_path_getmtime.
    destruct (getmtime (fs w) x); [discriminate|]. intros E. now injection E as <-.
  - intros k. repeat raises_step.
Qed.

Lemma raises_only_main {lib : Library} : raises_only main_exception main.
Proof.
  unfold main, ensure_cmd_on_path, prompt_mode, prompt_all_inputs, make_paths,
    trim_after_altmanifest, resolve_device, run_ffmpeg, run_whisper,
    pick_txt_output, max_by_key.
  pose proof (fun P l => raises_only_keyed P l) as K.
  repeat first [ apply K; raises_side | raises_step ].
Qed.

(** No run of main ends in EOFError or in ImportError: end of input at a
    prompt counts as an empty answer, and when torch cannot be imported the
    probe turns to nvidia-smi.  A CalledProcessError that ends a run carries
    a return code other than 0. *)
Theorem main_never_ends_in_EOFError_or_ImportError {lib : Library} (w : World) :
  fst (main w) <> Raise EOFError
  /\ fst (main w) <> Raise ImportError
  /\ forall rc, fst (main w) = Raise (CalledProcessError rc) -> rc <> 0.
Proof.
  pose proof (raises_only_main w) as H.
  split; [|split].
  - intros E. now apply H in E.
  - intros E. now apply H in E.
  - intros rc E. now apply H in E.
Qed.

Lemma earns_bind_quiet {A} (m : M A) (k : A -> M unit) :
  quiet m -> raises_only failure m -> (forall a, earns_its_zero (k a)) ->
  earns_its_zero (bind m k).
Proof.
  intros Q R Hk w. unfold bind. specialize (Q w). specialize (R w).
  destruct (m w) as [[a|e] w1]; cbn [fst snd] in *.
  - rewrite <- Q. apply Hk.
  - intros H. now contradiction (R e eq_refl).
Qed.

Lemma app_cons_not_self {A} (l t : list A) (x : A) : l ++ x :: t <> l.
Proof.
  intros H. apply (f_equal (@length A)) in H. rewrite length_app in H.
  cbn in H. lia.
Qed.

Lemma earns_run_ffmpeg (u p : str) (k : unit -> M unit) :
  (forall w, exists new, spawns (trace (snd (k tt w))) = spawns (trace w) ++ new) ->
  earns_its_zero (bind (run_ffmpeg u p) k).
Proof.
  intros Hk w. unfold bind.
  destruct (run_ffmpeg_cases u p w)
    as [(E & e & R) | (rc & E & [(H0 & R) | (H0 & R)])];
    destruct (run_ffmpeg u p w) as [r w1]; cbn [fst snd] in E, R; subst r;
    cbn [fst snd exit_status].
  - now destruct e.
  - intros _. destruct (Hk w1) as (new & E1). rewrite E1, E, <- app_assoc.
    apply app_cons_not_self.
  - discriminate.
Qed.

(** A run of main that ends with exit status 0 has started a child. *)
Lemma main_earns_its_zero {lib : Library} : earns_its_zero main.
Proof.
  unfold main.
  apply earns_bind_quiet;
    [apply quiet_ensure_cmd_on_path
    |unfold ensure_cmd_on_path; repeat raises_step|intros _].
  apply earns_bind_quiet;
    [apply quiet_ensure_cmd_on_path
    |unfold ensure_cmd_on_path; repeat raises_step|intros _].
  apply earns_bind_quiet;
    [apply quiet_prompt_mode|unfold prompt_mode; repeat raises_step|intros mode].
  apply earns_bind_quiet;
    [apply quiet_prompt_all_inputs
    |unfold prompt_all_inputs; repeat raises_step|].
  intros [[[[outdir url] language] device_req] model].
  apply earns_bind_quiet;
    [apply quiet_make_paths
    |unfold make_paths, trim_after_altmanifest; repeat raises_step|].
  intros [[url_trimmed basename] mp4_path].
  apply earns_bind_quiet;
    [apply quiet_resolve_device
    |unfold resolve_device; repeat raises_step|intros device].
  apply earns_bind_quiet;
    [destruct (negb _); auto with quiet|repeat raises_step|intros _].
  apply earns_run_ffmpeg. intros w.
  destruct (shaped_after_download url_trimmed mp4_path mode outdir basename
              model language device w) as (new & E & _).
  now exists new.
Qed.

(** A run of main that ends with exit status 0 has downloaded: its first
    child process was ffmpeg and returned 0, and when more children followed,
    the last one was whisper and returned 0. *)
Theorem exit_status_0_means_downloaded {lib : Library} (w : World) :
  exit_status (fst (main w)) = 0 ->
  exists u p rest,
    spawns (trace (snd (main w))) = spawns (trace w) ++ (ffmpeg_argv u p, 0) :: rest
    /\ (rest = []
        \/ exists pre cmd,
             rest = pre ++ [(cmd, 0)] /\ hd [] cmd = lit "whisper").
Proof.
  intros H0. pose proof (main_earns_its_zero w H0) as Hne.
  destruct (main_shaped w) as (new & E & R). cbn [app] in R.
  rewrite E in *. clear E.
  destruct R as [r|u p rc Hrc|u p|r u p f o m l d|r u p f o m l d rc1 Hrc1
                |u p f o m l d rc1 rc2 Hrc1 Hrc2 Hrc3].
  - rewrite app_nil_r in Hne. now contradiction Hne.
  - discriminate H0.
  - exists u, p, []. split; [reflexivity|now left].
  - exists u, p, [(whisper_cmd f o m l d ++ verbose_flags, 0)].
    split; [reflexivity|]. right. exists [], (whisper_cmd f o m l d ++ verbose_flags).
    split; [reflexivity|apply hd_whisper_verbose].
  - exists u, p, [(whisper_cmd f o m l d ++ verbose_flags, rc1);
                  (whisper_cmd f o m l d, 0)].
    split; [reflexivity|]. right.
    exists [(whisper_cmd f o m l d ++ verbose_flags, rc1)], (whisper_cmd f o m l d).
    split; [reflexivity|apply hd_whisper_cmd].
  - cbn [fst exit_status] in H0.
    now contradiction (returncode_nonzero rc2 Hrc3 Hrc2).
Qed.

Lemma exit_status_0_means_downloaded_witness :
  let w := session [lit "1"; lit "out"; lit "https://h/v"] [] None all_succeed in
  exists u p rest,
    spawns (trace (snd (main (lib := plain_library) w)))
    = spawns (trace w) ++ (ffmpeg_argv u p, 0) :: rest
    /\ (rest = []
        \/ exists pre cmd,
             rest = pre ++ [(cmd, 0)] /\ hd [] cmd = lit "whisper").
Proof.
  apply (exit_status_0_means_downloaded (lib := plain_library)
           (session [lit "1"; lit "out"; lit "https://h/v"] [] None all_succeed)).
  vm_compute. reflexivity.
Defined.
